(* ===== verification/_CoqProject ===== *)
-Q . S2P
Prelude.v
Scalar.v
Matrix.v
Sigmoid.v
Objective.v
Regularization.v
Predict.v
Calculus.v
Backprop.v
Shuffle.v
Accuracy.v
Init.v
Optimizer.v
Preprocess.v
Script.v
Persist.v
