(* ===== verification/Prelude.v ===== *)
(** * Verification of Handwritten-Digit-Recognition (src/nnScript.py)

    The program trains a one-hidden-layer sigmoid network on MNIST with
    scipy's conjugate-gradient minimiser and reports accuracies.  Its parts,
    leaf first, and the files that model them:

    - [Prelude]    (this file): Python exceptions as values of [res]
                   ([ValueError], [IndexError], [ZeroDivisionError],
                   numpy's [AxisError]) with a bind notation in
                   [nn_scope]; list helpers ([zipWith], [chunks],
                   [update_at]) and their lemmas; the hint databases [nn]
                   and [nn_len].
    - [Scalar]     the numeric type: a class [Scalar] of the float
                   operations the code uses (+ - * / exp sqrt, comparison).
                   Instance [Scalar_R] (real numbers, for the analytic
                   theorems) and [Scalar_Q] (rationals with a series
                   exponential, so that the model runs by [vm_compute]).
                   Floating-point rounding, overflow and NaN are not modelled.
    - [Matrix]     numpy 2-D arrays as [mat] (a shape and row-major rows):
                   [reshape] (ndarray.reshape, ValueError on a size
                   mismatch), [flatten], [transpose], [vdot] (1-D . 2-D
                   [np.dot]), [mdot] (2-D . 1-D [np.dot]), [outer]
                   ([v[:,None]*u]), [madd], [mscale], [drop_last_col]
                   ([w2[:, range(cols-1)]]), and the two additions into an
                   accumulator that may be numpy's 1-D empty array:
                   [acc_iadd] (in-place [+=], ValueError) and [acc_add]
                   ([+], broadcast against one column only).  Round trip
                   reshape/flatten.
    - [Sigmoid]    [sigmoid] (nnScript.py:25-30) and its real-number
                   properties: range (0,1), strict monotonicity, value at 0,
                   derivative sigma*(1-sigma).
    - [Init]       [initializeWeights] (9-23) with the random source as an
                   explicit state (a stream of draws and a position) that the
                   two calls thread in order; shape and [-eps, eps] bounds.
    - [Objective]  [nnObjFunction] (99-194): the per-example loop body
                   [example_step] (151-179) on an explicit accumulator
                   record, the loop [train_loop] (150), the finalisation
                   [finalize] (181-189) and the whole function.  Theorems:
                   the shape invariant of the accumulators is preserved by
                   every step, the gradient has the parameter vector's
                   length, error characterisation (reshape, empty set,
                   label range, missing labels, no hidden unit), and the
                   regularisation monotone in
                   lambda, and the regularisation gradient that is half the
                   derivative of the regularisation term.
    - [Calculus]   real-number algebra of [vsum] and [dot] under
                   [update_at], and the derivative rules the loss needs
                   (finite sums, squared errors, sigmoid of an affine
                   argument), on the Standard Library's [derivable_pt_lim].
    - [Backprop]   one loop iteration in closed form ([fwd_z1], [fwd_z2],
                   [fwd_err], [fwd_g1], [fwd_g2], read off lines 153-176),
                   its derivative in an entry of [w2] (the output delta) or
                   of [w1] (the delta sent back through [w2] without its
                   bias column), the loop summing them, and [finalize]:
                   the returned gradient against the derivative of the
                   returned loss.
    - [Shuffle]    the loop of [nnObjFunction] as a fold over (row, label)
                   pairs in the error monad, the commutation of two
                   iterations, and the invariance of the engine's result
                   under any reordering of the training examples.
    - [Predict]    [nnPredict] (198-229) with first-occurrence [argmax];
                   the forward pass agrees with the objective's.
    - [Accuracy]   the accuracy expression of the script (283-291) with
                   numpy's 1-D broadcasting of [==] and [np.mean] ([None]
                   for NaN); percentage bounds.
    - [Optimizer]  the call to [scipy.optimize.minimize] (263-264) as an
                   interface: the class [Minimizer], and the class
                   [MinimizerSpec] of the contract of section 4.4 of the
                   specification (length kept, loss not increased, engine
                   errors surface).  scipy's CG method is a library and is
                   not modelled; [gradient_descent] (backtracking line
                   search, [maxiter] accepted steps as fuel, [ls_max]
                   halvings per step) and [conjugate_gradient]
                   (Polak-Ribiere+ directions, restart along the gradient)
                   are instances written from the specification and
                   proved to meet the contract; every theorem about the
                   script holds for both.
    - [Preprocess] [preprocess] (59-96): the loop over the keys of the
                   [.mat] dictionary (an input: [loadmat] is I/O) with
                   [re.findall], [int], [key[:5]], [np.append(.., axis=1)]
                   under two numpy behaviours (concatenation before 1.10,
                   [AxisError] from 1.13), [np.vstack] of [value/255.0], the
                   deletes of the placeholder rows, and the split by the
                   permutation [np.random.permutation(60000)] returns (an
                   input assumed to be a permutation).
    - [Script]     the module-level script (235-291) as [run], proved
                   against the [Minimizer] interface, and [main], which
                   runs [preprocess] first.
    - [Persist]    line 294: the list [[n_hidden, w1, w2, lambdaval]]
                   [pickle.dump] receives as a Python object value, the
                   working directory as a map from file names to stored
                   objects, and [script], the program with its last line.

    How they interact: [Persist.script] runs [Script.main] and saves its
    weights; [Script.main] calls [Preprocess.preprocess], then
    [Script.run] computes [n_input], calls [Init.initial_params], passes
    [Objective.nnObjFunction] to [Optimizer.minimize], reshapes the result
    as [nnObjFunction] does, and evaluates [Predict.nnPredict] and
    [Accuracy.accuracy] on the three sets.  Python exceptions travel as
    [Err] through every [bind].

    What the theorems show, by group: the engine's results and errors
    (C1, C6) and the layout of its gradient (C4: the [w1] block, then the
    [w2] block, as the parameters are cut); the gradient against the
    derivative of the loss (C2: backpropagation is exact, and the
    gradient of the regularisation term is half its derivative, C3); the
    shape invariant of the accumulators (C5); the loss in lambda (C7) and
    its range (C8); the independence of the result from the order of the
    examples (C9); the label handling (C16, C17); sigmoid (C10, C11); the
    predictor (C12-C15); the accuracy (C18-C21: C20 counts the matching
    positions of numpy's broadcast comparison); initialisation (C22,
    C23); the optimizer instances (C24 gradient descent, C34 conjugate
    gradient, C35 both as refinements of a relational descent run); the
    script against the optimizer contract (C25); the whole program (C26:
    it returns with accuracies in [0, 100] with the old numpy and the
    gradient-descent driver; C27: it raises [AxisError] with numpy 1.13
    and later); loading and splitting (C28-C32); the saved parameters
    (C33: they reload to the reported weights, which reproduce the
    reported accuracies).

    Bounds and fuel: there is no fuel but [maxiter] and [ls_max], the
    budgets of the optimizer itself; every other loop is structural
    recursion on a list.  The rational instance computes [exp] by 16 terms
    of its series and [sqrt] by 5 Newton steps, rounded to [2^-40]; it is
    used only to run the model on small inputs, never in a theorem about
    values.

    Not modelled: floating-point rounding, overflow and NaN (the scalar
    class is exact); scipy's CG code (an interface stands for it, with
    two instances written from the specification); [loadmat] and the
    byte format of [pickle], which are I/O and library code; the printed
    strings of 283-291 (the accuracies are returned instead); numpy's
    broadcasting beyond the shapes the code produces (the only operations
    that see a shape other than the one the code intends are the four
    additions into the accumulators, when [n_hidden = 0] or
    [n_class = 0] makes one of them the 1-D empty array, and those are
    modelled: see [Objective]). *)

From Stdlib Require Import List Arith Lia.
Import ListNotations.

(** ** Python exceptions as values *)

Inductive pyerr : Type :=
| ValueError
| IndexError
| ZeroDivisionError
| AxisError.

Inductive res (A : Type) : Type :=
| Ok (a : A)
| Err (e : pyerr).
Arguments Ok {A} a.
Arguments Err {A} e.

Definition bind {A B : Type} (m : res A) (k : A -> res B) : res B :=
  match m with
  | Ok a => k a
  | Err e => Err e
  end.

Definition raise_unless (b : bool) (e : pyerr) : res unit :=
  if b then Ok tt else Err e.

Declare Scope nn_scope.
Delimit Scope nn_scope with nn.
Notation "x <- m ;; k" := (bind m (fun x => k))
  (at level 61, m at next level, right associativity) : nn_scope.
Notation "m ;;; k" := (bind m (fun _ : unit => k))
  (at level 61, right associativity) : nn_scope.

Lemma bind_assoc {A B C} (m : res A) (k : A -> res B) (h : B -> res C) :
  bind (bind m k) h = bind m (fun a => bind (k a) h).
Proof. destruct m; reflexivity. Qed.

Lemma bind_Ok_inv {A B} (m : res A) (k : A -> res B) b :
  bind m k = Ok b -> exists a, m = Ok a /\ k a = Ok b.
Proof. destruct m; simpl; [eauto | discriminate]. Qed.

Lemma bind_Err_inv {A B} (m : res A) (k : A -> res B) e :
  bind m k = Err e -> m = Err e \/ exists a, m = Ok a /\ k a = Err e.
Proof. destruct m; simpl; [eauto | intros [= ->]; auto]. Qed.

Lemma raise_unless_Ok b e u : raise_unless b e = Ok u -> b = true.
Proof. destruct b; simpl; congruence. Qed.

(** Whether a computation returned; decided by evaluation on concrete inputs. *)
Definition is_Ok {A} (m : res A) : bool :=
  match m with
  | Ok _ => true
  | Err _ => false
  end.

Lemma is_Ok_spec {A} (m : res A) : is_Ok m = true -> exists a, m = Ok a.
Proof. destruct m; simpl; [eauto | discriminate]. Qed.

(** Destructs every [bind ... = Ok _] hypothesis into its two halves. *)
Ltac inv_bind :=
  repeat match goal with
  | H : bind _ _ = Ok _ |- _ =>
      let a := fresh "a" in let Ha := fresh "Ha" in
      apply bind_Ok_inv in H; destruct H as [a [Ha H]]
  | H : raise_unless _ _ = Ok _ |- _ => apply raise_unless_Ok in H
  | H : Ok _ = Ok _ |- _ => injection H as H; subst
  end.

(** ** Lists *)

Section Lists.
Context {A B C : Type}.

(** numpy's elementwise binary operation on two 1-D arrays of one length. *)
Fixpoint zipWith (f : A -> B -> C) (l1 : list A) (l2 : list B) : list C :=
  match l1, l2 with
  | x :: t1, y :: t2 => f x y :: zipWith f t1 t2
  | _, _ => []
  end.

Lemma length_zipWith f l1 l2 :
  length (zipWith f l1 l2) = Nat.min (length l1) (length l2).
Proof. revert l2; induction l1; destruct l2; simpl; auto. Qed.

Lemma zipWith_map_l (g : A -> B -> C) (h : A -> A) l1 l2 :
  zipWith g (map h l1) l2 = zipWith (fun x y => g (h x) y) l1 l2.
Proof. revert l2; induction l1; destruct l2; simpl; f_equal; auto. Qed.

Lemma zipWith_app (f : A -> B -> C) l1 l2 l1' l2' :
  length l1 = length l2 ->
  zipWith f (l1 ++ l1') (l2 ++ l2') = zipWith f l1 l2 ++ zipWith f l1' l2'.
Proof.
  revert l2; induction l1; intros [|y l2] Hl; simpl in *; try lia; auto.
  f_equal; auto.
Qed.

Lemma nth_zipWith (f : A -> B -> C) l1 l2 i d1 d2 d :
  i < length l1 -> i < length l2 -> nth i (zipWith f l1 l2) d = f (nth i l1 d1) (nth i l2 d2).
Proof.
  revert l2 i; induction l1 as [|x l1 IH]; intros [|y l2] [|i] H1 H2; simpl in *; try lia; auto.
  apply IH; lia.
Qed.

(** [rows] consecutive chunks of [n] elements: the row-major reshape. *)
Fixpoint chunks (n rows : nat) (l : list A) : list (list A) :=
  match rows with
  | O => []
  | S r => firstn n l :: chunks n r (skipn n l)
  end.

Lemma length_chunks n rows l : length (chunks n rows l) = rows.
Proof. revert l; induction rows; simpl; auto. Qed.

Lemma chunks_lengths n rows l :
  rows * n <= length l -> Forall (fun r => length r = n) (chunks n rows l).
Proof.
  revert l; induction rows; simpl; intros l Hl; constructor.
  - rewrite length_firstn; lia.
  - apply IHrows; rewrite length_skipn; lia.
Qed.

Lemma concat_chunks n rows l :
  length l = rows * n -> concat (chunks n rows l) = l.
Proof.
  revert l; induction rows; simpl; intros l Hl.
  - destruct l; simpl in *; auto; lia.
  - rewrite IHrows by (rewrite length_skipn; lia). apply firstn_skipn.
Qed.

Lemma chunks_concat n (m : list (list A)) :
  Forall (fun r => length r = n) m -> chunks n (length m) (concat m) = m.
Proof.
  induction 1 as [|r m Hr _ IH]; simpl; auto.
  rewrite <- Hr, firstn_app, firstn_all, Nat.sub_diag, firstn_O, app_nil_r.
  rewrite skipn_app, skipn_all, Nat.sub_diag, skipn_O; simpl.
  f_equal; rewrite Hr; exact IH.
Qed.

Lemma length_concat_uniform n (m : list (list A)) :
  Forall (fun r => length r = n) m -> length (concat m) = length m * n.
Proof.
  induction 1; simpl; auto. rewrite length_app; lia.
Qed.

Lemma map_nth_seq (l : list A) d : map (fun i => nth i l d) (seq 0 (length l)) = l.
Proof.
  induction l as [|x l IH]; simpl; f_equal.
  rewrite <- seq_shift, map_map. exact IH.
Qed.

Lemma nth_map_default (f : A -> B) l d d' n : f d = d' -> nth n (map f l) d' = f (nth n l d).
Proof. intros <-; apply map_nth. Qed.

Lemma nth_map_lt (f : A -> B) l d d' n : n < length l -> nth n (map f l) d' = f (nth n l d).
Proof. intros Hn. rewrite (nth_indep _ d' (f d)) by (rewrite length_map; exact Hn). apply map_nth. Qed.

(** Python's [l[i] = x] for an in-range non-negative [i]. *)
Fixpoint update_at (i : nat) (x : A) (l : list A) : list A :=
  match l, i with
  | [], _ => []
  | _ :: t, O => x :: t
  | y :: t, S j => y :: update_at j x t
  end.

Lemma length_update_at i x l : length (update_at i x l) = length l.
Proof. revert i; induction l; destruct i; simpl; auto. Qed.

Lemma nth_update_at i j x l d :
  i < length l -> nth j (update_at i x l) d = if Nat.eqb i j then x else nth j l d.
Proof.
  revert i j; induction l; intros [|i] [|j] Hi; simpl in *; try lia; auto.
  rewrite IHl by lia; reflexivity.
Qed.
End Lists.

(** Python's [l[i] = x] against the other list operations. *)

Section Updates.
Context {A B C : Type}.

Lemma update_at_ge i (x : A) l : length l <= i -> update_at i x l = l.
Proof. revert i; induction l as [|y l IH]; intros [|i] Hi; simpl in *; try lia; auto. f_equal. apply IH. lia. Qed.

Lemma update_at_nth_same i (l : list A) d : update_at i (nth i l d) l = l.
Proof. revert i; induction l as [|y l IH]; intros [|i]; simpl; f_equal; auto. Qed.

Lemma zipWith_seq (f : A -> B -> C) (l1 : list A) (l2 : list B) d1 d2 :
  length l1 = length l2 ->
  zipWith f l1 l2 = map (fun k => f (nth k l1 d1) (nth k l2 d2)) (seq 0 (length l1)).
Proof.
  revert l2; induction l1 as [|x l1 IH]; intros [|y l2] Hl; simpl in *; try lia; auto.
  f_equal. rewrite IH by lia. rewrite <- seq_shift, map_map. reflexivity.
Qed.

Lemma map_update_at (f : A -> B) i x l : map f (update_at i x l) = update_at i (f x) (map f l).
Proof. revert i; induction l; intros [|i]; simpl; f_equal; auto. Qed.

Lemma zipWith_update_at_r (f : A -> B -> C) i (x : B) l1 l2 d :
  i < length l1 -> zipWith f l1 (update_at i x l2) = update_at i (f (nth i l1 d) x) (zipWith f l1 l2).
Proof.
  revert i l2; induction l1 as [|a l1 IH]; intros [|i] [|b l2] Hi; simpl in *; try lia; auto.
  f_equal. apply IH. lia.
Qed.

Lemma update_at_app_l i (x : A) l1 l2 : i < length l1 -> update_at i x (l1 ++ l2) = update_at i x l1 ++ l2.
Proof. revert i; induction l1; intros [|i] Hi; simpl in *; try lia; f_equal; auto with arith. Qed.

Lemma firstn_update_at_lt n i (x : A) l : i < n -> firstn n (update_at i x l) = update_at i x (firstn n l).
Proof.
  revert n i; induction l as [|a l IH]; intros [|n] [|i] Hi; simpl; try lia; auto.
  f_equal. apply IH. lia.
Qed.

Lemma firstn_update_at_ge n i (x : A) l : n <= i -> firstn n (update_at i x l) = firstn n l.
Proof.
  revert n i; induction l as [|a l IH]; intros [|n] [|i] Hi; simpl; try lia; auto.
  f_equal. apply IH. lia.
Qed.

Lemma skipn_update_at_lt n i (x : A) l : i < n -> skipn n (update_at i x l) = skipn n l.
Proof.
  revert n i; induction l as [|a l IH]; intros [|n] [|i] Hi; simpl; try lia; auto.
  apply IH. lia.
Qed.

Lemma skipn_update_at_ge n i (x : A) l : n <= i -> skipn n (update_at i x l) = update_at (i - n) x (skipn n l).
Proof.
  revert n i; induction l as [|a l IH]; intros [|n] [|i] Hi; simpl; try lia; try reflexivity.
  - destruct (i - n); reflexivity.
  - apply IH. lia.
Qed.
Lemma Forall_zipWith (P : A -> Prop) (Q : B -> Prop) (S : C -> Prop) (f : A -> B -> C) l1 l2 :
  Forall P l1 -> Forall Q l2 -> (forall a b, P a -> Q b -> S (f a b)) -> Forall S (zipWith f l1 l2).
Proof.
  intros H1. revert l2; induction H1 as [|a l1 Ha _ IH]; intros [|b l2] H2 Hf; simpl; auto.
  inversion H2; subst. constructor; auto.
Qed.

Lemma Forall_update_at (P : A -> Prop) i x l : Forall P l -> P x -> Forall P (update_at i x l).
Proof.
  intros Hl. revert i; induction Hl as [|a l Ha Hl IH]; intros [|i] Hx; simpl; constructor; auto.
Qed.
End Updates.

(** ** Hints *)

Create HintDb nn.
Create Rewrite HintDb nn_len.
#[export] Hint Rewrite @length_zipWith @length_chunks @length_update_at
  length_map length_app length_seq : nn_len.
#[export] Hint Resolve chunks_lengths : nn.
