(* ===== verification/Scalar.v ===== *)
(** * The numbers of the model

    numpy computes in IEEE doubles; the model is generic in a class
    [Scalar] holding exactly the operations nnScript.py applies to floats:
    + - * / unary minus, [np.exp], [math.sqrt], conversion of a Python int
    ([len(...)], a literal) and the comparison [np.argmax] uses.  The real
    instance [Scalar_R] carries the analytic theorems; the rational instance
    [Scalar_Q] (a truncated series for exp, Newton steps for sqrt) makes every
    definition run by [vm_compute] on small inputs.  Rounding, overflow and
    NaN are not modelled. *)

From Stdlib Require Import List Arith Lia ZArith Reals Lra QArith Qreduction Qround.
From S2P Require Import Prelude.

Class Scalar (K : Type) : Type := {
  s_zero : K;
  s_one : K;
  s_add : K -> K -> K;
  s_sub : K -> K -> K;
  s_mul : K -> K -> K;
  s_div : K -> K -> K;
  s_opp : K -> K;
  s_exp : K -> K;
  s_sqrt : K -> K;
  s_of_nat : nat -> K;
  s_ltb : K -> K -> bool
}.

Declare Scope sc_scope.
Delimit Scope sc_scope with sc.
Infix "+" := s_add : sc_scope.
Infix "-" := s_sub : sc_scope.
Infix "*" := s_mul : sc_scope.
Infix "/" := s_div : sc_scope.
Notation "- x" := (s_opp x) : sc_scope.
Notation "0" := s_zero : sc_scope.
Notation "1" := s_one : sc_scope.

(** ** Real numbers *)

Definition Rltb (x y : R) : bool := if Rlt_dec x y then true else false.

#[export] Instance Scalar_R : Scalar R := {
  s_zero := 0%R;
  s_one := 1%R;
  s_add := Rplus;
  s_sub := Rminus;
  s_mul := Rmult;
  s_div := Rdiv;
  s_opp := Ropp;
  s_exp := exp;
  s_sqrt := sqrt;
  s_of_nat := INR;
  s_ltb := Rltb
}.

(** Replaces the class operations at [R] by the real ones. *)
Ltac sc_R :=
  cbn [s_zero s_one s_add s_sub s_mul s_div s_opp s_exp s_sqrt s_of_nat s_ltb
       Scalar_R] in *.

Lemma Rltb_true x y : Rltb x y = true <-> (x < y)%R.
Proof. unfold Rltb; destruct (Rlt_dec x y); split; congruence || tauto. Qed.

Lemma Rltb_false x y : Rltb x y = false <-> (y <= x)%R.
Proof. unfold Rltb; destruct (Rlt_dec x y); split; intros; lra || congruence. Qed.

Lemma Rltb_irrefl x : Rltb x x = false.
Proof. apply Rltb_false, Rle_refl. Qed.

Lemma Rltb_le_lt x y z : Rltb y x = false -> Rltb y z = true -> Rltb z x = false.
Proof. rewrite !Rltb_false, Rltb_true. lra. Qed.

Lemma Rltb_trans x y z : Rltb x y = true -> Rltb y z = true -> Rltb x z = true.
Proof. rewrite !Rltb_true. lra. Qed.

(** ** Rationals *)

(** [sum_{k <= n} x^k / k!], computed by Horner steps from the last term. *)
Fixpoint Qexp_series (n k : nat) (x : Q) : Q :=
  match n with
  | O => 1
  | S n' => Qred (1 + x / inject_Z (Z.of_nat k) * Qexp_series n' (S k) x)
  end.

(** The series is evaluated at [|x|]; a negative argument takes the
    reciprocal, so that the approximation stays positive. *)
Definition Qexp (x : Q) : Q :=
  if Qle_bool 0 x then Qexp_series 16 1 x else Qred (/ Qexp_series 16 1 (- x)).

Fixpoint Qsqrt_newton (n : nat) (x g : Q) : Q :=
  match n with
  | O => g
  | S n' => Qsqrt_newton n' x (Qred ((g + x / g) / 2))
  end.

Definition Qsqrt (x : Q) : Q := if Qle_bool x 0 then 0 else Qsqrt_newton 5 x (x + 1).

(** Results are rounded down to a multiple of [2^-40], as a double rounds
    to its 53-bit mantissa; this keeps the rationals of a long computation
    small. *)
Definition Qfix (x : Q) : Q := Qred (Qfloor (x * inject_Z (2 ^ 40)) # (2 ^ 40)).

#[export] Instance Scalar_Q : Scalar Q := {
  s_zero := 0%Q;
  s_one := 1%Q;
  s_add := fun x y => Qfix (x + y);
  s_sub := fun x y => Qfix (x - y);
  s_mul := fun x y => Qfix (x * y);
  s_div := fun x y => Qfix (x / y);
  s_opp := Qopp;
  s_exp := fun x => Qfix (Qexp x);
  s_sqrt := fun x => Qfix (Qsqrt x);
  s_of_nat := fun n => inject_Z (Z.of_nat n);
  s_ltb := fun x y => negb (Qle_bool y x)
}.

Lemma Q_ltb_irrefl (x : Q) : s_ltb x x = false.
Proof. cbn [s_ltb Scalar_Q]. rewrite (proj2 (Qle_bool_iff x x) (Qle_refl x)). reflexivity. Qed.

Lemma Q_ltb_le_lt (x y z : Q) : s_ltb y x = false -> s_ltb y z = true -> s_ltb z x = false.
Proof.
  cbn [s_ltb Scalar_Q]. rewrite !negb_false_iff, negb_true_iff, !Qle_bool_iff.
  intros Hxy Hzy. apply (Qle_trans _ y); [exact Hxy|].
  apply Qlt_le_weak, Qnot_le_lt. intros Hle. apply Qle_bool_iff in Hle. congruence.
Qed.

Lemma Q_ltb_true (x y : Q) : s_ltb x y = true <-> (x < y)%Q.
Proof.
  cbn [s_ltb Scalar_Q]. rewrite negb_true_iff. split.
  - intros H. apply Qnot_le_lt. intros Hle. apply Qle_bool_iff in Hle. congruence.
  - intros H. destruct (Qle_bool y x) eqn:E; [|reflexivity].
    apply Qle_bool_iff in E. exfalso. exact (Qlt_not_le _ _ H E).
Qed.

Lemma Q_ltb_trans (x y z : Q) : s_ltb x y = true -> s_ltb y z = true -> s_ltb x z = true.
Proof. rewrite !Q_ltb_true. apply Qlt_trans. Qed.
