(* ===== verification/Matrix.v ===== *)
(** * numpy arrays

    A 2-D numpy array is a [mat]: its shape [(mrows, mcols)] and its rows.
    The shape is kept apart from the rows because numpy checks shapes, not
    data: [np.dot] of a vector with a [(0, n)] array still requires the
    vector to have length 0.  The operations are those nnScript.py applies
    to arrays: [reshape], [flatten], [.T], the two forms of [np.dot],
    [v[:,None]*u], [+], scalar [*] and [/], [**2] with [np.sum], and the
    column selection [w2[:, range(cols-1)]].  Every shape check numpy
    performs returns [Err ValueError]. *)

From Stdlib Require Import List Arith Bool Lia Reals Lra.
From S2P Require Import Prelude Scalar.
Import ListNotations.

Record mat (K : Type) : Type := Mat {
  mrows : nat;
  mcols : nat;
  mdata : list (list K)
}.
Arguments Mat {K} mrows mcols mdata.
Arguments mrows {K} m.
Arguments mcols {K} m.
Arguments mdata {K} m.

(** The shape invariant every array the program builds satisfies. *)
Definition wf_mat {K} (m : mat K) : Prop :=
  length (mdata m) = mrows m /\ Forall (fun r => length r = mcols m) (mdata m).

Definition wf_matb {K} (m : mat K) : bool :=
  Nat.eqb (length (mdata m)) (mrows m)
  && forallb (fun r => Nat.eqb (length r) (mcols m)) (mdata m).

Lemma wf_matb_spec {K} (m : mat K) : wf_matb m = true <-> wf_mat m.
Proof.
  unfold wf_matb, wf_mat. rewrite andb_true_iff, Nat.eqb_eq, forallb_forall, Forall_forall.
  setoid_rewrite Nat.eqb_eq. tauto.
Qed.

Section Ops.
Context {K : Type} `{Scalar K}.
Local Open Scope sc_scope.

(** [np.sum] of a 1-D array. *)
Definition vsum (l : list K) : K := fold_left s_add l 0.

(** [np.dot] of two 1-D arrays of one length. *)
Definition dot (u v : list K) : K :=
  fold_left (fun acc p => acc + fst p * snd p) (combine u v) 0.

(** [params[lo:hi]] with Python's clipping of out-of-range bounds. *)
Definition slice (lo hi : nat) (l : list K) : list K := firstn (hi - lo)%nat (skipn lo l).

(** [a.reshape((r, c))]. *)
Definition reshape (l : list K) (r c : nat) : res (mat K) :=
  if Nat.eqb (length l) (r * c)%nat then Ok (Mat r c (chunks c r l)) else Err ValueError.

(** [a.flatten()]: row-major. *)
Definition flatten (m : mat K) : list K := concat (mdata m).

Definition col (j : nat) (m : mat K) : list K := map (fun r => nth j r 0) (mdata m).

(** [m.T]. *)
Definition transpose (m : mat K) : mat K :=
  Mat (mcols m) (mrows m) (map (fun j => col j m) (seq 0 (mcols m))).

(** [np.dot(a, b)] for a 1-D [a] and a 2-D [b]: [sum_i a[i] * b[i][j]]. *)
Definition vdot (a : list K) (b : mat K) : res (list K) :=
  if Nat.eqb (length a) (mrows b)
  then Ok (map (fun j => dot a (col j b)) (seq 0 (mcols b)))
  else Err ValueError.

(** [np.dot(a, b)] for a 2-D [a] and a 1-D [b]: [sum_j a[i][j] * b[j]]. *)
Definition mdot (a : mat K) (b : list K) : res (list K) :=
  if Nat.eqb (mcols a) (length b)
  then Ok (map (fun r => dot r b) (mdata a))
  else Err ValueError.

(** [u[:,None] * v]. *)
Definition outer (u v : list K) : mat K :=
  Mat (length u) (length v) (map (fun x => map (fun y => x * y) v) u).

(** [a + b] for two arrays of one shape. *)
Definition madd (a b : mat K) : mat K :=
  Mat (mrows a) (mcols a) (zipWith (zipWith s_add) (mdata a) (mdata b)).

(** [s * a]. *)
Definition mscale (s : K) (a : mat K) : mat K :=
  Mat (mrows a) (mcols a) (map (map (fun x => s * x)) (mdata a)).

(** [a / s]. *)
Definition mdiv (a : mat K) (s : K) : mat K :=
  Mat (mrows a) (mcols a) (map (map (fun x => x / s)) (mdata a)).

(** [np.sum(a**2)]. *)
Definition msum_sq (a : mat K) : K := vsum (map (fun x => x * x) (flatten a)).

(** [np.array([[0.0]*c]*r)]. *)
Definition zeros (r c : nat) : mat K := Mat r c (repeat (repeat 0 c) r).

(** [w2[:, [i for i in range(len(w2.T)-1)]]]: every column but the last. *)
Definition drop_last_col (m : mat K) : mat K :=
  Mat (mrows m) (mcols m - 1)%nat (map (firstn (mcols m - 1)%nat) (mdata m)).

(** The gradient accumulators [np.array([[0.0]*c]*r)] (144-145).  For
    [r = 0] numpy builds the 1-D empty array, of shape [(0,)]: an
    accumulator of the model with no rows stands for it.  [a += b] with a
    2-D [b] (171, 176) raises [ValueError] on it (the broadcast result is
    2-D and cannot be written into a 1-D operand); otherwise the shapes
    agree and the sum is elementwise. *)
Definition acc_iadd (a b : mat K) : res (mat K) :=
  if Nat.eqb (mrows a) 0 then Err ValueError else Ok (madd a b).

(** [a + b] (181-182): the 1-D empty array broadcasts against a matrix
    with one column (to an array with no element) and raises [ValueError]
    against any other. *)
Definition acc_add (a b : mat K) : res (mat K) :=
  if Nat.eqb (mrows a) 0 && negb (Nat.eqb (mcols b) 1) then Err ValueError else Ok (madd a b).

Local Close Scope sc_scope.

(** *** Shapes *)

Lemma reshape_Ok l r c m : reshape l r c = Ok m -> length l = r * c /\ m = Mat r c (chunks c r l).
Proof.
  unfold reshape. destruct (Nat.eqb_spec (length l) (r * c)); intros Hm; inv_bind; [auto|discriminate].
Qed.

Lemma reshape_wf l r c m : reshape l r c = Ok m -> wf_mat m.
Proof.
  intros [Hl ->]%reshape_Ok. split; simpl; [apply length_chunks | apply chunks_lengths; lia].
Qed.

Lemma reshape_Err l r c : length l <> r * c -> reshape l r c = Err ValueError.
Proof. unfold reshape; intros Hl; apply Nat.eqb_neq in Hl; rewrite Hl; reflexivity. Qed.

Lemma slice_0_skipn k (l : list K) : slice 0 k l ++ skipn k l = l.
Proof. unfold slice. rewrite Nat.sub_0_r, skipn_O. apply firstn_skipn. Qed.

Lemma slice_0_app (a b : list K) n : length a = n -> slice 0 n (a ++ b) = a.
Proof.
  intros <-. unfold slice. rewrite Nat.sub_0_r, skipn_O, firstn_app, Nat.sub_diag, firstn_all.
  apply app_nil_r.
Qed.

Lemma skipn_app_length (a b : list K) n : length a = n -> skipn n (a ++ b) = b.
Proof. intros <-. rewrite skipn_app, skipn_all, Nat.sub_diag. reflexivity. Qed.

Lemma flatten_reshape l r c m : reshape l r c = Ok m -> flatten m = l.
Proof. intros [Hl ->]%reshape_Ok. apply concat_chunks; exact Hl. Qed.

Lemma length_flatten m : wf_mat m -> length (flatten m) = mrows m * mcols m.
Proof. intros [Hr Hc]. unfold flatten. rewrite (length_concat_uniform _ _ Hc), Hr; reflexivity. Qed.

Lemma reshape_flatten m : wf_mat m -> reshape (flatten m) (mrows m) (mcols m) = Ok m.
Proof.
  intros Hwf. unfold reshape. rewrite length_flatten, Nat.eqb_refl by exact Hwf.
  destruct m as [r c d], Hwf as [Hr Hc]; simpl in *. subst r.
  unfold flatten; simpl. rewrite chunks_concat by exact Hc. reflexivity.
Qed.

Lemma length_col j m : length (col j m) = length (mdata m).
Proof. unfold col; autorewrite with nn_len; reflexivity. Qed.

Lemma transpose_wf m : wf_mat m -> wf_mat (transpose m).
Proof.
  intros [Hr Hc]. split; simpl; autorewrite with nn_len; auto.
  apply Forall_forall; intros x [j [<- _]]%in_map_iff. rewrite length_col; exact Hr.
Qed.

Lemma col_transpose j m :
  wf_mat m -> j < mrows m -> col j (transpose m) = nth j (mdata m) [].
Proof.
  intros [Hr Hc] Hj. unfold col at 1; simpl. rewrite map_map.
  assert (Hrow : length (nth j (mdata m) []) = mcols m).
  { rewrite Forall_forall in Hc. apply Hc, nth_In. lia. }
  transitivity (map (fun i => nth i (nth j (mdata m) []) s_zero) (seq 0 (mcols m))).
  - apply map_ext; intros i. unfold col.
    apply (nth_map_default (fun r => nth i r s_zero)). destruct i; reflexivity.
  - rewrite <- Hrow. apply map_nth_seq.
Qed.

Lemma vdot_transpose a m :
  wf_mat m -> length a = mcols m -> vdot a (transpose m) = Ok (map (fun r => dot a r) (mdata m)).
Proof.
  intros Hwf Ha. unfold vdot; simpl. rewrite Ha, Nat.eqb_refl. f_equal.
  destruct Hwf as [Hr Hc]. rewrite <- Hr.
  transitivity (map (fun j => dot a (nth j (mdata m) [])) (seq 0 (length (mdata m)))).
  - apply map_ext_in; intros j Hj%in_seq. rewrite col_transpose by (first [split; assumption | lia]). reflexivity.
  - rewrite <- (map_map (fun j => nth j (mdata m) []) (dot a)), map_nth_seq. reflexivity.
Qed.

Lemma vdot_length a b v : vdot a b = Ok v -> length v = mcols b.
Proof.
  unfold vdot; destruct (Nat.eqb _ _); intros Hv; inv_bind; [|discriminate].
  autorewrite with nn_len; reflexivity.
Qed.

Lemma mdot_length a b v : mdot a b = Ok v -> length v = length (mdata a).
Proof.
  unfold mdot; destruct (Nat.eqb _ _); intros Hv; inv_bind; [|discriminate].
  autorewrite with nn_len; reflexivity.
Qed.

Lemma outer_wf u v : wf_mat (outer u v).
Proof.
  split; simpl; autorewrite with nn_len; auto.
  apply Forall_forall; intros x [y [<- _]]%in_map_iff; autorewrite with nn_len; reflexivity.
Qed.

Lemma zipWith_rows_uniform n (l1 l2 : list (list K)) :
  Forall (fun r => length r = n) l1 -> Forall (fun r => length r = n) l2 ->
  Forall (fun r => length r = n) (zipWith (zipWith s_add) l1 l2).
Proof.
  intros H1; revert l2; induction H1; intros [|y l2] H2; simpl; constructor;
    inversion H2; subst; auto.
  rewrite length_zipWith; lia.
Qed.

Lemma madd_wf a b :
  wf_mat a -> wf_mat b -> mrows a = mrows b -> mcols a = mcols b -> wf_mat (madd a b).
Proof.
  intros [Ha1 Ha2] [Hb1 Hb2] Hr Hc. split; simpl.
  - rewrite length_zipWith; lia.
  - apply zipWith_rows_uniform; [exact Ha2 | rewrite Hc; exact Hb2].
Qed.

Lemma map_map_wf (f : K -> K) a : wf_mat a -> wf_mat (Mat (mrows a) (mcols a) (map (map f) (mdata a))).
Proof.
  intros [Hr Hc]. split; simpl; autorewrite with nn_len; auto.
  apply Forall_forall; intros x [y [<- Hy]]%in_map_iff.
  rewrite length_map. rewrite Forall_forall in Hc. auto.
Qed.

Lemma mscale_wf s a : wf_mat a -> wf_mat (mscale s a).
Proof. apply map_map_wf. Qed.

Lemma mdiv_wf a s : wf_mat a -> wf_mat (mdiv a s).
Proof. apply map_map_wf. Qed.

Lemma zeros_wf r c : wf_mat (zeros r c).
Proof.
  split; simpl; rewrite ?repeat_length; auto.
  apply Forall_forall; intros x Hx%repeat_spec; subst; apply repeat_length.
Qed.

Lemma drop_last_col_wf m : wf_mat m -> wf_mat (drop_last_col m).
Proof.
  intros [Hr Hc]. split; simpl; autorewrite with nn_len; auto.
  apply Forall_forall; intros x [y [<- Hy]]%in_map_iff.
  rewrite length_firstn. rewrite Forall_forall in Hc. rewrite (Hc y Hy). lia.
Qed.
(** *** Shapes as one predicate *)

Definition has_shape (r c : nat) (m : mat K) : Prop := wf_mat m /\ mrows m = r /\ mcols m = c.

Lemma has_shape_wf r c m : has_shape r c m -> wf_mat m.
Proof. intros [Hwf _]; exact Hwf. Qed.

Lemma reshape_shape l r c m : reshape l r c = Ok m -> has_shape r c m.
Proof. intros Hm. pose proof (reshape_wf _ _ _ _ Hm). apply reshape_Ok in Hm as [_ ->]. split; auto. Qed.

Lemma madd_shape r c a b : has_shape r c a -> has_shape r c b -> has_shape r c (madd a b).
Proof.
  intros (Ha & Hra & Hca) (Hb & Hrb & Hcb). split; [|auto].
  apply madd_wf; auto; congruence.
Qed.

Lemma outer_shape u v : has_shape (length u) (length v) (outer u v).
Proof. split; [apply outer_wf | auto]. Qed.

Lemma mscale_shape r c s a : has_shape r c a -> has_shape r c (mscale s a).
Proof. intros (Ha & Hr & Hc); split; [apply mscale_wf; exact Ha | auto]. Qed.

Lemma mdiv_shape r c s a : has_shape r c a -> has_shape r c (mdiv a s).
Proof. intros (Ha & Hr & Hc); split; [apply mdiv_wf; exact Ha | auto]. Qed.

Lemma zeros_shape r c : has_shape r c (zeros r c).
Proof. split; [apply zeros_wf | auto]. Qed.

Lemma transpose_shape r c m : has_shape r c m -> has_shape c r (transpose m).
Proof. intros (Hm & Hr & Hc); split; [apply transpose_wf; exact Hm | simpl; auto]. Qed.

Lemma drop_last_col_shape r c m : has_shape r c m -> has_shape r (c - 1) (drop_last_col m).
Proof. intros (Hm & Hr & Hc); split; [apply drop_last_col_wf; exact Hm | simpl; auto]. Qed.

Lemma length_flatten_shape r c m : has_shape r c m -> length (flatten m) = r * c.
Proof. intros (Hm & <- & <-). apply length_flatten, Hm. Qed.

Lemma reshape_flatten_shape r c m : has_shape r c m -> reshape (flatten m) r c = Ok m.
Proof. intros (Hw & <- & <-). apply reshape_flatten, Hw. Qed.

Lemma vdot_Ok a b v : vdot a b = Ok v -> length a = mrows b /\ length v = mcols b.
Proof.
  unfold vdot; destruct (Nat.eqb_spec (length a) (mrows b)); intros Hv; inv_bind; [|discriminate].
  split; [auto | autorewrite with nn_len; reflexivity].
Qed.

(** *** Flattening the elementwise operations *)

Lemma flatten_mscale s a : flatten (mscale s a) = map (fun x => (s * x)%sc) (flatten a).
Proof. unfold flatten, mscale; simpl. rewrite concat_map. reflexivity. Qed.

Lemma flatten_mdiv a s : flatten (mdiv a s) = map (fun x => (x / s)%sc) (flatten a).
Proof. unfold flatten, mdiv; simpl. rewrite concat_map. reflexivity. Qed.

Lemma flatten_madd r c a b :
  has_shape r c a -> has_shape r c b ->
  flatten (madd a b) = zipWith s_add (flatten a) (flatten b).
Proof.
  intros ([Ha1 Ha2] & Hra & Hca) ([Hb1 Hb2] & Hrb & Hcb). unfold flatten, madd; simpl.
  assert (Hl : length (mdata a) = length (mdata b)) by congruence.
  rewrite Hca in Ha2. rewrite Hcb in Hb2. clear Ha1 Hb1 Hra Hrb Hca Hcb.
  revert Hl Ha2 Hb2. generalize (mdata a) (mdata b). clear a b.
  induction l as [|x l IH]; intros [|y l'] Hl Hx Hy; simpl in *; try lia; auto.
  inversion Hx; inversion Hy; subst.
  rewrite zipWith_app by congruence. f_equal. apply IH; auto.
Qed.

Lemma acc_iadd_Ok a b : mrows a <> 0 -> acc_iadd a b = Ok (madd a b).
Proof. unfold acc_iadd. intros Ha. apply Nat.eqb_neq in Ha. rewrite Ha. reflexivity. Qed.

Lemma acc_add_Ok a b : mrows a <> 0 \/ mcols b = 1 -> acc_add a b = Ok (madd a b).
Proof.
  unfold acc_add. intros [Ha|Hb]; [apply Nat.eqb_neq in Ha; rewrite Ha | rewrite Hb, andb_false_r]; reflexivity.
Qed.

Lemma acc_iadd_inv a b c : acc_iadd a b = Ok c -> c = madd a b /\ mrows a <> 0.
Proof.
  unfold acc_iadd. destruct (Nat.eqb_spec (mrows a) 0); [discriminate|]. intros [= <-]. auto.
Qed.

Lemma acc_add_inv a b c : acc_add a b = Ok c -> c = madd a b.
Proof. unfold acc_add. destruct (_ && _); [discriminate|]. intros [= <-]. reflexivity. Qed.

(** Whether [+] raises depends only on the number of columns of its right operand. *)
Lemma acc_add_same_cols a b b' c : acc_add a b = Ok c -> mcols b' = mcols b -> acc_add a b' = Ok (madd a b').
Proof. unfold acc_add; intros Hab ->. destruct (_ && _); [discriminate | reflexivity]. Qed.

Lemma acc_add_Err a b : mrows a = 0 -> mcols b <> 1 -> acc_add a b = Err ValueError.
Proof. unfold acc_add. intros -> Hb. apply Nat.eqb_neq in Hb. rewrite Hb. reflexivity. Qed.
End Ops.

#[export] Hint Resolve reshape_wf transpose_wf outer_wf mscale_wf mdiv_wf zeros_wf
  drop_last_col_wf madd_shape outer_shape mscale_shape mdiv_shape zeros_shape
  transpose_shape drop_last_col_shape has_shape_wf : nn.
