(* ===== verification/Sigmoid.v ===== *)
(** * The activation function

    [sigmoid] is nnScript.py:25-30, [1 / (1 + np.exp(-z))], generic in the
    scalar type and applied elementwise with [map] where the code applies it
    to an array.  Over the reals: it lies in (0, 1), it is strictly
    increasing, it is 1/2 at 0, it satisfies [sigmoid (-z) = 1 - sigmoid z],
    and its derivative is [sigmoid z * (1 - sigmoid z)], the factor the
    backpropagation code writes as [(1-z2)*(z2)] and [(1-z1)*(z1)]. *)

From Stdlib Require Import Reals Lra.
From S2P Require Import Prelude Scalar.

Definition sigmoid {K} `{Scalar K} (z : K) : K := (1 / (1 + s_exp (- z)))%sc.

Section Real.
Local Open Scope R_scope.

Lemma sigmoid_R z : sigmoid z = / (1 + exp (- z)).
Proof. unfold sigmoid; sc_R. unfold Rdiv. ring. Qed.

Lemma sigmoid_denom_pos z : 0 < 1 + exp (- z).
Proof. pose proof (exp_pos (- z)); lra. Qed.

Lemma sigmoid_pos z : 0 < sigmoid z.
Proof. rewrite sigmoid_R. apply Rinv_0_lt_compat, sigmoid_denom_pos. Qed.

Lemma sigmoid_lt_1 z : sigmoid z < 1.
Proof.
  rewrite sigmoid_R. pose proof (exp_pos (- z)).
  rewrite <- Rinv_1. apply Rinv_lt_contravar; lra.
Qed.

(** C10: sigmoid is strictly increasing. *)
Theorem sigmoid_increasing (x y : R) : x < y -> sigmoid x < sigmoid y.
Proof.
  intros Hxy. rewrite !sigmoid_R.
  assert (exp (- y) < exp (- x)) by (apply exp_increasing; lra).
  pose proof (exp_pos (- y)).
  apply Rinv_lt_contravar; [apply Rmult_lt_0_compat|]; lra.
Qed.

Lemma sigmoid_0 : sigmoid 0 = / 2.
Proof. rewrite sigmoid_R, Ropp_0, exp_0. reflexivity. Qed.

Lemma sigmoid_opp z : sigmoid (- z) = 1 - sigmoid z.
Proof.
  rewrite !sigmoid_R, Ropp_involutive, exp_Ropp.
  pose proof (exp_pos z). field. split; lra.
Qed.

Lemma sigmoid_deriv (z : R) :
  derivable_pt_lim (fun t => sigmoid t) z (sigmoid z * (1 - sigmoid z)).
Proof.
  apply derivable_pt_lim_ext with (f := (fct_cte 1 / (fct_cte 1 + comp exp (- id)))%F).
  { intros t. rewrite sigmoid_R. unfold div_fct, plus_fct, fct_cte, comp, opp_fct, id. field.
    apply Rgt_not_eq, sigmoid_denom_pos. }
  replace (sigmoid z * (1 - sigmoid z))
    with ((0 * (fct_cte 1 + comp exp (- id))%F z - (0 + exp (- z) * - (1)) * fct_cte 1 z)
          / ((fct_cte 1 + comp exp (- id))%F z)²).
  2:{ rewrite <- sigmoid_opp, !sigmoid_R, Ropp_involutive.
      unfold plus_fct, fct_cte, comp, opp_fct, id, Rsqr.
      pose proof (sigmoid_denom_pos z). pose proof (exp_pos z). rewrite exp_Ropp in *.
      field. split; apply Rgt_not_eq; lra. }
  apply derivable_pt_lim_div.
  - apply derivable_pt_lim_const.
  - apply derivable_pt_lim_plus; [apply derivable_pt_lim_const|].
    apply derivable_pt_lim_comp; [apply derivable_pt_lim_opp, derivable_pt_lim_id|].
    apply derivable_pt_lim_exp.
  - unfold plus_fct, fct_cte, comp, opp_fct, id. apply Rgt_not_eq, sigmoid_denom_pos.
Qed.

(** C11: sigmoid is differentiable everywhere and its derivative is
    [sigmoid z * (1 - sigmoid z)], the factor lines 168 and 174 use; the
    derivative lies in (0, 1/4]. *)
Theorem sigmoid_derivative (z : R) :
  derivable_pt_lim (fun t => sigmoid t) z (sigmoid z * (1 - sigmoid z)) /\
  0 < sigmoid z * (1 - sigmoid z) <= / 4.
Proof.
  split; [apply sigmoid_deriv|]. rewrite <- sigmoid_opp, !sigmoid_R, Ropp_involutive.
  pose proof (sigmoid_denom_pos z). pose proof (sigmoid_denom_pos (- z)). rewrite Ropp_involutive in *.
  split; [apply Rmult_lt_0_compat; apply Rinv_0_lt_compat; assumption|].
  rewrite <- Rinv_mult. apply Rinv_le_contravar; [lra|].
  rewrite exp_Ropp. pose proof (exp_pos z) as Ha. set (a := exp z) in *.
  replace ((1 + / a) * (1 + a)) with (2 + a + / a) by (field; lra).
  assert (Hsq : 0 <= (a - 1) * (a - 1) * / a)
    by (apply Rmult_le_pos; [apply Rle_0_sqr | left; apply Rinv_0_lt_compat, Ha]).
  replace ((a - 1) * (a - 1) * / a) with (a + / a - 2) in Hsq by (field; lra). lra.
Qed.

Lemma sigmoid_increasing_witness : sigmoid 0 < sigmoid 1.
Proof. apply (sigmoid_increasing 0 1). lra. Defined.
End Real.
