(* ===== verification/Objective.v ===== *)
(** * The objective and its gradient: [nnObjFunction] (nnScript.py:99-194)

    [nnObjFunction params args] unpacks [args] (137), reshapes the parameter
    vector into [w1] and [w2] (139-140), zeroes the two gradient
    accumulators (141-145), takes every column of [w2] but the bias column
    (147-148), runs the per-example loop (150-179) and finalises (181-194).

    The loop state is the record [acc] of [obj_val], [grad_w1] and [grad_w2];
    [example_step] is one iteration of the loop body with every statement of
    151-179 in order, [train_loop] the [for] loop over
    [range(len(training_data))], [finalize] lines 181-189.  Python exceptions
    are [Err]: a row of the wrong width is a [ValueError] of [np.dot], a
    missing label ([training_label[i]]) or a label outside
    [-n_class .. n_class-1] ([y[int(label)] = 1]) an [IndexError], a
    parameter vector of the wrong length a [ValueError] of [reshape], an
    empty training set the [ZeroDivisionError] of [obj_val/(2*0)] (the
    accumulator is still the Python int 0 then).

    Labels are modelled as integers ([Z]); the code stores them in a float
    array and truncates them with [int(label)], which is the identity on the
    integral values the data provider supplies.

    [np.array([[0.0]*c]*0)] is numpy's 1-D empty array, not a (0, c)
    matrix: with [n_hidden = 0] or [n_class = 0] an accumulator is that
    array.  The model keeps its [zeros 0 c] and writes the two additions
    that see the difference as [acc_iadd] (the in-place [+=] of lines 171
    and 176, which raises [ValueError] on it) and [acc_add] (the [+] of
    lines 181-182, which broadcasts it against a one-column matrix only).
    So a well-formed, non-empty training set with [n_hidden = 0] raises at
    line 176, and an empty one raises at line 181 or 182 before the
    division by zero of line 184 ([nnObjFunction_errors]). *)

From Stdlib Require Import List Arith Bool Lia ZArith Reals Lra.
From S2P Require Import Prelude Scalar Matrix Sigmoid.
Import ListNotations.

(** The [args] tuple of line 137. *)
Record nn_args (K : Type) : Type := NnArgs {
  n_input : nat;
  n_hidden : nat;
  n_class : nat;
  training_data : list (list K);
  training_label : list Z;
  lambdaval : K
}.
Arguments NnArgs {K}.
Arguments n_input {K} _.
Arguments n_hidden {K} _.
Arguments n_class {K} _.
Arguments training_data {K} _.
Arguments training_label {K} _.
Arguments lambdaval {K} _.

(** The variables the loop of lines 150-179 updates. *)
Record acc (K : Type) : Type := Acc {
  obj_val : K;
  grad_w1 : mat K;
  grad_w2 : mat K
}.
Arguments Acc {K}.
Arguments obj_val {K} _.
Arguments grad_w1 {K} _.
Arguments grad_w2 {K} _.

Section Engine.
Context {K : Type} `{Scalar K}.
Local Open Scope nn_scope.
Local Open Scope sc_scope.

(** Python's index normalisation for a list of length [n]: [None] is the
    [IndexError] of an index outside [-n .. n-1]. *)
Definition py_index (n : nat) (i : Z) : option nat :=
  if orb (i <? - Z.of_nat n)%Z (Z.of_nat n <=? i)%Z then None
  else if (i <? 0)%Z then Some (Z.to_nat (i + Z.of_nat n)) else Some (Z.to_nat i).

(** Lines 160-162: [y = np.array([0]*n_class); y[int(label)] = 1]. *)
Definition one_hot (n_class : nat) (label : Z) : res (list K) :=
  match py_index n_class label with
  | Some i => Ok (update_at i 1 (repeat 0 n_class))
  | None => Err IndexError
  end.

(** [training_label[i]]. *)
Definition label_at (labels : list Z) (i : nat) : res Z :=
  match nth_error labels i with
  | Some l => Ok l
  | None => Err IndexError
  end.

(** Lines 160-162: the one-hot target of example [i]. *)
Definition target (n_class : nat) (labels : list Z) (i : nat) : res (list K) :=
  label <- label_at labels i ;;
  one_hot n_class label.

(** One iteration of the loop body, lines 151-179, on example [i]. *)
Definition example_step (n_class : nat) (labels : list Z) (w1 w2 w2_temp : mat K)
    (i : nat) (row : list K) (st : acc K) : res (acc K) :=
  let value := row ++ [1] in
  a1 <- vdot value (transpose w1) ;;
  let z1 := map sigmoid a1 in
  let z1_bias := z1 ++ [1] in
  a2 <- vdot z1_bias (transpose w2) ;;
  let z2 := map sigmoid a2 in
  y <- target n_class labels i ;;
  let error := map (fun d => d * d) (zipWith s_sub y z2) in
  let obj := obj_val st + vsum error in
  let dell_L := zipWith s_mul (zipWith s_mul (zipWith s_sub y z2) (map (fun z => 1 - z) z2)) z2 in
  let grad_w2_temp := outer (map (fun d => s_opp 1 * d) dell_L) z1_bias in
  grad_w2 <- acc_iadd (grad_w2 st) grad_w2_temp ;;
  let part1 := zipWith s_mul (map (fun z => 1 - z) z1) z1 in
  d <- vdot dell_L w2_temp ;;
  let part2 := map (fun x => s_opp 1 * x) d in
  let part3 := zipWith s_mul part1 part2 in
  let grad_w1_temp := outer part3 value in
  grad_w1 <- acc_iadd (grad_w1 st) grad_w1_temp ;;
  Ok (Acc obj grad_w1 grad_w2).

(** Line 150: [for i in range(len(training_data))], from index [i]. *)
Fixpoint train_loop (n_class : nat) (labels : list Z) (w1 w2 w2_temp : mat K)
    (i : nat) (rows : list (list K)) (st : acc K) : res (acc K) :=
  match rows with
  | [] => Ok st
  | row :: rows' =>
      st' <- example_step n_class labels w1 w2 w2_temp i row st ;;
      train_loop n_class labels w1 w2 w2_temp (S i) rows' st'
  end.

(** Lines 181-189, with [N = len(training_data)]. *)
Definition finalize (lambdaval : K) (w1 w2 : mat K) (N : nat) (st : acc K) : res (K * list K) :=
  g2 <- acc_add (grad_w2 st) (mscale lambdaval w2) ;;
  let grad_w2' := mdiv g2 (s_of_nat N) in
  g1 <- acc_add (grad_w1 st) (mscale lambdaval w1) ;;
  let grad_w1' := mdiv g1 (s_of_nat N) in
  if Nat.eqb N 0 then Err ZeroDivisionError else
  let obj := obj_val st / s_of_nat (2 * N)%nat in
  let obj := obj + (msum_sq w1 + msum_sq w2) * (lambdaval / s_of_nat N) in
  Ok (obj, flatten grad_w1' ++ flatten grad_w2').

(** The whole function, lines 137-194. *)
Definition nnObjFunction (params : list K) (args : nn_args K) : res (K * list K) :=
  let n_input := n_input args in
  let n_hidden := n_hidden args in
  let n_class := n_class args in
  w1 <- reshape (slice 0 (n_hidden * (n_input + 1))%nat params) n_hidden (n_input + 1)%nat ;;
  w2 <- reshape (skipn (n_hidden * (n_input + 1))%nat params) n_class (n_hidden + 1)%nat ;;
  let grad_w2 := zeros n_class (n_hidden + 1)%nat in
  let grad_w1 := zeros n_hidden (n_input + 1)%nat in
  let w2_temp := drop_last_col w2 in
  st <- train_loop n_class (training_label args) w1 w2 w2_temp 0 (training_data args)
          (Acc 0 grad_w1 grad_w2) ;;
  finalize (lambdaval args) w1 w2 (length (training_data args)) st.

(** The number of parameters: [n_hidden*(n_input+1) + n_class*(n_hidden+1)]. *)
Definition n_params (n_input n_hidden n_class : nat) : nat :=
  (n_hidden * (n_input + 1) + n_class * (n_hidden + 1))%nat.
End Engine.

(** ** Shapes *)

Section Shapes.
Context {K : Type} `{Scalar K}.

(** The invariant of the loop: both accumulators keep the shapes of
    [w1] and [w2]. *)
Definition acc_shape (ni nh nc : nat) (st : acc K) : Prop :=
  has_shape nh (ni + 1) (grad_w1 st) /\ has_shape nc (nh + 1) (grad_w2 st).

Lemma acc_shape_init ni nh nc : acc_shape ni nh nc (Acc s_zero (zeros nh (ni + 1)) (zeros nc (nh + 1))).
Proof. split; apply zeros_shape. Qed.

Lemma one_hot_length n l (y : list K) : one_hot n l = Ok y -> length y = n.
Proof.
  unfold one_hot. destruct (py_index n l); intros Hy; inv_bind; [|discriminate].
  rewrite length_update_at, repeat_length. reflexivity.
Qed.

Lemma target_length n labels i (y : list K) : target n labels i = Ok y -> length y = n.
Proof. unfold target; intros Hy; inv_bind. eapply one_hot_length; eauto. Qed.

Lemma length_slice_0 k (l : list K) : length l = length (slice 0 k l) + length (skipn k l).
Proof. rewrite <- length_app, slice_0_skipn. reflexivity. Qed.

Lemma example_step_shape ni nh nc labels w1 w2 i row st st' :
  has_shape nh (ni + 1) w1 -> has_shape nc (nh + 1) w2 ->
  acc_shape ni nh nc st ->
  example_step nc labels w1 w2 (drop_last_col w2) i row st = Ok st' ->
  acc_shape ni nh nc st'.
Proof.
  intros Hw1 Hw2 [Hg1 Hg2] Hstep. unfold example_step in Hstep. inv_bind.
  apply vdot_Ok in Ha as [Hv La1]. apply vdot_Ok in Ha0 as [Hz La2]. apply target_length in Ha1.
  apply acc_iadd_inv in Ha2 as [-> _]. apply vdot_Ok in Ha3 as [Hd Ld]. apply acc_iadd_inv in Ha4 as [-> _].
  pose proof (transpose_shape _ _ _ Hw1) as (_ & Hr1 & Hc1).
  pose proof (transpose_shape _ _ _ Hw2) as (_ & Hr2 & Hc2).
  pose proof (drop_last_col_shape _ _ _ Hw2) as (_ & _ & Hc3).
  split; simpl.
  - apply madd_shape; [exact Hg1|].
    match goal with |- has_shape _ _ (outer ?u ?v) =>
      replace nh with (length u); [replace (ni + 1) with (length v)|]; [apply outer_shape| |] end.
    + autorewrite with nn_len in *. simpl in *. lia.
    + autorewrite with nn_len in *. lia.
  - apply madd_shape; [exact Hg2|].
    match goal with |- has_shape _ _ (outer ?u ?v) =>
      replace nc with (length u); [replace (nh + 1) with (length v)|]; [apply outer_shape| |] end.
    + autorewrite with nn_len in *. simpl in *. lia.
    + autorewrite with nn_len in *. simpl in *. lia.
Qed.

(** The invariant holds after any number of iterations. *)
Lemma train_loop_shape ni nh nc labels w1 w2 rows : forall i st st',
  has_shape nh (ni + 1) w1 -> has_shape nc (nh + 1) w2 ->
  acc_shape ni nh nc st ->
  train_loop nc labels w1 w2 (drop_last_col w2) i rows st = Ok st' ->
  acc_shape ni nh nc st'.
Proof.
  induction rows as [|row rows IH]; simpl; intros i st st' Hw1 Hw2 Hst Hloop; inv_bind; auto.
  eapply IH; [exact Hw1 | exact Hw2 | | exact Hloop].
  eapply example_step_shape; eauto.
Qed.

(** C5: the shapes of the gradient accumulators are an invariant of the
    loop: every iteration of the body (151-179) and hence the whole loop
    keep [grad_w1] of shape [(n_hidden, n_input+1)] and [grad_w2] of shape
    [(n_class, n_hidden+1)], so the in-place additions never broadcast. *)
Theorem acc_shape_invariant ni nh nc labels (w1 w2 : mat K) :
  has_shape nh (ni + 1) w1 -> has_shape nc (nh + 1) w2 ->
  (forall i row st st', acc_shape ni nh nc st ->
     example_step nc labels w1 w2 (drop_last_col w2) i row st = Ok st' -> acc_shape ni nh nc st') /\
  (forall rows i st st', acc_shape ni nh nc st ->
     train_loop nc labels w1 w2 (drop_last_col w2) i rows st = Ok st' -> acc_shape ni nh nc st').
Proof.
  intros Hw1 Hw2. split.
  - intros i row st st'. apply example_step_shape; assumption.
  - intros rows i st st'. apply train_loop_shape; assumption.
Qed.
End Shapes.

(** ** When the engine returns a result *)

Section Errors.
Context {K : Type} `{Scalar K}.
Local Open Scope nn_scope.

(** A label [y[int(label)] = 1] accepts: Python's index range. *)
Definition label_ok (nc : nat) (l : Z) : Prop := (- Z.of_nat nc <= l < Z.of_nat nc)%Z.

Lemma py_index_Some n l : (exists i, py_index n l = Some i) <-> label_ok n l.
Proof.
  unfold py_index, label_ok.
  destruct (Z.ltb_spec l (- Z.of_nat n)), (Z.leb_spec (Z.of_nat n) l); simpl;
    [split; [intros [i Hi]; discriminate | lia] ..|].
  split; [lia|]. destruct (l <? 0)%Z; eauto.
Qed.

Lemma one_hot_Ok n l : (exists y : list K, one_hot n l = Ok y) <-> label_ok n l.
Proof.
  rewrite <- py_index_Some. unfold one_hot.
  destruct (py_index n l); split; intros [x Hx]; try discriminate; eauto.
Qed.

Lemma target_Ok_inv nc labels i (y : list K) :
  target nc labels i = Ok y -> exists l, nth_error labels i = Some l /\ label_ok nc l.
Proof.
  unfold target, label_at. destruct (nth_error labels i) as [l|]; cbn [bind]; [|discriminate].
  intros Hy. exists l. split; [reflexivity|]. apply one_hot_Ok. eauto.
Qed.

(** A processed example had a row of [n_input] features and a label in
    range, and its accumulator [grad_w1] was not the 1-D empty array. *)
Lemma example_step_Ok_inv ni nh nc labels w1 w2 i row st st' :
  has_shape nh (ni + 1) w1 ->
  example_step nc labels w1 w2 (drop_last_col w2) i row st = Ok st' ->
  length row = ni /\ (exists l, nth_error labels i = Some l /\ label_ok nc l) /\ mrows (grad_w1 st) <> 0.
Proof.
  intros Hw1 Hstep. pose proof (transpose_shape _ _ _ Hw1) as (_ & Hr1 & _).
  unfold example_step in Hstep. inv_bind.
  apply vdot_Ok in Ha as [Hv _]. apply acc_iadd_inv in Ha4 as [_ Hg1].
  rewrite length_app, Hr1 in Hv. simpl in Hv. split; [lia|]. split; [|exact Hg1].
  exact (target_Ok_inv _ _ _ _ Ha1).
Qed.

(** With a row of [n_input] features and a label in range, everything up
    to line 176 succeeds: what is left is the in-place addition into
    [grad_w1]. *)
Lemma example_step_valid ni nh nc labels w1 w2 i row st l :
  has_shape nh (ni + 1) w1 -> has_shape nc (nh + 1) w2 -> acc_shape ni nh nc st ->
  length row = ni -> nth_error labels i = Some l -> label_ok nc l ->
  exists obj T1 T2, example_step nc labels w1 w2 (drop_last_col w2) i row st =
    (g1 <- acc_iadd (grad_w1 st) T1 ;; Ok (Acc obj g1 (madd (grad_w2 st) T2))).
Proof.
  intros Hw1 Hw2 [_ ((_ & _) & Hg2r & _)] Hrow Hl Hok.
  pose proof (transpose_shape _ _ _ Hw1) as (Ht1 & Hr1 & Hc1).
  pose proof (transpose_shape _ _ _ Hw2) as (Ht2 & Hr2 & Hc2).
  pose proof (drop_last_col_shape _ _ _ Hw2) as (_ & Hr3 & _).
  assert (Hnc : nc <> 0) by (unfold label_ok in Hok; lia).
  unfold example_step, vdot at 1. rewrite Hr1, length_app, Nat.add_1_r, Nat.add_1_r, Hrow, Nat.eqb_refl.
  cbn [bind]. unfold vdot at 1.
  rewrite Hr2, length_app, length_map, length_map, length_seq, Hc1, Nat.eqb_refl. cbn [bind].
  unfold target, label_at. rewrite Hl. cbn [bind].
  destruct (proj2 (one_hot_Ok nc l) Hok) as [y Hy]. rewrite Hy. cbn [bind].
  rewrite (acc_iadd_Ok (grad_w2 st)) by (rewrite Hg2r; exact Hnc). cbn [bind].
  apply one_hot_length in Hy as Hyl. unfold vdot. rewrite Hr3.
  rewrite !length_zipWith, !length_map, length_seq, Hyl, Hc2, !Nat.min_id, Nat.eqb_refl.
  cbn [bind]. do 3 eexists. reflexivity.
Qed.

(** One example is processed exactly when its row has [n_input] features
    and its label exists and is in range, given [n_hidden <> 0]. *)
Lemma example_step_Ok_iff ni nh nc labels w1 w2 i row st :
  has_shape nh (ni + 1) w1 -> has_shape nc (nh + 1) w2 -> acc_shape ni nh nc st -> nh <> 0 ->
  (exists st', example_step nc labels w1 w2 (drop_last_col w2) i row st = Ok st') <->
  (length row = ni /\ exists l, nth_error labels i = Some l /\ label_ok nc l).
Proof.
  intros Hw1 Hw2 Hst Hnh. split.
  - intros [st' Hs]. destruct (example_step_Ok_inv _ _ _ _ _ _ _ _ _ _ Hw1 Hs) as (Hr & Hl & _). auto.
  - intros [Hrow (l & Hl & Hok)].
    destruct (example_step_valid _ _ _ _ _ _ _ _ _ _ Hw1 Hw2 Hst Hrow Hl Hok) as (obj & T1 & T2 & ->).
    destruct Hst as [((_ & _) & Hg1r & _) _].
    rewrite acc_iadd_Ok by (rewrite Hg1r; exact Hnh). eexists. reflexivity.
Qed.

(** With [n_hidden = 0], [grad_w1] is the 1-D empty array and the first
    example that reaches line 176 raises [ValueError]. *)
Lemma example_step_hidden0 ni nc labels w1 w2 i row st l :
  has_shape 0 (ni + 1) w1 -> has_shape nc (0 + 1) w2 -> acc_shape ni 0 nc st ->
  length row = ni -> nth_error labels i = Some l -> label_ok nc l ->
  example_step nc labels w1 w2 (drop_last_col w2) i row st = Err ValueError.
Proof.
  intros Hw1 Hw2 Hst Hrow Hl Hok.
  destruct (example_step_valid _ _ _ _ _ _ _ _ _ _ Hw1 Hw2 Hst Hrow Hl Hok) as (obj & T1 & T2 & ->).
  destruct Hst as [((_ & _) & Hg1r & _) _]. unfold acc_iadd. rewrite Hg1r. reflexivity.
Qed.
Definition labels_ok (nc : nat) (labels : list Z) (i n : nat) : Prop :=
  forall k, k < n -> exists l, nth_error labels (i + k) = Some l /\ label_ok nc l.

Lemma labels_ok_cons nc labels i n :
  labels_ok nc labels i (S n) <->
  (exists l, nth_error labels i = Some l /\ label_ok nc l) /\ labels_ok nc labels (S i) n.
Proof.
  unfold labels_ok. split.
  - intros Hk. split; [rewrite <- (Nat.add_0_r i); apply Hk; lia|].
    intros k Hk'. replace (S i + k) with (i + S k) by lia. apply Hk; lia.
  - intros [H0 Hk] [|k] Hlt; [rewrite Nat.add_0_r; exact H0|].
    replace (i + S k) with (S i + k) by lia. apply Hk; lia.
Qed.

(** At least one class when a label has been checked. *)
Lemma labels_ok_class nc labels n : n <> 0 -> labels_ok nc labels 0 n -> nc <> 0.
Proof.
  intros Hn Hlab. destruct (Hlab 0 ltac:(lia)) as (l & _ & Hok). unfold label_ok in Hok. lia.
Qed.

(** The loop runs to its end exactly when every row it reaches has
    [n_input] features and every label it reads exists and is in range. *)
Lemma train_loop_Ok_iff ni nh nc labels w1 w2 rows : forall i st,
  has_shape nh (ni + 1) w1 -> has_shape nc (nh + 1) w2 -> acc_shape ni nh nc st -> nh <> 0 ->
  (exists st', train_loop nc labels w1 w2 (drop_last_col w2) i rows st = Ok st') <->
  (Forall (fun r => length r = ni) rows /\ labels_ok nc labels i (length rows)).
Proof.
  induction rows as [|row rows IH]; intros i st Hw1 Hw2 Hst Hnh; simpl.
  - split; [intros _; split; [constructor | intros k Hk; simpl in Hk; lia] | eauto].
  - rewrite Forall_cons_iff, labels_ok_cons.
    pose proof (example_step_Ok_iff ni nh nc labels w1 w2 i row st Hw1 Hw2 Hst Hnh) as Hstep.
    destruct (example_step nc labels w1 w2 (drop_last_col w2) i row st) as [st1|e] eqn:E; cbn [bind].
    + rewrite (IH (S i) st1 Hw1 Hw2 (example_step_shape _ _ _ _ _ _ _ _ _ _ Hw1 Hw2 Hst E) Hnh).
      assert (Hs : length row = ni /\ exists l, nth_error labels i = Some l /\ label_ok nc l)
        by (apply Hstep; eauto).
      tauto.
    + split; [intros [st' Hs]; discriminate|].
      intros [[Hr _] [Hl _]]. destruct (proj2 Hstep (conj Hr Hl)) as [st' Hs]; discriminate.
Qed.

(** With [n_hidden = 0] a loop over a non-empty, well-formed set raises
    [ValueError] at its first example. *)
Lemma train_loop_hidden0 ni nc labels w1 w2 row rows i st :
  has_shape 0 (ni + 1) w1 -> has_shape nc (0 + 1) w2 -> acc_shape ni 0 nc st ->
  Forall (fun r => length r = ni) (row :: rows) -> labels_ok nc labels i (length (row :: rows)) ->
  train_loop nc labels w1 w2 (drop_last_col w2) i (row :: rows) st = Err ValueError.
Proof.
  intros Hw1 Hw2 Hst Hrows Hlab. apply Forall_cons_iff in Hrows as [Hrow _].
  apply labels_ok_cons in Hlab as [(l & Hl & Hok) _]. simpl.
  rewrite (example_step_hidden0 _ _ _ _ _ _ _ _ _ Hw1 Hw2 Hst Hrow Hl Hok). reflexivity.
Qed.
End Errors.

(** ** The whole function: results and errors *)

Section Whole.
Context {K : Type} `{Scalar K}.
Local Open Scope nn_scope.

Lemma length_slice_le k (params : list K) : length (slice 0 k params) = Nat.min k (length params).
Proof. unfold slice. rewrite Nat.sub_0_r, skipn_O, length_firstn. reflexivity. Qed.

(** A parameter vector of the right length splits into [w1] and [w2],
    which flatten back to it. *)
Lemma reshape_params ni nh nc (params : list K) :
  length params = n_params ni nh nc ->
  exists w1 w2,
    reshape (slice 0 (nh * (ni + 1)) params) nh (ni + 1) = Ok w1 /\
    reshape (skipn (nh * (ni + 1)) params) nc (nh + 1) = Ok w2 /\
    flatten w1 ++ flatten w2 = params.
Proof.
  unfold n_params, reshape. intros Hl.
  rewrite length_slice_le, length_skipn, Nat.min_l by lia.
  rewrite Nat.eqb_refl. replace (length params - _) with (nc * (nh + 1)) by lia.
  rewrite Nat.eqb_refl. do 2 eexists; split; [reflexivity | split; [reflexivity|]].
  unfold flatten; simpl.
  rewrite !concat_chunks by (rewrite ?length_slice_le, ?length_skipn; lia).
  apply slice_0_skipn.
Qed.

Lemma reshape_params_Err ni nh nc (params : list K) (k : mat K -> mat K -> res (K * list K)) :
  length params <> n_params ni nh nc ->
  (w1 <- reshape (slice 0 (nh * (ni + 1)) params) nh (ni + 1) ;;
   w2 <- reshape (skipn (nh * (ni + 1)) params) nc (nh + 1) ;; k w1 w2) = Err ValueError.
Proof.
  unfold n_params; intros Hl.
  destruct (Nat.le_gt_cases (nh * (ni + 1)) (length params)) as [Hle|Hgt].
  - unfold reshape at 1; rewrite length_slice_le, Nat.min_l, Nat.eqb_refl by lia; cbn [bind].
    rewrite reshape_Err by (rewrite length_skipn; lia). reflexivity.
  - rewrite reshape_Err by (rewrite length_slice_le; lia). reflexivity.
Qed.
(** [finalize] keeps the shapes: its gradient has as many entries as
    [w1] and [w2] together. *)
Lemma finalize_length ni nh nc lam (w1 w2 : mat K) N st v g :
  has_shape nh (ni + 1) w1 -> has_shape nc (nh + 1) w2 -> acc_shape ni nh nc st ->
  finalize lam w1 w2 N st = Ok (v, g) ->
  length g = length (flatten w1) + length (flatten w2).
Proof.
  intros Hw1 Hw2 [Hg1 Hg2] Hfin. unfold finalize in Hfin. inv_bind.
  apply acc_add_inv in Ha as ->. apply acc_add_inv in Ha0 as ->.
  destruct (Nat.eqb N 0); [discriminate|]. injection Hfin as _ <-.
  rewrite length_app, (length_flatten_shape _ _ _ Hw1), (length_flatten_shape _ _ _ Hw2).
  rewrite (length_flatten_shape nh (ni + 1)), (length_flatten_shape nc (nh + 1)); eauto with nn.
Qed.

(** [finalize] returns only when it divides by a non-zero [N]. *)
Lemma finalize_Ok_N lam (w1 w2 : mat K) N st r : finalize lam w1 w2 N st = Ok r -> N <> 0.
Proof.
  unfold finalize; intros Hfin; inv_bind. destruct (Nat.eqb_spec N 0); [discriminate | assumption].
Qed.

(** With both accumulators two-dimensional ([n_hidden], [n_class] not
    zero), lines 181-189 return for every [N <> 0]. *)
Lemma finalize_eq ni nh nc lam (w1 w2 : mat K) N st :
  acc_shape ni nh nc st -> nh <> 0 -> nc <> 0 -> N <> 0 ->
  finalize lam w1 w2 N st =
  Ok ((obj_val st / s_of_nat (2 * N) + (msum_sq w1 + msum_sq w2) * (lam / s_of_nat N))%sc,
      flatten (mdiv (madd (grad_w1 st) (mscale lam w1)) (s_of_nat N)) ++
      flatten (mdiv (madd (grad_w2 st) (mscale lam w2)) (s_of_nat N))).
Proof.
  intros [((_ & _) & Hg1r & _) ((_ & _) & Hg2r & _)] Hnh Hnc HN. unfold finalize.
  rewrite acc_add_Ok by (left; rewrite Hg2r; exact Hnc). cbn [bind].
  rewrite acc_add_Ok by (left; rewrite Hg1r; exact Hnh). cbn [bind].
  destruct (Nat.eqb_spec N 0); [contradiction | reflexivity].
Qed.

Lemma finalize_Ok ni nh nc lam (w1 w2 : mat K) N st :
  acc_shape ni nh nc st -> nh <> 0 -> nc <> 0 -> N <> 0 -> exists r, finalize lam w1 w2 N st = Ok r.
Proof. intros Hst Hnh Hnc HN. rewrite (finalize_eq _ _ _ _ _ _ _ _ Hst Hnh Hnc HN). eauto. Qed.

(** The gradient has as many entries as the parameter vector. *)
Lemma nnObjFunction_Ok_length (params : list K) args v g :
  nnObjFunction params args = Ok (v, g) -> length g = length params.
Proof.
  unfold nnObjFunction; intros Hobj; inv_bind.
  pose proof (reshape_shape _ _ _ _ Ha) as Hw1. pose proof (reshape_shape _ _ _ _ Ha0) as Hw2.
  apply flatten_reshape in Ha, Ha0.
  assert (Hst : acc_shape (n_input args) (n_hidden args) (n_class args) a1)
    by exact (train_loop_shape _ _ _ _ _ _ _ _ _ _ Hw1 Hw2 (acc_shape_init _ _ _) Ha1).
  rewrite (finalize_length _ _ _ _ _ _ _ _ _ _ Hw1 Hw2 Hst Hobj).
  rewrite Ha, Ha0. symmetry. apply length_slice_0.
Qed.

(** The conditions under which the engine returns. *)
Definition obj_preconditions (params : list K) (args : nn_args K) : Prop :=
  length params = n_params (n_input args) (n_hidden args) (n_class args) /\
  n_hidden args <> 0 /\
  training_data args <> [] /\
  Forall (fun r => length r = n_input args) (training_data args) /\
  labels_ok (n_class args) (training_label args) 0 (length (training_data args)).

Definition label_okb (nc : nat) (l : Z) : bool := (- Z.of_nat nc <=? l)%Z && (l <? Z.of_nat nc)%Z.

Definition labels_okb (nc : nat) (labels : list Z) (i n : nat) : bool :=
  forallb (fun k => match nth_error labels (i + k) with Some l => label_okb nc l | None => false end)
    (seq 0 n).

Definition obj_preconditionsb (params : list K) (args : nn_args K) : bool :=
  Nat.eqb (length params) (n_params (n_input args) (n_hidden args) (n_class args)) &&
  negb (Nat.eqb (n_hidden args) 0) &&
  negb (Nat.eqb (length (training_data args)) 0) &&
  forallb (fun r => Nat.eqb (length r) (n_input args)) (training_data args) &&
  labels_okb (n_class args) (training_label args) 0 (length (training_data args)).

Lemma labels_okb_spec nc labels i n : labels_okb nc labels i n = true -> labels_ok nc labels i n.
Proof.
  unfold labels_okb, labels_ok. rewrite forallb_forall. intros Hlab k Hk.
  specialize (Hlab k (proj2 (in_seq _ _ _) (conj (Nat.le_0_l k) Hk))).
  destruct (nth_error _ _) as [l|]; [|discriminate]. exists l; split; [reflexivity|].
  unfold label_okb, label_ok in *. apply andb_true_iff in Hlab as [H1 H2].
  apply Z.leb_le in H1. apply Z.ltb_lt in H2. lia.
Qed.

Lemma obj_preconditionsb_spec (params : list K) args :
  obj_preconditionsb params args = true -> obj_preconditions params args.
Proof.
  unfold obj_preconditionsb, obj_preconditions.
  rewrite !andb_true_iff, negb_true_iff, Nat.eqb_eq, Nat.eqb_neq, forallb_forall.
  intros [[[[Hl Hh] Hn] Hr] Hlab]. split; [exact Hl|]. split; [exact Hh|].
  split; [intros He; rewrite He in Hn; discriminate|].
  split; [|apply labels_okb_spec, Hlab].
  apply Forall_forall. intros r Hin. apply Nat.eqb_eq, Hr, Hin.
Qed.

(** A loop that processed its first example found [grad_w1] two-dimensional. *)
Lemma train_loop_Ok_hidden ni nh nc labels (w1 w2 : mat K) row rows i st st' :
  has_shape nh (ni + 1) w1 ->
  train_loop nc labels w1 w2 (drop_last_col w2) i (row :: rows) st = Ok st' -> mrows (grad_w1 st) <> 0.
Proof.
  intros Hw1 Hl. simpl in Hl. inv_bind.
  exact (proj2 (proj2 (example_step_Ok_inv _ _ _ _ _ _ _ _ _ _ Hw1 Ha))).
Qed.

Lemma nnObjFunction_Ok_inv (params : list K) args v g :
  nnObjFunction params args = Ok (v, g) -> obj_preconditions params args.
Proof.
  destruct args as [ni nh nc data labels lam]; unfold obj_preconditions; simpl. intros Hobj.
  unfold nnObjFunction in Hobj; simpl in Hobj.
  destruct (Nat.eq_dec (length params) (n_params ni nh nc)) as [Hl|Hl];
    [|rewrite reshape_params_Err in Hobj by exact Hl; discriminate].
  inv_bind. pose proof (reshape_shape _ _ _ _ Ha) as Hw1. pose proof (reshape_shape _ _ _ _ Ha0) as Hw2.
  pose proof (finalize_Ok_N _ _ _ _ _ _ Hobj) as HN.
  assert (Hnh : nh <> 0).
  { destruct data as [|row rows]; [contradiction|].
    exact (train_loop_Ok_hidden _ _ _ _ _ _ _ _ _ _ _ Hw1 Ha1). }
  destruct (proj1 (train_loop_Ok_iff ni nh nc labels a a0 data 0 _ Hw1 Hw2
    (acc_shape_init _ _ _) Hnh) (ex_intro _ _ Ha1)) as [Hrows Hlab].
  repeat split; auto. intros ->. apply HN; reflexivity.
Qed.

Lemma nnObjFunction_Ok_intro (params : list K) args :
  obj_preconditions params args -> exists v g, nnObjFunction params args = Ok (v, g).
Proof.
  destruct args as [ni nh nc data labels lam]; unfold obj_preconditions; simpl.
  intros (Hl & Hnh & Hne & Hrows & Hlab).
  destruct (reshape_params ni nh nc params Hl) as (w1 & w2 & Hw1 & Hw2 & _).
  unfold nnObjFunction; simpl. rewrite Hw1, Hw2; cbn [bind].
  apply reshape_shape in Hw1, Hw2.
  pose proof (acc_shape_init ni nh nc) as Hst0.
  destruct (proj2 (train_loop_Ok_iff ni nh nc labels w1 w2 data 0 _ Hw1 Hw2 Hst0 Hnh) (conj Hrows Hlab))
    as [st Hst].
  rewrite Hst; cbn [bind].
  assert (Hnc : nc <> 0) by (apply (labels_ok_class _ labels (length data)); [destruct data; simpl; congruence | exact Hlab]).
  destruct (finalize_Ok ni nh nc lam w1 w2 (length data) st) as [[v g] Hfin];
    [exact (train_loop_shape _ _ _ _ _ _ _ _ _ _ Hw1 Hw2 Hst0 Hst) | exact Hnh | exact Hnc
    | destruct data; simpl; congruence |].
  rewrite Hfin; eauto.
Qed.

(** C1: the engine returns a loss and a gradient exactly when the
    parameter vector has [n_params] entries, [n_hidden] is not zero (with
    no hidden unit [grad_w1] is numpy's 1-D empty array, and line 176
    raises), the training set is not empty, every row has [n_input]
    features and every example has a label in Python's index range
    [-n_class .. n_class-1]. *)
Theorem nnObjFunction_Ok_iff (params : list K) args :
  (exists v g, nnObjFunction params args = Ok (v, g)) <->
  (length params = n_params (n_input args) (n_hidden args) (n_class args) /\
   n_hidden args <> 0 /\
   training_data args <> [] /\
   Forall (fun r => length r = n_input args) (training_data args) /\
   labels_ok (n_class args) (training_label args) 0 (length (training_data args))).
Proof.
  split; [intros (v & g & Hobj); exact (nnObjFunction_Ok_inv _ _ _ _ Hobj)|].
  apply nnObjFunction_Ok_intro.
Qed.

(** [finalize] on the untouched accumulators of an empty training set:
    the [+] of line 181 or 182 raises [ValueError] when its accumulator is
    the 1-D empty array and the other operand is not a column; otherwise
    line 184 divides by zero. *)
Lemma finalize_empty ni nh nc lam (w1 w2 : mat K) :
  has_shape nh (ni + 1) w1 -> has_shape nc (nh + 1) w2 ->
  finalize lam w1 w2 0 (Acc s_zero (zeros nh (ni + 1)) (zeros nc (nh + 1))) =
  Err (if (Nat.eqb nc 0 && negb (Nat.eqb nh 0)) || (Nat.eqb nh 0 && negb (Nat.eqb ni 0))
       then ValueError else ZeroDivisionError).
Proof.
  intros (_ & _ & Hc1) (_ & _ & Hc2). unfold finalize, acc_add. cbn [grad_w1 grad_w2 zeros mrows].
  cbn [mscale mcols]. rewrite Hc1, Hc2, !Nat.add_1_r.
  destruct nc, nh, ni; reflexivity.
Qed.

(** C6: the errors of the boundary: a parameter vector of the wrong
    length is the [ValueError] of [reshape] (139-140); an empty training
    set reaches [finalize] with untouched accumulators and raises
    [ValueError] at line 181 ([n_class = 0 < n_hidden]) or 182
    ([n_hidden = 0 < n_input]) and otherwise the [ZeroDivisionError] of
    [obj_val/(2*0)] (184); a well-formed, non-empty set with [n_hidden = 0]
    raises [ValueError] at the first [grad_w1 += ...] (176). *)
Theorem nnObjFunction_errors (params : list K) args :
  (length params <> n_params (n_input args) (n_hidden args) (n_class args) ->
   nnObjFunction params args = Err ValueError) /\
  (length params = n_params (n_input args) (n_hidden args) (n_class args) ->
   training_data args = [] ->
   nnObjFunction params args =
   Err (if (Nat.eqb (n_class args) 0 && negb (Nat.eqb (n_hidden args) 0)) ||
           (Nat.eqb (n_hidden args) 0 && negb (Nat.eqb (n_input args) 0))
        then ValueError else ZeroDivisionError)) /\
  (length params = n_params (n_input args) 0 (n_class args) -> n_hidden args = 0 ->
   training_data args <> [] -> Forall (fun r => length r = n_input args) (training_data args) ->
   labels_ok (n_class args) (training_label args) 0 (length (training_data args)) ->
   nnObjFunction params args = Err ValueError).
Proof.
  destruct args as [ni nh nc data labels lam]; simpl. split; [|split].
  - intros Hl. apply reshape_params_Err, Hl.
  - intros Hl ->. destruct (reshape_params ni nh nc params Hl) as (w1 & w2 & Hw1 & Hw2 & _).
    unfold nnObjFunction; simpl. rewrite Hw1, Hw2. cbn [bind train_loop].
    apply reshape_shape in Hw1, Hw2. exact (finalize_empty _ _ _ _ _ _ Hw1 Hw2).
  - intros Hl -> Hne Hrows Hlab. destruct (reshape_params ni 0 nc params Hl) as (w1 & w2 & Hw1 & Hw2 & _).
    unfold nnObjFunction; cbn [n_input n_hidden n_class training_data training_label lambdaval].
    rewrite Hw1, Hw2. cbn [bind].
    apply reshape_shape in Hw1, Hw2. destruct data as [|row rows]; [contradiction|].
    rewrite (train_loop_hidden0 _ _ _ _ _ _ _ _ _ Hw1 Hw2 (acc_shape_init _ _ _)
      Hrows Hlab). reflexivity.
Qed.

(** C4: the gradient is laid out as the parameters are (line 189 against
    lines 139-140): cut at [n_hidden*(n_input+1)] and reshaped like the
    parameters, its first part is the [w1] gradient [(grad_w1 +
    lambdaval*w1)/N] and its second part the [w2] gradient [(grad_w2 +
    lambdaval*w2)/N] of lines 181-182, where [w1], [w2] are the reshaped
    parameters and [grad_w1], [grad_w2] what the loop accumulated. *)
Theorem nnObjFunction_grad_layout (params : list K) args v g :
  nnObjFunction params args = Ok (v, g) ->
  length g = length params /\
  exists w1 w2 st,
    reshape (slice 0 (n_hidden args * (n_input args + 1)) params) (n_hidden args) (n_input args + 1) = Ok w1 /\
    reshape (skipn (n_hidden args * (n_input args + 1)) params) (n_class args) (n_hidden args + 1) = Ok w2 /\
    train_loop (n_class args) (training_label args) w1 w2 (drop_last_col w2) 0 (training_data args)
      (Acc s_zero (zeros (n_hidden args) (n_input args + 1)) (zeros (n_class args) (n_hidden args + 1))) = Ok st /\
    reshape (slice 0 (n_hidden args * (n_input args + 1)) g) (n_hidden args) (n_input args + 1) =
      Ok (mdiv (madd (grad_w1 st) (mscale (lambdaval args) w1)) (s_of_nat (length (training_data args)))) /\
    reshape (skipn (n_hidden args * (n_input args + 1)) g) (n_class args) (n_hidden args + 1) =
      Ok (mdiv (madd (grad_w2 st) (mscale (lambdaval args) w2)) (s_of_nat (length (training_data args)))).
Proof.
  intros Hobj. split; [exact (nnObjFunction_Ok_length _ _ _ _ Hobj)|].
  destruct (nnObjFunction_Ok_inv _ _ _ _ Hobj) as (_ & Hnh & Hne & _ & Hlab).
  destruct args as [ni nh nc data labels lam]; cbn [n_input n_hidden n_class training_data training_label lambdaval] in *.
  assert (HN : length data <> 0) by (destruct data; [congruence | discriminate]).
  pose proof (labels_ok_class _ _ _ HN Hlab) as Hnc.
  unfold nnObjFunction in Hobj; cbn [n_input n_hidden n_class training_data training_label lambdaval] in Hobj.
  inv_bind. pose proof (reshape_shape _ _ _ _ Ha) as Hw1. pose proof (reshape_shape _ _ _ _ Ha0) as Hw2.
  pose proof (train_loop_shape _ _ _ _ _ _ _ _ _ _ Hw1 Hw2 (acc_shape_init _ _ _) Ha1) as Hst.
  rewrite (finalize_eq _ _ _ _ _ _ _ _ Hst Hnh Hnc HN) in Hobj. injection Hobj as _ <-.
  exists a, a0, a1. do 3 (split; [assumption|]). destruct Hst as [Hg1 Hg2].
  rewrite slice_0_app, skipn_app_length by (erewrite length_flatten_shape by eauto with nn; reflexivity).
  split; apply reshape_flatten_shape; eauto with nn.
Qed.
End Whole.

(** ** What the engine does with its labels *)

Definition with_labels {K} (args : nn_args K) (labels : list Z) : nn_args K :=
  NnArgs (n_input args) (n_hidden args) (n_class args) (training_data args) labels (lambdaval args).

Section Labels.
Context {K : Type} `{Scalar K}.
Local Open Scope nn_scope.

(** The labels enter the loop only through [target]. *)
Lemma train_loop_labels_ext nc l1 l2 (w1 w2 w2t : mat K) rows : forall i st,
  (forall k, k < length rows -> target nc l1 (i + k) = target nc l2 (i + k) :> res (list K)) ->
  train_loop nc l1 w1 w2 w2t i rows st = train_loop nc l2 w1 w2 w2t i rows st.
Proof.
  induction rows as [|row rows IH]; intros i st Hext; simpl; [reflexivity|].
  assert (Hstep : example_step nc l1 w1 w2 w2t i row st = example_step nc l2 w1 w2 w2t i row st).
  { unfold example_step. rewrite <- (Nat.add_0_r i), Hext by (simpl; lia). reflexivity. }
  rewrite Hstep. destruct (example_step nc l2 w1 w2 w2t i row st); simpl; [|reflexivity].
  apply IH. intros k Hk. replace (S i + k) with (i + S k) by lia. apply Hext. simpl; lia.
Qed.

Lemma nnObjFunction_labels_ext (params : list K) args labels :
  (forall k, k < length (training_data args) ->
     target (n_class args) labels k = target (n_class args) (training_label args) k :> res (list K)) ->
  nnObjFunction params (with_labels args labels) = nnObjFunction params args.
Proof.
  intros Hext. unfold nnObjFunction, with_labels; simpl.
  destruct (reshape _ _ _) as [w1|e]; simpl; [|reflexivity].
  destruct (reshape _ _ _) as [w2|e]; simpl; [|reflexivity].
  rewrite (train_loop_labels_ext _ labels (training_label args)); [reflexivity|].
  intros k Hk. apply Hext. exact Hk.
Qed.

(** C17: labels after the last training row are never read: the engine
    gives the same result when the label vector is longer than the data. *)
Theorem nnObjFunction_extra_labels (params : list K) args extra :
  length (training_data args) <= length (training_label args) ->
  nnObjFunction params (with_labels args (training_label args ++ extra)) = nnObjFunction params args.
Proof.
  intros Hlen. apply nnObjFunction_labels_ext. intros k Hk.
  unfold target, label_at. rewrite nth_error_app1 by lia. reflexivity.
Qed.

Lemma one_hot_wrap nc l :
  (0 <= l < Z.of_nat nc)%Z -> one_hot nc (l - Z.of_nat nc) = one_hot nc l :> res (list K).
Proof.
  intros Hl. unfold one_hot, py_index.
  destruct (Z.ltb_spec (l - Z.of_nat nc) (- Z.of_nat nc)); [lia|].
  destruct (Z.leb_spec (Z.of_nat nc) (l - Z.of_nat nc)); [lia|].
  destruct (Z.ltb_spec l (- Z.of_nat nc)); [lia|].
  destruct (Z.leb_spec (Z.of_nat nc) l); [lia|]. simpl.
  destruct (Z.ltb_spec (l - Z.of_nat nc) 0); [|lia].
  destruct (Z.ltb_spec l 0); [lia|].
  do 3 f_equal. lia.
Qed.

(** C16: a label [l - n_class] is read as the class [l]: the engine
    accepts negative labels through Python's negative indexing of [y],
    and gives the same loss and gradient as with the labels in
    [0 .. n_class-1]. *)
Theorem nnObjFunction_negative_labels (params : list K) args :
  Forall (fun l => 0 <= l < Z.of_nat (n_class args))%Z (training_label args) ->
  nnObjFunction params (with_labels args (map (fun l => l - Z.of_nat (n_class args))%Z (training_label args)))
  = nnObjFunction params args.
Proof.
  intros Hall. apply nnObjFunction_labels_ext. intros k _.
  unfold target, label_at. rewrite nth_error_map.
  destruct (nth_error (training_label args) k) as [l|] eqn:Hl; simpl; [|reflexivity].
  apply one_hot_wrap. rewrite Forall_forall in Hall. apply Hall, (nth_error_In _ _ Hl).
Qed.
End Labels.

(** ** Concrete runs

    Two examples with two features, one hidden unit, two classes, at the
    rational instance. *)

From Stdlib Require Import QArith.

Definition ex_args : nn_args Q := NnArgs 2 1 2 [[1#2; 1]; [0; 1#4]] [1%Z; 0%Z] (1#10).
Definition ex_params : list Q := [1#10; -2#10; 3#10; 1#5; -1#5; 1#10; 0].
Definition ex_w1 : mat Q := Mat 1 3 [[1#10; -2#10; 3#10]].
Definition ex_w2 : mat Q := Mat 2 2 [[1#5; -1#5]; [1#10; 0]].
Definition ex_acc0 : acc Q := Acc 0 (zeros 1 3) (zeros 2 2).

Lemma nnObjFunction_grad_layout_witness :
  exists v g, nnObjFunction ex_params ex_args = Ok (v, g) /\
  (length g = length ex_params /\
   exists w1 w2 st,
     reshape (slice 0 (1 * (2 + 1)) ex_params) 1 (2 + 1) = Ok w1 /\
     reshape (skipn (1 * (2 + 1)) ex_params) 2 (1 + 1) = Ok w2 /\
     train_loop 2 [1%Z; 0%Z] w1 w2 (drop_last_col w2) 0 [[1#2; 1]; [0; 1#4]]
       (Acc s_zero (zeros 1 (2 + 1)) (zeros 2 (1 + 1))) = Ok st /\
     reshape (slice 0 (1 * (2 + 1)) g) 1 (2 + 1) =
       Ok (mdiv (madd (grad_w1 st) (mscale (1#10) w1)) (s_of_nat 2)) /\
     reshape (skipn (1 * (2 + 1)) g) 2 (1 + 1) =
       Ok (mdiv (madd (grad_w2 st) (mscale (1#10) w2)) (s_of_nat 2))).
Proof.
  destruct (nnObjFunction ex_params ex_args) as [[v g]|e] eqn:E; [|vm_compute in E; discriminate].
  exists v, g. split; [reflexivity|].
  exact (nnObjFunction_grad_layout ex_params ex_args v g E).
Defined.

Lemma acc_shape_invariant_witness :
  exists st', train_loop 2 [1%Z; 0%Z] ex_w1 ex_w2 (drop_last_col ex_w2) 0%nat (training_data ex_args) ex_acc0
              = Ok st' /\ acc_shape 2 1 2 st'.
Proof.
  eexists. split; [vm_compute; reflexivity|].
  refine (proj2 (acc_shape_invariant 2 1 2 [1%Z; 0%Z] ex_w1 ex_w2 _ _) (training_data ex_args) 0%nat ex_acc0 _ _ _).
  - split; [apply wf_matb_spec; vm_compute; reflexivity | split; reflexivity].
  - split; [apply wf_matb_spec; vm_compute; reflexivity | split; reflexivity].
  - split; (split; [apply wf_matb_spec; vm_compute; reflexivity | split; reflexivity]).
  - vm_compute. reflexivity.
Defined.

Lemma nnObjFunction_errors_witness :
  nnObjFunction [] ex_args = Err ValueError /\
  nnObjFunction ex_params (NnArgs 2 1 2 [] [] (1#10)) = Err ZeroDivisionError /\
  nnObjFunction [1; 2; 3] (NnArgs 2 1 0 [] [] (1#10)) = Err ValueError /\
  nnObjFunction [1; 2] (NnArgs 2 0 2 [[1; 0]] [1%Z] (1#10)) = Err ValueError.
Proof.
  split; [|split; [|split]].
  - apply (proj1 (nnObjFunction_errors [] ex_args)). vm_compute. lia.
  - exact (proj1 (proj2 (nnObjFunction_errors ex_params (NnArgs 2 1 2 [] [] (1#10)))) eq_refl eq_refl).
  - exact (proj1 (proj2 (nnObjFunction_errors [1; 2; 3] (NnArgs 2 1 0 [] [] (1#10)))) eq_refl eq_refl).
  - apply (proj2 (proj2 (nnObjFunction_errors [1; 2] (NnArgs 2 0 2 [[1; 0]] [1%Z] (1#10)))));
      [reflexivity | reflexivity | discriminate | repeat constructor |].
    apply labels_okb_spec. vm_compute. reflexivity.
Defined.

Lemma nnObjFunction_extra_labels_witness :
  nnObjFunction ex_params (with_labels ex_args ([1%Z; 0%Z] ++ [7%Z])) = nnObjFunction ex_params ex_args.
Proof. apply (nnObjFunction_extra_labels ex_params ex_args [7%Z]). simpl. lia. Defined.

Lemma nnObjFunction_negative_labels_witness :
  nnObjFunction ex_params (with_labels ex_args [(-1)%Z; (-2)%Z]) = nnObjFunction ex_params ex_args.
Proof.
  apply (nnObjFunction_negative_labels ex_params ex_args).
  repeat constructor; simpl; lia.
Defined.
