(* ===== verification/Regularization.v ===== *)
(** * The regularisation term of [nnObjFunction] over the reals

    Lines 181-185 add [lambdaval*w] to the accumulated gradients and
    [(np.sum(w1**2) + np.sum(w2**2))*(lambdaval/N)] to the loss.  The loop
    does not read [lambdaval], so the result for any [lambdaval] is the
    result for [lambdaval = 0] plus a term in closed form
    ([nnObjFunction_lambda]).  Consequences: the loss is strictly increasing
    in [lambdaval] for a non-zero parameter vector, and the gradient's
    regularisation part [lambdaval*p/N] is half the derivative
    [2*lambdaval*p/N] of the loss's regularisation part: the returned
    gradient is not the gradient of the returned loss when
    [lambdaval <> 0].  Last, the range of the loss: at least 0 and below
    [n_class/2] plus the regularisation term. *)

From Stdlib Require Import List Arith Lia ZArith Reals Lra.
From S2P Require Import Prelude Scalar Matrix Sigmoid Objective.
Import ListNotations.

Definition with_lambda {K} (args : nn_args K) (lam : K) : nn_args K :=
  NnArgs (n_input args) (n_hidden args) (n_class args) (training_data args) (training_label args) lam.

(** The loss and the gradient the engine returns, [0] and [[]] on an error. *)
Definition loss (args : nn_args R) (params : list R) : R :=
  match nnObjFunction params args with Ok (v, _) => v | Err _ => 0%R end.

Definition gradient (args : nn_args R) (params : list R) : list R :=
  match nnObjFunction params args with Ok (_, g) => g | Err _ => [] end.

Section Real.
Local Open Scope R_scope.

Definition sumsq (l : list R) : R := vsum (map (fun x => (x * x)%sc) l).

Lemma fold_left_Rplus_acc (l : list R) a : fold_left Rplus l a = a + fold_left Rplus l 0.
Proof.
  revert a; induction l as [|x l IH]; intros a; simpl; [ring|].
  rewrite IH, (IH (0 + x)). ring.
Qed.

Lemma vsum_cons_R (x : R) l : vsum (x :: l) = x + vsum l.
Proof. unfold vsum; sc_R. simpl. rewrite fold_left_Rplus_acc. ring. Qed.

Lemma vsum_app_R (l1 l2 : list R) : vsum (l1 ++ l2) = vsum l1 + vsum l2.
Proof.
  induction l1 as [|x l1 IH]; simpl; [unfold vsum; sc_R; simpl; ring|].
  rewrite !vsum_cons_R, IH. ring.
Qed.

Lemma sumsq_nonneg l : 0 <= sumsq l.
Proof.
  unfold sumsq. induction l as [|x l IH]; simpl; [unfold vsum; sc_R; simpl; lra|].
  rewrite vsum_cons_R. sc_R. pose proof (Rle_0_sqr x). unfold Rsqr in *. lra.
Qed.

Lemma sumsq_pos l : Exists (fun p => p <> 0) l -> 0 < sumsq l.
Proof.
  unfold sumsq. induction 1 as [x l Hx|x l _ IH]; simpl; rewrite vsum_cons_R; sc_R.
  - pose proof (Rlt_0_sqr x Hx). pose proof (sumsq_nonneg l). unfold sumsq, Rsqr in *. sc_R. lra.
  - pose proof (Rle_0_sqr x). unfold Rsqr in *. lra.
Qed.

Lemma sumsq_update (i : nat) (t : R) (l : list R) :
  (i < length l)%nat -> sumsq (update_at i t l) = sumsq l - nth i l 0 * nth i l 0 + t * t.
Proof.
  unfold sumsq. revert i; induction l as [|x l IH]; intros [|i] Hi; simpl in *; try lia;
    rewrite !vsum_cons_R; sc_R; [ring|].
  rewrite IH by lia. ring.
Qed.

(** The elementwise identity behind the gradient of lines 181-182. *)
Lemma reg_grad_list (a p : list R) lam N :
  length a = length p ->
  map (fun x => (x / N)%sc) (zipWith s_add a (map (fun x => (lam * x)%sc) p)) =
  zipWith (fun x q => x + lam * q / N)
    (map (fun x => (x / N)%sc) (zipWith s_add a (map (fun x => (0 * x)%sc) p))) p.
Proof.
  revert p; induction a as [|x a IH]; intros [|q p] Hl; simpl in *; try lia; auto.
  f_equal; [sc_R; unfold Rdiv; ring | apply IH; lia].
Qed.

Lemma finalize_lambda ni nh nc lam (w1 w2 : mat R) N st v g :
  has_shape nh (ni + 1) w1 -> has_shape nc (nh + 1) w2 -> acc_shape ni nh nc st ->
  finalize lam w1 w2 N st = Ok (v, g) ->
  exists v0 g0, finalize 0 w1 w2 N st = Ok (v0, g0) /\
    v = v0 + lam * sumsq (flatten w1 ++ flatten w2) / INR N /\
    g = zipWith (fun a p => a + lam * p / INR N) g0 (flatten w1 ++ flatten w2).
Proof.
  intros Hw1 Hw2 [Hg1 Hg2] Hfin. unfold finalize in *. inv_bind.
  rewrite (acc_add_same_cols _ _ (mscale 0 w2) _ Ha), (acc_add_same_cols _ _ (mscale 0 w1) _ Ha0)
    by reflexivity. cbn [bind]. apply acc_add_inv in Ha as ->. apply acc_add_inv in Ha0 as ->.
  destruct (Nat.eqb_spec N 0) as [|HN]; [discriminate|]. injection Hfin as <- <-.
  do 2 eexists; split; [reflexivity|]. split.
  - cbv zeta. unfold msum_sq, sumsq. rewrite map_app, vsum_app_R. sc_R.
    change (N + (N + 0))%nat with (2 * N)%nat. unfold Rdiv. ring.
  - rewrite !flatten_mdiv, (flatten_madd nh (ni + 1) (grad_w1 st) (mscale lam w1)),
      (flatten_madd nh (ni + 1) (grad_w1 st) (mscale 0 w1)),
      (flatten_madd nc (nh + 1) (grad_w2 st) (mscale lam w2)),
      (flatten_madd nc (nh + 1) (grad_w2 st) (mscale 0 w2)), !flatten_mscale by eauto with nn.
    rewrite zipWith_app.
    2:{ rewrite !length_map, !length_zipWith, !length_map,
          (length_flatten_shape _ _ _ Hg1), (length_flatten_shape _ _ _ Hw1). lia. }
    rewrite (reg_grad_list (flatten (grad_w1 st)) (flatten w1) lam),
      (reg_grad_list (flatten (grad_w2 st)) (flatten w2) lam); [reflexivity| |];
      erewrite !length_flatten_shape by eassumption; reflexivity.
Qed.

Lemma with_lambda_self {K} (args : nn_args K) : with_lambda args (lambdaval args) = args.
Proof. destruct args; reflexivity. Qed.

(** [lambdaval] is read only by [finalize]. *)
Lemma nnObjFunction_with_lambda (params : list R) args r :
  nnObjFunction params args = Ok r ->
  exists w1 w2 st,
    has_shape (n_hidden args) (n_input args + 1) w1 /\
    has_shape (n_class args) (n_hidden args + 1) w2 /\
    acc_shape (n_input args) (n_hidden args) (n_class args) st /\
    flatten w1 ++ flatten w2 = params /\
    forall lam, nnObjFunction params (with_lambda args lam) =
                finalize lam w1 w2 (length (training_data args)) st.
Proof.
  destruct args as [ni nh nc data labels lam0]. unfold nnObjFunction, with_lambda. simpl.
  intros Hobj; inv_bind.
  pose proof (reshape_shape _ _ _ _ Ha) as Hw1. pose proof (reshape_shape _ _ _ _ Ha0) as Hw2.
  exists a, a0, a1. split; [exact Hw1|]. split; [exact Hw2|]. split.
  { exact (train_loop_shape _ _ _ _ _ _ _ _ _ _ Hw1 Hw2 (acc_shape_init _ _ _) Ha1). }
  split.
  - apply flatten_reshape in Ha, Ha0. rewrite Ha, Ha0.
    unfold slice. rewrite Nat.sub_0_r, skipn_O. apply firstn_skipn.
  - intros lam. rewrite Ha, Ha0. simpl. rewrite Ha1. reflexivity.
Qed.

(** The result of the engine splits into the result at [lambdaval = 0]
    and the regularisation terms of lines 181-185. *)
Lemma nnObjFunction_lambda (params : list R) args v g :
  nnObjFunction params args = Ok (v, g) ->
  exists v0 g0, nnObjFunction params (with_lambda args 0) = Ok (v0, g0) /\
    v = v0 + lambdaval args * sumsq params / INR (length (training_data args)) /\
    g = zipWith (fun a p => a + lambdaval args * p / INR (length (training_data args))) g0 params.
Proof.
  intros Hobj. destruct (nnObjFunction_with_lambda params args _ Hobj)
    as (w1 & w2 & st & Hw1 & Hw2 & Hst & Hp & Hlam).
  rewrite Hlam, <- Hp. rewrite <- (with_lambda_self args), Hlam in Hobj.
  destruct args; simpl in *. eapply finalize_lambda; eauto.
Qed.
Lemma with_lambda_twice {K} (args : nn_args K) l l' : with_lambda (with_lambda args l) l' = with_lambda args l'.
Proof. destruct args; reflexivity. Qed.

(** Only the length of the parameter vector decides whether the engine
    returns. *)
Lemma nnObjFunction_Ok_same_length (params params' : list R) args r :
  nnObjFunction params args = Ok r -> length params' = length params ->
  exists v g, nnObjFunction params' args = Ok (v, g).
Proof.
  intros Hobj Hl. destruct r as [v g].
  apply nnObjFunction_Ok_intro. apply nnObjFunction_Ok_inv in Hobj.
  unfold obj_preconditions in *. rewrite Hl. exact Hobj.
Qed.

Lemma training_size_pos (params : list R) args r :
  nnObjFunction params args = Ok r -> 0 < INR (length (training_data args)).
Proof.
  intros Hobj. destruct r as [v g].
  destruct (nnObjFunction_Ok_inv _ _ _ _ Hobj) as (_ & _ & Hne & _).
  apply lt_0_INR. destruct (training_data args); [congruence | simpl; lia].
Qed.

Lemma loss_lambda_diff (params params' : list R) args r :
  nnObjFunction params args = Ok r -> length params' = length params ->
  loss args params' - loss (with_lambda args 0) params' =
  lambdaval args * sumsq params' / INR (length (training_data args)).
Proof.
  intros Hobj Hl. destruct (nnObjFunction_Ok_same_length _ _ _ _ Hobj Hl) as (v & g & Hv).
  destruct (nnObjFunction_lambda _ _ _ _ Hv) as (v0 & g0 & H0 & -> & _).
  unfold loss. rewrite Hv, H0. ring.
Qed.

(** C7: with a non-zero parameter vector, the loss is strictly increasing
    in [lambdaval] (spec, testable properties: regularisation). *)
Theorem loss_strictly_increasing_in_lambda (params : list R) args l1 l2 v1 g1 v2 g2 :
  l1 < l2 -> Exists (fun p => p <> 0) params ->
  nnObjFunction params (with_lambda args l1) = Ok (v1, g1) ->
  nnObjFunction params (with_lambda args l2) = Ok (v2, g2) ->
  v1 < v2.
Proof.
  intros Hlt Hnz H1 H2. pose proof (training_size_pos _ _ _ H1) as HN.
  destruct (nnObjFunction_lambda _ _ _ _ H1) as (v0 & g0 & H0 & -> & _).
  destruct (nnObjFunction_lambda _ _ _ _ H2) as (v0' & g0' & H0' & -> & _).
  rewrite !with_lambda_twice in *. rewrite H0 in H0'. injection H0' as <- _.
  simpl in *. pose proof (sumsq_pos _ Hnz) as HS.
  assert (0 < sumsq params * / INR (length (training_data args))) by
    (apply Rmult_lt_0_compat; [exact HS | apply Rinv_0_lt_compat, HN]).
  unfold Rdiv. nra.
Qed.

(** The regularisation part of the loss, [lambdaval * sumsq params / N],
    in parameter [i]. *)
Lemma reg_part_deriv (params : list R) args r i :
  nnObjFunction params args = Ok r -> (i < length params)%nat ->
  derivable_pt_lim
    (fun t => loss args (update_at i t params) - loss (with_lambda args 0) (update_at i t params))
    (nth i params 0)
    (2 * (lambdaval args * nth i params 0 / INR (length (training_data args)))).
Proof.
  intros Hobj Hi. set (N := INR (length (training_data args))).
  set (lam := lambdaval args). set (p := nth i params 0).
  apply derivable_pt_lim_ext with
    (f := (mult_real_fct (lam / N) Rsqr + fct_cte (lam / N * (sumsq params - p * p)))%F).
  { intros t. unfold plus_fct, mult_real_fct, fct_cte, Rsqr.
    rewrite (loss_lambda_diff params) with (r := r) by (auto; apply length_update_at).
    rewrite sumsq_update by exact Hi. unfold Rdiv, p, lam, N. ring. }
  replace (2 * (lam * p / N)) with (lam / N * (2 * p) + 0) by (unfold Rdiv; ring).
  apply derivable_pt_lim_plus; [apply derivable_pt_lim_scal, derivable_pt_lim_Rsqr|].
  apply derivable_pt_lim_const.
Qed.

(** Entry [i] of the gradient is the entry at [lambdaval = 0] plus
    [lambdaval * p_i / N]. *)
Lemma gradient_lambda_nth (params : list R) args r i :
  nnObjFunction params args = Ok r ->
  nth i (gradient args params) 0 - nth i (gradient (with_lambda args 0) params) 0 =
    lambdaval args * nth i params 0 / INR (length (training_data args)).
Proof.
  intros Hobj. destruct r as [v g]. unfold gradient. rewrite Hobj.
  destruct (nnObjFunction_lambda _ _ _ _ Hobj) as (v0 & g0 & H0 & _ & ->). rewrite H0.
  destruct (nnObjFunction_with_lambda _ _ _ Hobj) as (w1 & w2 & st & Hw1 & Hw2 & Hst & Hp & Hlam).
  rewrite Hlam in H0.
  assert (Hg0 : length g0 = length params)
    by (rewrite (finalize_length _ _ _ _ _ _ _ _ _ _ Hw1 Hw2 Hst H0), <- Hp, length_app; reflexivity).
  destruct (Nat.lt_ge_cases i (length params)) as [Hi|Hi].
  - rewrite (nth_zipWith _ _ _ _ 0 0) by lia. ring.
  - rewrite !nth_overflow by (rewrite ?length_zipWith; lia). unfold Rdiv. ring.
Qed.

(** C3: the regularisation part of the returned gradient is half the
    derivative of the regularisation part of the returned loss.  Along
    coordinate [i], the loss minus the loss at [lambdaval = 0] has
    derivative [2*lambdaval*p_i/N], while the gradient minus the gradient
    at [lambdaval = 0] is [lambdaval*p_i/N] (lines 181-182 against 185): the
    gradient check of the spec fails by [lambdaval*p_i/N]. *)
Theorem regularization_gradient_is_half (params : list R) args r i :
  nnObjFunction params args = Ok r -> (i < length params)%nat ->
  derivable_pt_lim
    (fun t => loss args (update_at i t params) - loss (with_lambda args 0) (update_at i t params))
    (nth i params 0)
    (2 * (lambdaval args * nth i params 0 / INR (length (training_data args)))) /\
  nth i (gradient args params) 0 - nth i (gradient (with_lambda args 0) params) 0 =
    lambdaval args * nth i params 0 / INR (length (training_data args)).
Proof. intros Hobj Hi. split; [exact (reg_part_deriv _ _ _ _ Hobj Hi) | exact (gradient_lambda_nth _ _ _ i Hobj)]. Qed.
End Real.

(** ** Bounds on the loss

    Each iteration of the loop adds to [obj_val] the squared error
    [np.sum((y-z2)**2)] of a one-hot target [y] against sigmoid outputs
    [z2]: every entry of [y - z2] lies in (-1, 1), so the iteration adds
    at least 0 and less than [n_class].  After the division by [2N] of
    line 184 the data term lies in [[0, n_class/2)], and line 185 adds
    [lambdaval * sum p^2 / N]. *)

Section SquaredError.
Local Open Scope R_scope.

Lemma sumsq_cons (d : R) l : sumsq (d :: l) = d * d + sumsq l.
Proof. unfold sumsq. simpl map. rewrite vsum_cons_R. reflexivity. Qed.

Lemma sumsq_le (l : list R) : Forall (fun d => -1 < d < 1) l -> sumsq l <= INR (length l).
Proof.
  induction 1 as [|d l Hd _ IH]; [change (sumsq []) with 0; simpl; lra|].
  cbn [length]. rewrite sumsq_cons, S_INR. nra.
Qed.

(** A sum of at most [n] squares of numbers in (-1, 1) is below [n]. *)
Lemma sumsq_lt (l : list R) n :
  Forall (fun d => -1 < d < 1) l -> (length l <= n)%nat -> (0 < n)%nat -> sumsq l < INR n.
Proof.
  intros Hl Hn Hpos. apply le_INR in Hn. destruct Hl as [|d l Hd Hl].
  - change (sumsq []) with 0. apply lt_0_INR, Hpos.
  - rewrite sumsq_cons. pose proof (sumsq_le l Hl). simpl length in Hn. rewrite S_INR in Hn. nra.
Qed.

(** Lines 160-162: the target has entries 0 and 1 and at least one class. *)
Lemma target_01 nc labels i (y : list R) :
  target nc labels i = Ok y -> Forall (fun a => a = 0 \/ a = 1) y /\ (0 < nc)%nat.
Proof.
  unfold target, label_at. destruct (nth_error labels i) as [l|]; cbn [bind]; [|discriminate].
  unfold one_hot. destruct (py_index nc l) as [k|] eqn:Hk; [|discriminate]. intros [= <-].
  assert (Hok : label_ok nc l) by (apply py_index_Some; eauto). unfold label_ok in Hok.
  split; [|lia]. apply Forall_update_at; [|right; reflexivity].
  apply Forall_forall. intros a Ha. apply repeat_spec in Ha. left. exact Ha.
Qed.

(** One iteration adds to [obj_val] at least 0 and less than [n_class]. *)
Lemma example_step_obj nc labels (w1 w2 w2t : mat R) i row st st' :
  example_step nc labels w1 w2 w2t i row st = Ok st' ->
  obj_val st <= obj_val st' < obj_val st + INR nc.
Proof.
  intros Hstep. unfold example_step in Hstep. inv_bind. cbn [obj_val].
  destruct (target_01 _ _ _ _ Ha1) as [H01 Hnc]. pose proof (target_length _ _ _ _ Ha1) as Hy.
  assert (Hd : Forall (fun d => -1 < d < 1) (zipWith s_sub a1 (map sigmoid a0))).
  { apply (Forall_zipWith (fun a => a = 0 \/ a = 1) (fun z => 0 < z < 1)); [exact H01| |].
    - apply Forall_forall. intros z Hz. apply in_map_iff in Hz as (u & <- & _).
      split; [apply sigmoid_pos | apply sigmoid_lt_1].
    - intros p q [-> | ->] Hq; sc_R; lra. }
  pose proof (sumsq_nonneg (zipWith s_sub a1 (map sigmoid a0))) as H0.
  pose proof (sumsq_lt _ nc Hd ltac:(rewrite length_zipWith; lia) Hnc) as H1.
  unfold sumsq in H0, H1. sc_R. lra.
Qed.

(** The loop adds at least 0 and, over [n] rows, less than [n * n_class]. *)
Lemma train_loop_obj nc labels (w1 w2 w2t : mat R) rows : forall i st st',
  train_loop nc labels w1 w2 w2t i rows st = Ok st' ->
  obj_val st <= obj_val st' /\
  (rows <> [] -> obj_val st' < obj_val st + INR nc * INR (length rows)) /\
  obj_val st' <= obj_val st + INR nc * INR (length rows).
Proof.
  induction rows as [|row rows IH]; intros i st st' Hloop; simpl in Hloop.
  - injection Hloop as <-. simpl. split; [lra | split; [congruence | lra]].
  - inv_bind. pose proof (example_step_obj _ _ _ _ _ _ _ _ _ Ha) as [E1 E2].
    destruct (IH _ _ _ Hloop) as (F1 & _ & F3). cbn [length]. rewrite S_INR.
    pose proof (pos_INR nc). pose proof (pos_INR (length rows)). split; [lra | split; [intros _|]]; nra.
Qed.
End SquaredError.

Section LossBounds.
Local Open Scope R_scope.

(** The loss at [lambdaval = 0] is the mean squared error over two. *)
Lemma loss0_bounds (params : list R) args v g :
  nnObjFunction params (with_lambda args 0) = Ok (v, g) -> 0 <= v < INR (n_class args) / 2.
Proof.
  destruct args as [ni nh nc data labels lam]. unfold nnObjFunction, with_lambda. simpl.
  intros Hobj; inv_bind.
  destruct (train_loop_obj _ _ _ _ _ _ _ _ _ Ha1) as (H1 & H2 & _). cbn [obj_val] in H1, H2.
  unfold finalize in Hobj. inv_bind. destruct (Nat.eqb_spec (length data) 0) as [|HN]; [discriminate|].
  injection Hobj as <- _. assert (Hne : data <> []) by (intros ->; apply HN; reflexivity).
  specialize (H2 Hne). sc_R. rewrite Nat.add_0_r, plus_INR.
  pose proof (lt_0_INR _ (proj1 (Nat.neq_0_lt_0 _) HN)) as HNp.
  split; unfold Rdiv.
  - rewrite Rmult_0_l, Rmult_0_r, Rplus_0_r. apply Rmult_le_pos; [lra|].
    left. apply Rinv_0_lt_compat. lra.
  - rewrite Rmult_0_l, Rmult_0_r, Rplus_0_r.
    apply (Rmult_lt_reg_r (INR (length data) + INR (length data))); [lra|].
    rewrite Rmult_assoc, Rinv_l by lra. field_simplify; lra.
Qed.

(** C8: for [lambdaval >= 0], the loss [nnObjFunction] returns is at
    least 0 and below [n_class/2 + lambdaval * sum p^2 / N]: the data term
    (line 184) is half the mean over the examples of a sum of [n_class]
    squares of numbers in (-1, 1), and line 185 adds the regularisation. *)
Theorem loss_bounds (params : list R) args v g :
  nnObjFunction params args = Ok (v, g) -> 0 <= lambdaval args ->
  0 <= v < INR (n_class args) / 2 + lambdaval args * sumsq params / INR (length (training_data args)).
Proof.
  intros Hobj Hlam. pose proof (training_size_pos _ _ _ Hobj) as HN.
  destruct (nnObjFunction_lambda _ _ _ _ Hobj) as (v0 & g0 & H0 & -> & _).
  pose proof (loss0_bounds _ _ _ _ H0) as [B1 B2]. cbn [n_class with_lambda] in B2.
  assert (0 <= lambdaval args * sumsq params / INR (length (training_data args))).
  { unfold Rdiv. apply Rmult_le_pos; [apply Rmult_le_pos; [exact Hlam | apply sumsq_nonneg]|].
    left. apply Rinv_0_lt_compat, HN. }
  lra.
Qed.

End LossBounds.

(** ** Instances of the theorems *)

Section RealRuns.
Local Open Scope R_scope.

Definition exR_args : nn_args R := NnArgs 2 1 2 [[1/2; 1]; [0; 1/4]] [1%Z; 0%Z] (1/10).
Definition exR_params : list R := [1/10; -2/10; 3/10; 1/5; -1/5; 1/10; 0].

Lemma exR_runs lam : exists v g, nnObjFunction exR_params (with_lambda exR_args lam) = Ok (v, g).
Proof. apply nnObjFunction_Ok_intro, obj_preconditionsb_spec. vm_compute. reflexivity. Qed.

Lemma loss_strictly_increasing_in_lambda_witness :
  exists v1 g1 v2 g2,
    nnObjFunction exR_params (with_lambda exR_args 0) = Ok (v1, g1) /\
    nnObjFunction exR_params (with_lambda exR_args 1) = Ok (v2, g2) /\ v1 < v2.
Proof.
  destruct (exR_runs 0) as (v1 & g1 & H1). destruct (exR_runs 1) as (v2 & g2 & H2).
  exists v1, g1, v2, g2. split; [exact H1 | split; [exact H2|]].
  apply (loss_strictly_increasing_in_lambda exR_params exR_args 0 1 v1 g1 v2 g2); [lra | | exact H1 | exact H2].
  apply Exists_cons_hd. lra.
Defined.

Lemma regularization_gradient_is_half_witness :
  exists r, nnObjFunction exR_params exR_args = Ok r /\
  derivable_pt_lim
    (fun t => loss exR_args (update_at 0 t exR_params) - loss (with_lambda exR_args 0) (update_at 0 t exR_params))
    (nth 0 exR_params 0)
    (2 * (lambdaval exR_args * nth 0 exR_params 0 / INR (length (training_data exR_args)))) /\
  nth 0 (gradient exR_args exR_params) 0 - nth 0 (gradient (with_lambda exR_args 0) exR_params) 0 =
    lambdaval exR_args * nth 0 exR_params 0 / INR (length (training_data exR_args)).
Proof.
  destruct (exR_runs (lambdaval exR_args)) as (v & g & Hr). rewrite with_lambda_self in Hr.
  exists (v, g). split; [exact Hr|].
  apply (regularization_gradient_is_half exR_params exR_args (v, g) 0 Hr). simpl. lia.
Defined.
Lemma loss_bounds_witness :
  exists v g, nnObjFunction exR_params exR_args = Ok (v, g) /\
  0 <= v < INR (n_class exR_args) / 2 +
           lambdaval exR_args * sumsq exR_params / INR (length (training_data exR_args)).
Proof.
  destruct (exR_runs (lambdaval exR_args)) as (v & g & Hr). rewrite with_lambda_self in Hr.
  exists v, g. split; [exact Hr|].
  apply (loss_bounds exR_params exR_args v g Hr). simpl. lra.
Defined.
End RealRuns.
