(* ===== verification/Predict.v ===== *)
(** * The predictor: [nnPredict] (nnScript.py:198-229)

    [predict_row] is the loop body (218-228): append the bias, [w1.dot(value.T)],
    sigmoid, append the bias, [w2.dot(z1.T)], sigmoid, [np.argmax];
    [predict_loop] is the loop with its accumulator [labels] (216-217,
    [np.append]), and [nnPredict] starts it with the empty array.
    [np.argmax] returns the first index of the maximum and raises
    [ValueError] on an empty array.  Theorems: argmax returns the first
    maximal index, the predictor returns one label per row and each label is
    a class index, it succeeds exactly when every row has the width [w1]
    expects, and its [np.dot] form computes what the objective's
    [value.dot(w1.T)] computes. *)

From Stdlib Require Import List Arith Lia ZArith Reals Lra.
From S2P Require Import Prelude Scalar Matrix Sigmoid.
Import ListNotations.

Section Predictor.
Context {K : Type} `{Scalar K}.
Local Open Scope nn_scope.

(** The scan of [np.argmax] from index [i], with the best index and value
    so far; a later element wins only when it is strictly larger. *)
Fixpoint argmax_from (best_i : nat) (best : K) (i : nat) (l : list K) : nat :=
  match l with
  | [] => best_i
  | x :: t => if s_ltb best x then argmax_from i x (S i) t else argmax_from best_i best (S i) t
  end.

(** [np.argmax(z2)]. *)
Definition argmax (l : list K) : res nat :=
  match l with
  | [] => Err ValueError
  | x :: t => Ok (argmax_from 0 x 1 t)
  end.

(** Lines 218-228: the label of one row. *)
Definition predict_row (w1 w2 : mat K) (row : list K) : res nat :=
  let value := row ++ [s_one] in
  a1 <- mdot w1 value ;;
  let z1 := map sigmoid a1 in
  let z1 := z1 ++ [s_one] in
  a2 <- mdot w2 z1 ;;
  let z2 := map sigmoid a2 in
  argmax z2.

(** Lines 217-228: [labels = np.append(labels, np.argmax(z2))] for each row. *)
Fixpoint predict_loop (w1 w2 : mat K) (rows : list (list K)) (labels : list nat) : res (list nat) :=
  match rows with
  | [] => Ok labels
  | row :: rows' =>
      l <- predict_row w1 w2 row ;;
      predict_loop w1 w2 rows' (labels ++ [l])
  end.

(** Lines 198-229. *)
Definition nnPredict (w1 w2 : mat K) (data : list (list K)) : res (list nat) :=
  predict_loop w1 w2 data [].

Lemma argmax_from_bound best_i best i l :
  best_i < i -> argmax_from best_i best i l < i + length l.
Proof.
  revert best_i best i; induction l as [|x l IH]; intros best_i best i Hb; simpl; [lia|].
  destruct (s_ltb best x); [specialize (IH i x (S i)) | specialize (IH best_i best (S i))]; lia.
Qed.

Lemma argmax_lt l k : argmax l = Ok k -> k < length l.
Proof.
  destruct l as [|x l]; simpl; intros Hk; [discriminate|]. injection Hk as <-.
  pose proof (argmax_from_bound 0 x 1 l); lia.
Qed.

Lemma predict_row_Ok_iff ni nh nc w1 w2 row :
  has_shape nh (ni + 1) w1 -> has_shape nc (nh + 1) w2 -> nc <> 0 ->
  (exists l, predict_row w1 w2 row = Ok l) <-> length row = ni.
Proof.
  intros (Hw1 & Hr1 & Hc1) (Hw2 & Hr2 & Hc2) Hnc. unfold predict_row, mdot at 1.
  rewrite Hc1, length_app, Nat.add_1_r, Nat.add_1_r.
  destruct (Nat.eqb_spec (S ni) (S (length row))) as [Hrow|Hrow];
    [|split; [intros [l Hl]; discriminate | lia]].
  cbn [bind]. unfold mdot. rewrite Hc2, length_app, !length_map.
  destruct Hw1 as [Hd1 _].
  destruct (Nat.eqb_spec (nh + 1) (length (mdata w1) + length [s_one])) as [_|Hne];
    [|simpl in Hne; lia].
  cbn [bind].
  destruct Hw2 as [Hd2 _]. destruct (mdata w2) as [|r rs]; simpl in Hd2; [lia|].
  simpl. split; [lia | eauto].
Qed.

Lemma predict_loop_app w1 w2 rows : forall acc labels,
  predict_loop w1 w2 rows acc = Ok labels ->
  exists new, labels = acc ++ new /\ length new = length rows.
Proof.
  induction rows as [|row rows IH]; intros acc labels Hl; simpl in *.
  - injection Hl as <-. exists []. rewrite app_nil_r. auto.
  - inv_bind. destruct (IH _ _ Hl) as (new & -> & Hn).
    exists (a :: new). rewrite <- app_assoc. simpl. auto.
Qed.

Lemma predict_loop_Forall (P : nat -> Prop) w1 w2 rows : forall acc labels,
  (forall row l, predict_row w1 w2 row = Ok l -> P l) ->
  Forall P acc -> predict_loop w1 w2 rows acc = Ok labels -> Forall P labels.
Proof.
  induction rows as [|row rows IH]; intros acc labels HP Hacc Hl; simpl in *.
  - injection Hl as <-. exact Hacc.
  - inv_bind. apply (IH (acc ++ [a]) labels HP); [|exact Hl].
    apply Forall_app; split; [exact Hacc | constructor; [eapply HP; eauto | constructor]].
Qed.

Lemma predict_loop_Ok_iff ni nh nc w1 w2 rows : forall acc,
  has_shape nh (ni + 1) w1 -> has_shape nc (nh + 1) w2 -> nc <> 0 ->
  (exists labels, predict_loop w1 w2 rows acc = Ok labels) <->
  Forall (fun r => length r = ni) rows.
Proof.
  induction rows as [|row rows IH]; intros acc Hw1 Hw2 Hnc; simpl.
  - split; eauto.
  - rewrite Forall_cons_iff, <- (predict_row_Ok_iff ni nh nc w1 w2 row Hw1 Hw2 Hnc).
    destruct (predict_row w1 w2 row) as [l|e]; cbn [bind].
    + rewrite (IH _ Hw1 Hw2 Hnc). split; [eauto | tauto].
    + split; [intros [labels Hl]; discriminate | intros [[l Hl] _]; discriminate].
Qed.
End Predictor.

(** ** Properties *)

Section PredictorProperties.
Context {K : Type} `{Scalar K}.

(** C15: the predictor returns one label per row, in row order. *)
Theorem nnPredict_length (w1 w2 : mat K) data labels :
  nnPredict w1 w2 data = Ok labels -> length labels = length data.
Proof.
  unfold nnPredict. intros Hl. destruct (predict_loop_app _ _ _ _ _ Hl) as (new & -> & Hn).
  exact Hn.
Qed.

(** C14: with [w1] of shape [(n_hidden, n_input+1)] and [w2] of shape
    [(n_class, n_hidden+1)], [n_class >= 1], the predictor returns exactly
    when every row has [n_input] features, and then every label is a class
    index below [n_class]. *)
Theorem nnPredict_Ok_iff ni nh nc (w1 w2 : mat K) data :
  has_shape nh (ni + 1) w1 -> has_shape nc (nh + 1) w2 -> nc <> 0 ->
  ((exists labels, nnPredict w1 w2 data = Ok labels) <-> Forall (fun r => length r = ni) data) /\
  (forall labels, nnPredict w1 w2 data = Ok labels -> Forall (fun l => l < nc) labels).
Proof.
  intros Hw1 Hw2 Hnc. split; [apply predict_loop_Ok_iff with (nh := nh) (nc := nc); assumption|].
  intros labels Hl. refine (predict_loop_Forall _ _ _ _ _ _ _ (Forall_nil _) Hl).
  intros row l Hrow. unfold predict_row in Hrow. inv_bind. apply argmax_lt in Hrow.
  apply mdot_length in Ha0. rewrite length_map, Ha0 in Hrow.
  destruct Hw2 as ([Hd _] & Hr & _). congruence.
Qed.
End PredictorProperties.

(** ** Over the reals: the first maximum, and the same forward pass *)

Section PredictReal.
Local Open Scope R_scope.

(** The index [np.argmax] documents: a maximum, and the first one. *)
Definition is_first_max (l : list R) (k : nat) : Prop :=
  (k < length l)%nat /\
  (forall j, (j < length l)%nat -> nth j l 0 <= nth k l 0) /\
  (forall j, (j < k)%nat -> nth j l 0 < nth k l 0).

Lemma is_first_max_snoc p bi x :
  is_first_max p bi ->
  (nth bi p 0 < x -> is_first_max (p ++ [x]) (length p)) /\
  (x <= nth bi p 0 -> is_first_max (p ++ [x]) bi).
Proof.
  unfold is_first_max. intros (Hbi & Hmax & Hfirst). rewrite length_app; simpl.
  split; intros Hx.
  - rewrite (app_nth2 p [x] 0 (le_n _)), Nat.sub_diag; simpl.
    split; [lia|]. split.
    + intros j Hj. destruct (Nat.eq_dec j (length p)) as [->|Hne].
      * rewrite app_nth2, Nat.sub_diag by lia; simpl; lra.
      * rewrite app_nth1 by lia. specialize (Hmax j ltac:(lia)). lra.
    + intros j Hj. rewrite app_nth1 by lia. specialize (Hmax j Hj). lra.
  - rewrite (app_nth1 p [x] 0 Hbi). split; [lia|]. split.
    + intros j Hj. destruct (Nat.eq_dec j (length p)) as [->|Hne].
      * rewrite app_nth2, Nat.sub_diag by lia; simpl; lra.
      * rewrite app_nth1 by lia. apply Hmax. lia.
    + intros j Hj. rewrite app_nth1 by lia. apply Hfirst, Hj.
Qed.

Lemma argmax_from_first_max l : forall p bi,
  is_first_max p bi ->
  is_first_max (p ++ l) (argmax_from bi (nth bi p 0) (length p) l).
Proof.
  induction l as [|x l IH]; intros p bi Hp; simpl; [rewrite app_nil_r; exact Hp|].
  destruct (is_first_max_snoc p bi x Hp) as [Hlt Hge].
  replace (p ++ x :: l) with ((p ++ [x]) ++ l) by (rewrite <- app_assoc; reflexivity).
  sc_R. destruct (Rltb (nth bi p 0) x) eqn:E.
  - apply Rltb_true in E. specialize (IH _ _ (Hlt E)).
    rewrite length_app, app_nth2, Nat.sub_diag in IH by lia. simpl in IH.
    rewrite Nat.add_1_r in IH. exact IH.
  - apply Rltb_false in E. specialize (IH _ _ (Hge E)).
    rewrite length_app, app_nth1 in IH by (destruct Hp; lia). simpl in IH.
    rewrite Nat.add_1_r in IH. exact IH.
Qed.

(** C13: [np.argmax] returns the index of a maximum of the output
    activations, the lowest such index on ties, and fails only on an empty
    array. *)
Theorem argmax_first_max (l : list R) :
  (l = [] -> argmax l = Err ValueError) /\
  (forall k, argmax l = Ok k -> is_first_max l k).
Proof.
  split; [intros ->; reflexivity|].
  intros k Hk. destruct l as [|x l]; simpl in Hk; [discriminate|]. injection Hk as <-.
  apply (argmax_from_first_max l [x] 0).
  split; [simpl; lia|]. split; intros j Hj; simpl in Hj; [destruct j; [simpl; lra | lia] | lia].
Qed.

Lemma dot_fold_acc (l : list (R * R)) a :
  fold_left (fun acc p => (acc + fst p * snd p)%sc) l a =
  a + fold_left (fun acc p => (acc + fst p * snd p)%sc) l 0.
Proof.
  revert a; induction l as [|[x y] l IH]; intros a; simpl; sc_R; [ring|].
  rewrite IH, (IH (0 + x * y)). ring.
Qed.

Lemma dot_cons_R (x y : R) u v : dot (x :: u) (y :: v) = x * y + dot u v.
Proof. unfold dot; simpl. rewrite dot_fold_acc. sc_R. ring. Qed.

Lemma dot_comm_R (u v : list R) : dot u v = dot v u.
Proof.
  revert v; induction u as [|x u IH]; intros [|y v]; try reflexivity.
  rewrite !dot_cons_R, IH. ring.
Qed.

(** [w.dot(v)] (line 221) and [v.dot(w.T)] (line 153) agree, errors
    included. *)
Lemma mdot_vdot_transpose (w : mat R) v : wf_mat w -> mdot w v = vdot v (transpose w).
Proof.
  intros Hw. destruct (Nat.eq_dec (length v) (mcols w)) as [Hl|Hl].
  - rewrite vdot_transpose by assumption. unfold mdot. rewrite Hl, Nat.eqb_refl.
    f_equal. apply map_ext. intros r. apply dot_comm_R.
  - unfold mdot, vdot; simpl. rewrite (proj2 (Nat.eqb_neq _ _)) by congruence.
    rewrite (proj2 (Nat.eqb_neq _ _)) by congruence. reflexivity.
Qed.

(** C12: the predictor's forward pass is the objective's: one row's label
    is [np.argmax] of the output activations computed with the objective's
    [value.dot(w1.T)] and [z1_bias.dot(w2.T)] (lines 152-158). *)
Theorem predict_row_forward (w1 w2 : mat R) row :
  wf_mat w1 -> wf_mat w2 ->
  predict_row w1 w2 row =
  (a1 <- vdot (row ++ [1]) (transpose w1) ;;
   a2 <- vdot (map sigmoid a1 ++ [1]) (transpose w2) ;;
   argmax (map sigmoid a2))%nn.
Proof.
  intros Hw1 Hw2. unfold predict_row. rewrite (mdot_vdot_transpose w1) by assumption.
  destruct (vdot _ (transpose w1)) as [a1|e]; cbn [bind]; [|reflexivity].
  rewrite mdot_vdot_transpose by assumption. reflexivity.
Qed.
End PredictReal.

(** ** Instances of the theorems *)

Section RealRuns.
Local Open Scope R_scope.

Lemma argmax_first_max_witness : argmax (@nil R) = Err ValueError.
Proof. apply (proj1 (argmax_first_max [])). reflexivity. Defined.

Definition exR_w1 : mat R := Mat 1 3 [[1/10; -2/10; 3/10]].
Definition exR_w2 : mat R := Mat 2 2 [[1/5; -1/5]; [1/10; 0]].

Lemma predict_row_forward_witness :
  predict_row exR_w1 exR_w2 [1/2; 1] =
  (a1 <- vdot ([1/2; 1] ++ [1]) (transpose exR_w1) ;;
   a2 <- vdot (map sigmoid a1 ++ [1]) (transpose exR_w2) ;;
   argmax (map sigmoid a2))%nn.
Proof.
  assert (H1 : wf_mat exR_w1) by (apply wf_matb_spec; reflexivity).
  assert (H2 : wf_mat exR_w2) by (apply wf_matb_spec; reflexivity).
  pose proof (predict_row_forward exR_w1 exR_w2 [1/2; 1] H1 H2) as Hfw. exact Hfw.
Defined.
End RealRuns.

From Stdlib Require Import QArith.

Definition exQ_w1 : mat Q := Mat 1 3 [[1#10; -2#10; 3#10]].
Definition exQ_w2 : mat Q := Mat 2 2 [[1#5; -1#5]; [1#10; 0]].
Definition exQ_data : list (list Q) := [[1#2; 1]; [0; 1#4]; [1; 1]].

Lemma nnPredict_length_witness :
  exists labels, nnPredict exQ_w1 exQ_w2 exQ_data = Ok labels /\ length labels = length exQ_data.
Proof.
  eexists. split; [vm_compute; reflexivity|].
  apply (nnPredict_length exQ_w1 exQ_w2). vm_compute. reflexivity.
Defined.

Lemma nnPredict_Ok_iff_witness :
  exists labels, nnPredict exQ_w1 exQ_w2 exQ_data = Ok labels /\ Forall (fun l => l < 2)%nat labels.
Proof.
  assert (Hw1 : has_shape 1 (2 + 1) exQ_w1) 
    by (split; [apply wf_matb_spec; vm_compute; reflexivity | split; reflexivity]).
  assert (Hw2 : has_shape 2 (1 + 1) exQ_w2) 
    by (split; [apply wf_matb_spec; vm_compute; reflexivity | split; reflexivity]).
  destruct (nnPredict_Ok_iff 2 1 2 exQ_w1 exQ_w2 exQ_data Hw1 Hw2 ltac:(lia)) as [Hiff Hrange].
  eexists. split; [vm_compute; reflexivity|].
  apply Hrange. vm_compute. reflexivity.
Defined.
