(* ===== verification/Calculus.v ===== *)
(** * Sums, dot products and derivatives over the real model

    The algebra of [vsum] and [dot] at the reals under Python's [l[i] = x]
    ([update_at]), and derivative rules ([derivable_pt_lim] of the Standard
    Library) for the shapes of expression the engine builds: a finite sum
    of differentiable terms, a squared error, [sigmoid] of a differentiable
    argument.  [Backprop] uses them to differentiate the loss of
    [nnObjFunction] in one parameter. *)

From Stdlib Require Import List Arith Lia Reals Lra.
From S2P Require Import Prelude Scalar Matrix Sigmoid Regularization Predict.
Import ListNotations.

Section Algebra.
Local Open Scope R_scope.

Lemma vsum_nil_R : vsum (@nil R) = 0.
Proof. reflexivity. Qed.

Lemma vsum_update (k : nat) (v : R) (l : list R) :
  (k < length l)%nat -> vsum (update_at k v l) = vsum l - nth k l 0 + v.
Proof.
  revert k; induction l as [|x l IH]; intros [|k] Hk; simpl in *; try lia;
    rewrite !vsum_cons_R; [ring|].
  rewrite IH by lia. ring.
Qed.

Lemma vsum_map_scale {A} (c : R) (f : A -> R) (l : list A) :
  vsum (map (fun x => c * f x) l) = c * vsum (map f l).
Proof. induction l as [|x l IH]; simpl; rewrite ?vsum_cons_R, ?IH; [rewrite !vsum_nil_R|]; ring. Qed.

Lemma vsum_map_ext {A} (f g : A -> R) (l : list A) :
  (forall x, In x l -> f x = g x) -> vsum (map f l) = vsum (map g l).
Proof. intros Hfg. f_equal. apply map_ext_in, Hfg. Qed.

Lemma dot_nil_l_R (v : list R) : dot [] v = 0.
Proof. reflexivity. Qed.

(** [np.dot] of two arrays of one length is the sum over their indices. *)
Lemma dot_seq (u v : list R) :
  length u = length v ->
  dot u v = vsum (map (fun k => nth k u 0 * nth k v 0) (seq 0 (length u))).
Proof.
  revert v; induction u as [|x u IH]; intros [|y v] Hl; simpl in *; try lia; [reflexivity|].
  rewrite dot_cons_R, vsum_cons_R, IH by lia. f_equal.
  rewrite <- seq_shift, map_map. reflexivity.
Qed.

Lemma dot_update_r (u r : list R) j t :
  length u = length r -> (j < length r)%nat ->
  dot u (update_at j t r) = dot u r + nth j u 0 * (t - nth j r 0).
Proof.
  revert r j; induction u as [|x u IH]; intros [|y r] [|j] Hl Hj; simpl in *; try lia;
    rewrite !dot_cons_R; [ring|].
  rewrite IH by lia. ring.
Qed.

Lemma dot_update_l (u r : list R) j t :
  length u = length r -> (j < length u)%nat ->
  dot (update_at j t u) r = dot u r + (t - nth j u 0) * nth j r 0.
Proof.
  intros Hl Hj. rewrite !(dot_comm_R _ r), dot_update_r by (rewrite ?Hl; lia). ring.
Qed.

Lemma dot_app_R (u1 u2 v1 v2 : list R) :
  length u1 = length v1 -> dot (u1 ++ u2) (v1 ++ v2) = dot u1 v1 + dot u2 v2.
Proof.
  revert v1; induction u1 as [|x u1 IH]; intros [|y v1] Hl; simpl in *; try lia.
  - rewrite dot_nil_l_R. ring.
  - rewrite !dot_cons_R, IH by lia. ring.
Qed.
End Algebra.

Section Derivatives.
Local Open Scope R_scope.

(** A finite sum of differentiable terms. *)
Lemma derivable_vsum {A} (ks : list A) (f : A -> R -> R) (d : A -> R) x :
  (forall k, In k ks -> derivable_pt_lim (f k) x (d k)) ->
  derivable_pt_lim (fun t => vsum (map (fun k => f k t) ks)) x (vsum (map d ks)).
Proof.
  induction ks as [|k ks IH]; intros Hd; simpl.
  - apply derivable_pt_lim_const.
  - apply derivable_pt_lim_ext with (f := (f k + fun t => vsum (map (fun k => f k t) ks))%F).
    { intros t. unfold plus_fct. rewrite vsum_cons_R. reflexivity. }
    rewrite vsum_cons_R. apply derivable_pt_lim_plus; [apply Hd; left; reflexivity|].
    apply IH. intros k' Hk'. apply Hd. right. exact Hk'.
Qed.

(** The squared error [(c - g t)^2]. *)
Lemma derivable_sq_err (c : R) (g : R -> R) x g' :
  derivable_pt_lim g x g' ->
  derivable_pt_lim (fun t => (c - g t) * (c - g t)) x (2 * (c - g x) * - g').
Proof.
  intros Hg.
  assert (H1 : derivable_pt_lim (fct_cte c - g)%F x (0 - g'))
    by (apply derivable_pt_lim_minus; [apply derivable_pt_lim_const | exact Hg]).
  pose proof (derivable_pt_lim_mult _ _ x _ _ H1 H1) as H2.
  apply derivable_pt_lim_ext with (f := ((fct_cte c - g) * (fct_cte c - g))%F); [intros t; reflexivity|].
  replace (2 * (c - g x) * - g')
    with ((0 - g') * (fct_cte c - g)%F x + (fct_cte c - g)%F x * (0 - g')) by (unfold minus_fct, fct_cte; ring).
  exact H2.
Qed.

(** [sigmoid] of a differentiable argument. *)
Lemma derivable_sigmoid_comp (g : R -> R) x g' :
  derivable_pt_lim g x g' ->
  derivable_pt_lim (fun t => sigmoid (g t)) x (sigmoid (g x) * (1 - sigmoid (g x)) * g').
Proof.
  intros Hg. exact (derivable_pt_lim_comp g (fun u => sigmoid u) x g' _ Hg (sigmoid_deriv (g x))).
Qed.

(** [a + b * (t - c)]. *)
Lemma derivable_affine (a b c x : R) : derivable_pt_lim (fun t => a + b * (t - c)) x b.
Proof.
  apply derivable_pt_lim_ext with (f := (fct_cte a + mult_real_fct b (id - fct_cte c))%F).
  { intros t. reflexivity. }
  replace b with (0 + b * (1 - 0)) at 2 by ring.
  apply derivable_pt_lim_plus; [apply derivable_pt_lim_const|].
  apply derivable_pt_lim_scal, derivable_pt_lim_minus; [apply derivable_pt_lim_id | apply derivable_pt_lim_const].
Qed.
(** [a + (g t - c) * b]: how a hidden unit enters an output unit. *)
Lemma derivable_affine_comp (a b c : R) (g : R -> R) x g' :
  derivable_pt_lim g x g' -> derivable_pt_lim (fun t => a + (g t - c) * b) x (g' * b).
Proof.
  intros Hg.
  apply derivable_pt_lim_ext with (f := (fct_cte a + (g - fct_cte c) * fct_cte b)%F); [intros t; reflexivity|].
  replace (g' * b) with (0 + ((g' - 0) * fct_cte b x + (g - fct_cte c)%F x * 0)) by (unfold fct_cte; ring).
  apply derivable_pt_lim_plus; [apply derivable_pt_lim_const|].
  apply derivable_pt_lim_mult; [|apply derivable_pt_lim_const].
  apply derivable_pt_lim_minus; [exact Hg | apply derivable_pt_lim_const].
Qed.
End Derivatives.
