(* ===== verification/Backprop.v ===== *)
(** * The gradient of [nnObjFunction] is the derivative of its loss

    Backpropagation (nnScript.py:163-179) computes, for every parameter,
    the partial derivative of the data term of the loss; lines 181-182 then
    add [lambdaval*w/N].  Over the reals this file proves that the loss
    [nnObjFunction] returns, seen as a function of any one parameter with
    the others fixed, is differentiable, and that its derivative is the
    returned gradient's entry plus [lambdaval * p / N]: the
    backpropagation of the data term is exact, and the only discrepancy is
    the regularisation term of [Regularization].

    The proof follows the code: a parameter is an entry [(r, c)] of [w1]
    or [w2] after the reshape of lines 139-140 ([reshape_update]); one
    iteration of the loop adds to [obj_val] an error whose derivative is
    twice the entry [(r, c)] of the gradient term it adds ([step_w1],
    [step_w2]); the loop sums them ([loop_deriv]); [finalize] divides by
    [2N] and [N]. *)

From Stdlib Require Import List Arith Lia ZArith Reals Lra.
From S2P Require Import Prelude Scalar Matrix Sigmoid Objective Regularization Predict Calculus.
Import ListNotations.

(** The entry [(r, c)] of a matrix, and the matrix with that entry set to
    [t]. *)
Definition entry {K} `{Scalar K} (m : mat K) (r c : nat) : K := nth c (nth r (mdata m) []) s_zero.

Definition mset {K} (m : mat K) (r c : nat) (t : K) : mat K :=
  Mat (mrows m) (mcols m) (update_at r (update_at c t (nth r (mdata m) [])) (mdata m)).

(** The loss [nnObjFunction] returns as a function of parameter [i], the
    others fixed: the function the gradient check of the specification
    differentiates. *)
Definition coord_loss (args : nn_args R) (params : list R) (i : nat) : R -> R :=
  fun t => loss args (update_at i t params).

Section Entries.
Context {K : Type} `{Scalar K}.

Lemma chunks_update C R (l : list K) r c t :
  r < R -> c < C -> R * C <= length l ->
  chunks C R (update_at (r * C + c) t l) = update_at r (update_at c t (nth r (chunks C R l) [])) (chunks C R l).
Proof.
  revert l r; induction R as [|R IH]; intros l r Hr Hc Hl; [lia|]. simpl.
  destruct r as [|r]; simpl.
  - rewrite firstn_update_at_lt, skipn_update_at_lt by lia. reflexivity.
  - replace (C + r * C + c) with (C + (r * C + c)) by lia.
    rewrite firstn_update_at_ge, skipn_update_at_ge by lia.
    replace (C + (r * C + c) - C) with (r * C + c) by lia.
    rewrite IH by (rewrite ?length_skipn; lia). reflexivity.
Qed.

(** Setting parameter [r * C + c] sets the entry [(r, c)] of the reshaped
    matrix. *)
Lemma reshape_update (l : list K) R C m r c t :
  reshape l R C = Ok m -> r < R -> c < C -> reshape (update_at (r * C + c) t l) R C = Ok (mset m r c t).
Proof.
  intros Hm Hr Hc. apply reshape_Ok in Hm as [Hl ->].
  unfold reshape. rewrite length_update_at, Hl, Nat.eqb_refl. unfold mset; simpl.
  rewrite chunks_update by lia. reflexivity.
Qed.

Lemma nth_concat_uniform (rows : list (list K)) C r c d :
  Forall (fun x => length x = C) rows -> r < length rows -> c < C ->
  nth (r * C + c) (concat rows) d = nth c (nth r rows []) d.
Proof.
  intros Hrows. revert r; induction Hrows as [|row rows Hrow _ IH]; intros [|r] Hr Hc; simpl in *; try lia.
  - apply app_nth1. lia.
  - rewrite app_nth2 by lia. replace (C + r * C + c - length row) with (r * C + c) by lia. apply IH; lia.
Qed.

Lemma nth_flatten R C (m : mat K) r c :
  has_shape R C m -> r < R -> c < C -> nth (r * C + c) (flatten m) s_zero = entry m r c.
Proof.
  intros ((Hr & Hc) & <- & <-) HrR HcC. unfold flatten, entry.
  apply nth_concat_uniform; [exact Hc | lia | exact HcC].
Qed.

Lemma has_shape_cast r c r' c' (m : mat K) : has_shape r c m -> r = r' -> c = c' -> has_shape r' c' m.
Proof. intros Hm <- <-. exact Hm. Qed.

Lemma target_of_label nc labels j l :
  nth_error labels j = Some l -> label_ok nc l -> exists y : list K, target nc labels j = Ok y.
Proof. intros Hl Hok. unfold target, label_at. rewrite Hl. cbn [bind]. apply one_hot_Ok, Hok. Qed.

Lemma mset_shape R C (m : mat K) r c t : has_shape R C m -> has_shape R C (mset m r c t).
Proof.
  intros ((Hr & Hc) & HR & HC). unfold mset. split; [split|]; simpl; auto.
  - rewrite length_update_at. exact Hr.
  - rewrite Forall_forall in *. intros x Hx.
    destruct (Nat.lt_ge_cases r (length (mdata m))) as [Hlt|Hge].
    + apply In_nth with (d := []) in Hx as (k & Hk & <-). rewrite length_update_at in Hk.
      rewrite nth_update_at by exact Hlt. destruct (Nat.eqb_spec r k) as [<-|_].
      * rewrite length_update_at. apply Hc, nth_In, Hlt.
      * apply Hc, nth_In, Hk.
    + rewrite update_at_ge in Hx by exact Hge. apply Hc, Hx.
Qed.
End Entries.

(** ** One iteration of the loop in closed form *)

Section Forward.
Local Open Scope sc_scope.

(** The quantities of lines 153-176 for weights [w1], [w2], a row and its
    one-hot target [y]. *)
Definition fwd_z1 (w1 : mat R) (row : list R) : list R :=
  map sigmoid (map (fun r => dot (row ++ [1]) r) (mdata w1)).

Definition fwd_z2 (w1 w2 : mat R) (row : list R) : list R :=
  map sigmoid (map (fun r => dot (fwd_z1 w1 row ++ [1]) r) (mdata w2)).

Definition fwd_err (w1 w2 : mat R) (row y : list R) : R :=
  vsum (map (fun d => d * d) (zipWith s_sub y (fwd_z2 w1 w2 row))).

Definition fwd_dell (w1 w2 : mat R) (row y : list R) : list R :=
  let z2 := fwd_z2 w1 w2 row in
  zipWith s_mul (zipWith s_mul (zipWith s_sub y z2) (map (fun z => 1 - z) z2)) z2.

Definition fwd_g2 (w1 w2 : mat R) (row y : list R) : mat R :=
  outer (map (fun d => s_opp 1 * d) (fwd_dell w1 w2 row y)) (fwd_z1 w1 row ++ [1]).

Definition fwd_back (w1 w2 : mat R) (row y : list R) : list R :=
  map (fun j => dot (fwd_dell w1 w2 row y) (col j (drop_last_col w2))) (seq 0 (mcols (drop_last_col w2))).

Definition fwd_g1 (w1 w2 : mat R) (row y : list R) : mat R :=
  let z1 := fwd_z1 w1 row in
  outer (zipWith s_mul (zipWith s_mul (map (fun z => 1 - z) z1) z1)
                 (map (fun x => s_opp 1 * x) (fwd_back w1 w2 row y)))
        (row ++ [1]).
End Forward.

Lemma fwd_z1_length (w1 : mat R) row : length (fwd_z1 w1 row) = length (mdata w1).
Proof. unfold fwd_z1. rewrite !length_map. reflexivity. Qed.

Lemma fwd_z2_length (w1 w2 : mat R) row : length (fwd_z2 w1 w2 row) = length (mdata w2).
Proof. unfold fwd_z2. rewrite !length_map. reflexivity. Qed.

(** Lines 151-179 when the shapes fit and the label is valid. *)
Lemma example_step_form ni nh nc labels (w1 w2 : mat R) j row st y :
  has_shape nh (ni + 1) w1 -> has_shape nc (nh + 1) w2 -> acc_shape ni nh nc st -> nh <> 0%nat ->
  length row = ni -> target nc labels j = Ok y ->
  example_step nc labels w1 w2 (drop_last_col w2) j row st =
  Ok (Acc (s_add (obj_val st) (fwd_err w1 w2 row y))
          (madd (grad_w1 st) (fwd_g1 w1 w2 row y)) (madd (grad_w2 st) (fwd_g2 w1 w2 row y))).
Proof.
  intros Hw1 Hw2 [((_ & _) & Hg1r & _) ((_ & _) & Hg2r & _)] Hnh Hrow Hy.
  pose proof Hw1 as ((Hr1 & Hc1) & HR1 & HC1). pose proof Hw2 as ((Hr2 & Hc2) & HR2 & HC2).
  pose proof (target_length _ _ _ _ Hy) as Hyl.
  destruct (target_Ok_inv _ _ _ _ Hy) as (l & _ & Hok). unfold label_ok in Hok.
  unfold example_step.
  rewrite vdot_transpose by (first [exact (conj Hr1 Hc1) | rewrite length_app, Hrow, HC1; reflexivity]).
  cbn [bind]. rewrite vdot_transpose
    by (first [exact (conj Hr2 Hc2) | rewrite length_app, length_map, length_map, HC2; simpl; lia]).
  cbn [bind]. rewrite Hy. cbn [bind].
  rewrite (acc_iadd_Ok (grad_w2 st)) by (rewrite Hg2r; lia). cbn [bind].
  unfold vdot at 1. cbn [mrows drop_last_col].
  rewrite !length_zipWith, !length_map, Hyl, Hr2, HR2, !Nat.min_id, Nat.eqb_refl. cbn [bind].
  rewrite acc_iadd_Ok by (rewrite Hg1r; exact Hnh). reflexivity.
Qed.

(** ** The loop sums the derivatives of its iterations *)

Section LoopDeriv.
Local Open Scope R_scope.
Variables (ni nh nc : nat) (labels : list Z) (W1 W2 : R -> mat R) (proj : acc R -> R) (x : R).
Hypothesis HW1 : forall t, has_shape nh (ni + 1) (W1 t).
Hypothesis HW2 : forall t, has_shape nc (nh + 1) (W2 t).

(** Each iteration adds to [obj_val] an error [E] and to the tracked
    gradient entry a term [T] with [E' = 2 T]. *)
Hypothesis step_form : forall j row, length row = ni -> (exists l, nth_error labels j = Some l /\ label_ok nc l) ->
  exists E T : R -> R, derivable_pt_lim E x (2 * T x) /\
    forall t st, acc_shape ni nh nc st ->
      exists st', example_step nc labels (W1 t) (W2 t) (drop_last_col (W2 t)) j row st = Ok st' /\
        obj_val st' = obj_val st + E t /\ proj st' = proj st + T t.

Lemma loop_deriv rows : forall j (St : R -> acc R) d,
  Forall (fun r => length r = ni) rows -> labels_ok nc labels j (length rows) ->
  (forall t, acc_shape ni nh nc (St t)) ->
  derivable_pt_lim (fun t => obj_val (St t)) x d ->
  exists F : R -> acc R,
    (forall t, train_loop nc labels (W1 t) (W2 t) (drop_last_col (W2 t)) j rows (St t) = Ok (F t)) /\
    derivable_pt_lim (fun t => obj_val (F t)) x (d + 2 * (proj (F x) - proj (St x))).
Proof.
  induction rows as [|row rows IH]; intros j St d Hrows Hlab HS Hd.
  - exists St. split; [reflexivity|]. replace (d + 2 * (proj (St x) - proj (St x))) with d by ring. exact Hd.
  - apply Forall_cons_iff in Hrows as [Hrow Hrows'].
    cbn [length] in Hlab. apply labels_ok_cons in Hlab as [Hl Hlab].
    destruct (step_form j row Hrow Hl) as (E & T & HE & Hst).
    set (St' := fun t => match example_step nc labels (W1 t) (W2 t) (drop_last_col (W2 t)) j row (St t) with
                        | Ok s => s | Err _ => St t end).
    assert (HS' : forall t, example_step nc labels (W1 t) (W2 t) (drop_last_col (W2 t)) j row (St t) = Ok (St' t) /\
                  obj_val (St' t) = obj_val (St t) + E t /\ proj (St' t) = proj (St t) + T t).
    { intros t. destruct (Hst t (St t) (HS t)) as (st' & H1 & H2 & H3). unfold St'. rewrite H1. auto. }
    assert (HS'shape : forall t, acc_shape ni nh nc (St' t))
      by (intros t; eapply example_step_shape; [apply HW1 | apply HW2 | apply HS | apply HS']).
    assert (Hd' : derivable_pt_lim (fun t => obj_val (St' t)) x (d + 2 * T x)).
    { apply derivable_pt_lim_ext with (f := ((fun t => obj_val (St t)) + E)%F).
      - intros t. unfold plus_fct. symmetry. apply HS'.
      - apply derivable_pt_lim_plus; assumption. }
    destruct (IH (S j) St' _ Hrows' Hlab HS'shape Hd') as (F & HF & HdF).
    exists F. split.
    + intros t. simpl. rewrite (proj1 (HS' t)). cbn [bind]. apply HF.
    + replace (d + 2 * (proj (F x) - proj (St x))) with (d + 2 * T x + 2 * (proj (F x) - proj (St' x)))
        by (rewrite (proj2 (proj2 (HS' x))); ring).
      exact HdF.
Qed.
End LoopDeriv.

(** ** Entries *)

Section EntryLemmas.
Local Open Scope R_scope.

Lemma entry_outer (u v : list R) k c :
  (k < length u)%nat -> (c < length v)%nat -> entry (outer u v) k c = nth k u 0 * nth c v 0.
Proof.
  intros Hk Hc. unfold entry, outer; cbn [mdata].
  rewrite (nth_map_lt _ _ 0 []) by exact Hk. rewrite (nth_map_lt _ _ 0 0) by exact Hc. reflexivity.
Qed.

Lemma entry_madd nr ncol (a b : mat R) k c :
  has_shape nr ncol a -> has_shape nr ncol b -> (k < nr)%nat -> (c < ncol)%nat ->
  entry (madd a b) k c = entry a k c + entry b k c.
Proof.
  intros ((Hra & Hca) & <- & <-) ((Hrb & Hcb) & Er & Ec) Hk Hc. unfold entry, madd; cbn [mdata].
  rewrite (nth_zipWith _ _ _ _ [] [] []) by lia.
  rewrite Forall_forall in Hca, Hcb.
  rewrite (nth_zipWith _ _ _ _ 0 0 0); [reflexivity| |];
    [rewrite Hca | rewrite Hcb]; try (apply nth_In; lia); lia.
Qed.

Lemma mset_entry (m : mat R) r c : mset m r c (entry m r c) = m.
Proof.
  destruct m as [r0 c0 d]. unfold mset, entry; cbn [mdata mrows mcols].
  rewrite !update_at_nth_same. reflexivity.
Qed.

Lemma nth_fwd_z1 (w1 : mat R) row r :
  (r < length (mdata w1))%nat ->
  nth r (fwd_z1 w1 row) 0 = sigmoid (dot (row ++ [1]) (nth r (mdata w1) [])).
Proof.
  intros Hr. unfold fwd_z1. rewrite (nth_map_lt _ _ 0 0) by (rewrite length_map; exact Hr).
  rewrite (nth_map_lt _ _ [] 0) by exact Hr. reflexivity.
Qed.

Lemma nth_fwd_z2 (w1 w2 : mat R) row k :
  (k < length (mdata w2))%nat ->
  nth k (fwd_z2 w1 w2 row) 0 = sigmoid (dot (fwd_z1 w1 row ++ [1]) (nth k (mdata w2) [])).
Proof.
  intros Hk. unfold fwd_z2. rewrite (nth_map_lt _ _ 0 0) by (rewrite length_map; exact Hk).
  rewrite (nth_map_lt _ _ [] 0) by exact Hk. reflexivity.
Qed.

Lemma nth_fwd_dell (w1 w2 : mat R) row y k :
  length y = length (mdata w2) -> (k < length y)%nat ->
  nth k (fwd_dell w1 w2 row y) 0 =
  (nth k y 0 - nth k (fwd_z2 w1 w2 row) 0) * (1 - nth k (fwd_z2 w1 w2 row) 0) * nth k (fwd_z2 w1 w2 row) 0.
Proof.
  intros Hl Hk. pose proof (fwd_z2_length w1 w2 row) as Hz. unfold fwd_dell.
  rewrite !(nth_zipWith _ _ _ _ 0 0 0), (nth_map_lt _ _ 0 0); sc_R; try reflexivity;
    rewrite ?length_zipWith, ?length_map, ?Hz, ?Hl, ?Nat.min_id; lia.
Qed.
(** [fwd_err] as a sum over the output units. *)
Lemma fwd_err_seq (w1 w2 : mat R) row y :
  length y = length (mdata w2) ->
  fwd_err w1 w2 row y =
    vsum (map (fun k => (nth k y 0 - sigmoid (dot (fwd_z1 w1 row ++ [1]) (nth k (mdata w2) [])))
                        * (nth k y 0 - sigmoid (dot (fwd_z1 w1 row ++ [1]) (nth k (mdata w2) []))))
              (seq 0 (length y))).
Proof.
  intros Hl. unfold fwd_err. rewrite (zipWith_seq _ _ _ 0 0) by (rewrite fwd_z2_length; exact Hl).
  rewrite map_map. apply vsum_map_ext. intros k Hk. apply in_seq in Hk.
  rewrite nth_fwd_z2 by lia. reflexivity.
Qed.

Lemma col_drop_last_col nc nh (w2 : mat R) r k :
  has_shape nc (nh + 1) w2 -> (r < nh)%nat -> (k < nc)%nat ->
  nth k (col r (drop_last_col w2)) 0 = nth r (nth k (mdata w2) []) 0.
Proof.
  intros ((Hr2 & Hc2) & HR2 & HC2) Hr Hk. unfold col, drop_last_col; cbn [mdata].
  rewrite Forall_forall in Hc2.
  assert (Hrow : length (nth k (mdata w2) []) = mcols w2) by (apply Hc2, nth_In; lia).
  rewrite (nth_map_lt _ _ [] 0) by (rewrite length_map; lia).
  rewrite (nth_map_lt _ _ [] []) by lia. rewrite HC2, Nat.add_sub.
  rewrite <- (firstn_skipn nh (nth k (mdata w2) [])) at 2.
  rewrite app_nth1; [reflexivity|]. rewrite length_firstn. lia.
Qed.

(** Line 173: the error sent back to hidden unit [r]. *)
Lemma nth_fwd_back nc nh (w1 w2 : mat R) row y r :
  has_shape nc (nh + 1) w2 -> length y = nc -> (r < nh)%nat ->
  nth r (fwd_back w1 w2 row y) 0 =
    vsum (map (fun k => nth k (fwd_dell w1 w2 row y) 0 * nth r (nth k (mdata w2) []) 0) (seq 0 nc)).
Proof.
  intros Hw2 Hy Hr. pose proof Hw2 as ((Hr2 & _) & HR2 & HC2).
  assert (Hd : length (fwd_dell w1 w2 row y) = nc)
    by (unfold fwd_dell; rewrite !length_zipWith, length_map, fwd_z2_length; lia).
  unfold fwd_back. cbn [mcols drop_last_col]. rewrite HC2, Nat.add_sub.
  rewrite (nth_map_lt _ _ 0%nat 0) by (rewrite length_seq; exact Hr). rewrite seq_nth by exact Hr.
  rewrite dot_seq by (rewrite length_col; cbn [mdata drop_last_col]; rewrite length_map; lia).
  rewrite Hd. apply vsum_map_ext. intros k Hk. apply in_seq in Hk.
  rewrite (col_drop_last_col nc nh) by (auto; lia). reflexivity.
Qed.

(** Setting the entry [(r, c)] of [w1] changes hidden unit [r] only. *)
Lemma fwd_z1_mset (w1 : mat R) row r c t :
  length (nth r (mdata w1) []) = (length row + 1)%nat -> (c < length row + 1)%nat ->
  fwd_z1 (mset w1 r c t) row =
    update_at r (sigmoid (dot (row ++ [1]) (nth r (mdata w1) []) + nth c (row ++ [1]) 0 * (t - entry w1 r c)))
      (fwd_z1 w1 row).
Proof.
  intros Hl Hc. unfold fwd_z1, mset; cbn [mdata]. rewrite !map_update_at.
  rewrite dot_update_r by (rewrite ?length_app, ?Hl; simpl; lia). reflexivity.
Qed.
End EntryLemmas.

Lemma fwd_g2_shape ni nh nc (w1 w2 : mat R) row y :
  has_shape nh (ni + 1) w1 -> has_shape nc (nh + 1) w2 -> length y = nc ->
  has_shape nc (nh + 1) (fwd_g2 w1 w2 row y).
Proof.
  intros ((Hr1 & _) & HR1 & _) ((Hr2 & _) & HR2 & _) Hy. unfold fwd_g2.
  eapply has_shape_cast; [apply outer_shape| |]; unfold fwd_dell;
    rewrite ?length_app, ?length_map, ?length_zipWith, ?length_map, ?fwd_z2_length, ?fwd_z1_length;
    simpl; lia.
Qed.

Lemma fwd_g1_shape ni nh nc (w1 w2 : mat R) row y :
  has_shape nh (ni + 1) w1 -> has_shape nc (nh + 1) w2 -> length row = ni ->
  has_shape nh (ni + 1) (fwd_g1 w1 w2 row y).
Proof.
  intros ((Hr1 & _) & HR1 & _) Hw2 Hrow. pose proof (drop_last_col_shape _ _ _ Hw2) as (_ & _ & Hc).
  unfold fwd_g1, fwd_back.
  eapply has_shape_cast; [apply outer_shape| |];
    rewrite ?length_app, ?length_map, ?length_zipWith, ?length_map, ?length_seq, ?fwd_z1_length, ?Hc;
    simpl; lia.
Qed.

(** ** One iteration, differentiated in an entry of [w2] *)

Section StepW2.
Local Open Scope R_scope.

Lemma fwd_err_mset_w2 (w1 w2 : mat R) row y k c t :
  length y = length (mdata w2) -> (k < length y)%nat ->
  length (nth k (mdata w2) []) = length (fwd_z1 w1 row ++ [1]) -> (c < length (nth k (mdata w2) []))%nat ->
  fwd_err w1 (mset w2 k c t) row y =
    fwd_err w1 w2 row y - (nth k y 0 - nth k (fwd_z2 w1 w2 row) 0) * (nth k y 0 - nth k (fwd_z2 w1 w2 row) 0)
    + (nth k y 0 - sigmoid (dot (fwd_z1 w1 row ++ [1]) (nth k (mdata w2) [])
                            + nth c (fwd_z1 w1 row ++ [1]) 0 * (t - entry w2 k c)))
    * (nth k y 0 - sigmoid (dot (fwd_z1 w1 row ++ [1]) (nth k (mdata w2) [])
                            + nth c (fwd_z1 w1 row ++ [1]) 0 * (t - entry w2 k c))).
Proof.
  intros Hy Hk Hrow Hc. pose proof (fwd_z2_length w1 w2 row) as Hz.
  assert (Hz2 : fwd_z2 w1 (mset w2 k c t) row =
                update_at k (sigmoid (dot (fwd_z1 w1 row ++ [1]) (update_at c t (nth k (mdata w2) []))))
                  (fwd_z2 w1 w2 row))
    by (unfold fwd_z2, mset; cbn [mdata]; rewrite !map_update_at; reflexivity).
  unfold fwd_err. rewrite Hz2, (zipWith_update_at_r _ _ _ _ _ 0) by exact Hk.
  rewrite map_update_at, vsum_update by (rewrite length_map, length_zipWith, Hz, Hy, Nat.min_id; lia).
  rewrite dot_update_r by (first [symmetry; exact Hrow | exact Hc]).
  rewrite (nth_map_lt _ _ 0 0) by (rewrite length_zipWith, Hz, Hy, Nat.min_id; lia).
  rewrite (nth_zipWith _ _ _ _ 0 0 0) by (rewrite ?Hz; lia).
  unfold entry. sc_R. ring.
Qed.

(** The error of one example as a function of the entry [(k, c)] of [w2]
    has derivative twice the entry [(k, c)] of [grad_w2_temp] (line 170). *)
Lemma err_deriv_w2 ni nh nc (w1 w2 : mat R) row y k c :
  has_shape nh (ni + 1) w1 -> has_shape nc (nh + 1) w2 -> length row = ni -> length y = nc ->
  (k < nc)%nat -> (c < nh + 1)%nat ->
  derivable_pt_lim (fun t => fwd_err w1 (mset w2 k c t) row y) (entry w2 k c)
    (2 * entry (fwd_g2 w1 w2 row y) k c).
Proof.
  intros Hw1 Hw2 Hrow Hy Hk Hc. pose proof Hw2 as ((Hr2 & Hc2) & HR2 & HC2).
  pose proof Hw1 as ((Hr1 & _) & HR1 & _).
  assert (Hrowk : length (nth k (mdata w2) []) = (nh + 1)%nat)
    by (rewrite Forall_forall in Hc2; rewrite Hc2, HC2 by (apply nth_In; lia); reflexivity).
  assert (Hz1b : length (fwd_z1 w1 row ++ [1]) = (nh + 1)%nat)
    by (rewrite length_app, fwd_z1_length, Hr1, HR1; reflexivity).
  set (z1b := fwd_z1 w1 row ++ [1]).
  set (a := dot z1b (nth k (mdata w2) [])). set (b := nth c z1b 0).
  set (yk := nth k y 0). set (z2k := nth k (fwd_z2 w1 w2 row) 0).
  apply derivable_pt_lim_ext with
    (f := (fct_cte (fwd_err w1 w2 row y - (yk - z2k) * (yk - z2k))%R
           + (fun t => (yk - sigmoid (a + b * (t - entry w2 k c))) * (yk - sigmoid (a + b * (t - entry w2 k c))))%R)%F).
  { intros t. unfold plus_fct, fct_cte. symmetry. apply fwd_err_mset_w2; lia. }
  assert (Hz2k : z2k = sigmoid a) by (apply nth_fwd_z2; lia).
  unfold fwd_g2. rewrite entry_outer
    by (unfold fwd_dell, z1b;
        rewrite ?length_app, ?length_map, ?length_zipWith, ?length_map, ?fwd_z2_length, ?fwd_z1_length; simpl; lia).
  rewrite (nth_map_lt _ _ 0 0) by (unfold fwd_dell; rewrite !length_zipWith, !length_map, fwd_z2_length; lia).
  rewrite nth_fwd_dell by lia. fold yk z2k z1b b.
  replace (2 * (s_opp 1 * ((yk - z2k) * (1 - z2k) * z2k) * b))
    with (0 + 2 * (yk - sigmoid (a + b * (entry w2 k c - entry w2 k c))) *
          - (sigmoid (a + b * (entry w2 k c - entry w2 k c)) *
             (1 - sigmoid (a + b * (entry w2 k c - entry w2 k c))) * b))
    by (rewrite Rminus_diag, Rmult_0_r, Rplus_0_r, <- Hz2k; sc_R; ring).
  apply derivable_pt_lim_plus; [apply derivable_pt_lim_const|].
  apply (derivable_sq_err yk (fun t => sigmoid (a + b * (t - entry w2 k c)))).
  apply (derivable_sigmoid_comp (fun t => a + b * (t - entry w2 k c))), derivable_affine.
Qed.
(** One iteration in the form [loop_deriv] sums, for the entry [(k, c)]
    of [w2]. *)
Lemma step_w2 ni nh nc labels (w1 w2 : mat R) k c :
  has_shape nh (ni + 1) w1 -> has_shape nc (nh + 1) w2 -> nh <> 0%nat -> (k < nc)%nat -> (c < nh + 1)%nat ->
  forall j row, length row = ni -> (exists l, nth_error labels j = Some l /\ label_ok nc l) ->
  exists E T : R -> R, derivable_pt_lim E (entry w2 k c) (2 * T (entry w2 k c)) /\
    forall t st, acc_shape ni nh nc st ->
      exists st', example_step nc labels w1 (mset w2 k c t) (drop_last_col (mset w2 k c t)) j row st = Ok st' /\
        obj_val st' = obj_val st + E t /\ entry (grad_w2 st') k c = entry (grad_w2 st) k c + T t.
Proof.
  intros Hw1 Hw2 Hnh Hk Hc j row Hrow (l & Hl & Hok).
  destruct (target_of_label (K:=R) nc labels j l Hl Hok) as [y Hy]. pose proof (target_length _ _ _ _ Hy) as Hyl.
  exists (fun t => fwd_err w1 (mset w2 k c t) row y), (fun t => entry (fwd_g2 w1 (mset w2 k c t) row y) k c).
  split; [cbv beta; rewrite mset_entry; eapply err_deriv_w2; eauto|].
  intros t st Hst. pose proof Hst as [Hg1 Hg2]. pose proof (mset_shape _ _ w2 k c t Hw2) as Hw2t.
  rewrite (example_step_form ni nh nc labels w1 _ j row st y Hw1 Hw2t Hst Hnh Hrow Hy).
  eexists; split; [reflexivity|]. split; [reflexivity|]. cbn [grad_w2].
  apply (entry_madd nc (nh + 1)); [exact Hg2 | eapply fwd_g2_shape; eauto | exact Hk | exact Hc].
Qed.
End StepW2.

(** ** One iteration, differentiated in an entry of [w1] *)

Section StepW1.
Local Open Scope R_scope.

(** The error of one example as a function of the entry [(r, c)] of [w1]
    has derivative twice the entry [(r, c)] of [grad_w1_temp] (lines
    172-176): the chain rule through hidden unit [r] and every output unit. *)
Lemma err_deriv_w1 ni nh nc (w1 w2 : mat R) row y r c :
  has_shape nh (ni + 1) w1 -> has_shape nc (nh + 1) w2 -> length row = ni -> length y = nc ->
  (r < nh)%nat -> (c < ni + 1)%nat ->
  derivable_pt_lim (fun t => fwd_err (mset w1 r c t) w2 row y) (entry w1 r c)
    (2 * entry (fwd_g1 w1 w2 row y) r c).
Proof.
  intros Hw1 Hw2 Hrow Hy Hr Hc. pose proof Hw1 as ((Hr1 & Hc1) & HR1 & HC1).
  pose proof Hw2 as ((Hr2 & Hc2) & HR2 & HC2). rewrite Forall_forall in Hc1, Hc2.
  assert (Hrowr : length (nth r (mdata w1) []) = (length row + 1)%nat)
    by (rewrite Hc1, HC1 by (apply nth_In; lia); lia).
  assert (Hz1 : length (fwd_z1 w1 row) = nh) by (rewrite fwd_z1_length; lia).
  set (e := entry w1 r c). set (xc := nth c (row ++ [1]) 0).
  set (a1 := dot (row ++ [1]) (nth r (mdata w1) [])).
  set (z1r := nth r (fwd_z1 w1 row ++ [1]) 0).
  set (s := fun t => sigmoid (a1 + xc * (t - e))).
  set (A := fun k => dot (fwd_z1 w1 row ++ [1]) (nth k (mdata w2) [])).
  set (W := fun k => nth r (nth k (mdata w2) []) 0).
  assert (Hs : s e = z1r).
  { unfold s, z1r. rewrite Rminus_diag, Rmult_0_r, Rplus_0_r, app_nth1 by lia.
    rewrite nth_fwd_z1 by lia. reflexivity. }
  pose (F := fun k t => (nth k y 0 - sigmoid (A k + (s t - z1r) * W k)) *
                        (nth k y 0 - sigmoid (A k + (s t - z1r) * W k))).
  pose (d := fun k => 2 * (nth k y 0 - sigmoid (A k)) *
                      - (sigmoid (A k) * (1 - sigmoid (A k)) * (z1r * (1 - z1r) * xc * W k))).
  apply derivable_pt_lim_ext with (f := fun t => vsum (map (fun k => F k t) (seq 0 nc))).
  { intros t. rewrite fwd_err_seq by lia. rewrite Hy. apply vsum_map_ext. intros k Hk. apply in_seq in Hk.
    assert (Hrowk : length (nth k (mdata w2) []) = (nh + 1)%nat) by (rewrite Hc2, HC2 by (apply nth_In; lia); lia).
    rewrite fwd_z1_mset, <- update_at_app_l, dot_update_l by (rewrite ?length_app; simpl; lia).
    reflexivity. }
  replace (2 * entry (fwd_g1 w1 w2 row y) r c) with (vsum (map d (seq 0 nc))).
  - apply derivable_vsum. intros k _.
    assert (Hs' : derivable_pt_lim s e (z1r * (1 - z1r) * xc)).
    { rewrite <- Hs. exact (derivable_sigmoid_comp (fun t => a1 + xc * (t - e)) e xc (derivable_affine a1 xc e e)). }
    pose proof (derivable_sq_err (nth k y 0) _ e _
                  (derivable_sigmoid_comp _ e _ (derivable_affine_comp (A k) (W k) z1r s e _ Hs'))) as Hk.
    cbv beta in Hk. rewrite Hs, Rminus_diag, Rmult_0_l, Rplus_0_r in Hk.
    exact Hk.
  - assert (Hd : map d (seq 0 nc) =
                 map (fun k => -2 * z1r * (1 - z1r) * xc *
                               (nth k (fwd_dell w1 w2 row y) 0 * nth r (nth k (mdata w2) []) 0)) (seq 0 nc)).
    { apply map_ext_in. intros k Hk. apply in_seq in Hk. unfold d, A.
      rewrite nth_fwd_dell, nth_fwd_z2 by lia. unfold W; ring. }
    pose proof (drop_last_col_shape _ _ _ Hw2) as (_ & _ & Hdc).
    unfold fwd_g1. rewrite entry_outer
      by (unfold fwd_back; rewrite ?length_app, ?length_map, ?length_zipWith, ?length_map, ?length_seq, ?Hdc;
          simpl; lia).
    rewrite (nth_zipWith _ _ _ _ 0 0 0), (nth_zipWith _ _ _ _ 0 0 0), !(nth_map_lt _ _ 0 0)
      by (unfold fwd_back; rewrite ?length_map, ?length_zipWith, ?length_map, ?length_seq, ?Hdc; lia).
    rewrite (nth_fwd_back nc nh) by auto. rewrite Hd, vsum_map_scale.
    unfold z1r, xc. rewrite app_nth1 by lia. sc_R. ring.
Qed.

(** One iteration in the form [loop_deriv] sums, for the entry [(r, c)]
    of [w1]. *)
Lemma step_w1 ni nh nc labels (w1 w2 : mat R) r c :
  has_shape nh (ni + 1) w1 -> has_shape nc (nh + 1) w2 -> (r < nh)%nat -> (c < ni + 1)%nat ->
  forall j row, length row = ni -> (exists l, nth_error labels j = Some l /\ label_ok nc l) ->
  exists E T : R -> R, derivable_pt_lim E (entry w1 r c) (2 * T (entry w1 r c)) /\
    forall t st, acc_shape ni nh nc st ->
      exists st', example_step nc labels (mset w1 r c t) w2 (drop_last_col w2) j row st = Ok st' /\
        obj_val st' = obj_val st + E t /\ entry (grad_w1 st') r c = entry (grad_w1 st) r c + T t.
Proof.
  intros Hw1 Hw2 Hr Hc j row Hrow (l & Hl & Hok).
  destruct (target_of_label (K:=R) nc labels j l Hl Hok) as [y Hy]. pose proof (target_length _ _ _ _ Hy) as Hyl.
  exists (fun t => fwd_err (mset w1 r c t) w2 row y), (fun t => entry (fwd_g1 (mset w1 r c t) w2 row y) r c).
  split; [cbv beta; rewrite mset_entry; eapply err_deriv_w1; eauto|].
  intros t st Hst. pose proof Hst as [Hg1 Hg2]. pose proof (mset_shape _ _ w1 r c t Hw1) as Hw1t.
  rewrite (example_step_form ni nh nc labels _ w2 j row st y Hw1t Hw2 Hst ltac:(lia) Hrow Hy).
  eexists; split; [reflexivity|]. split; [reflexivity|]. cbn [grad_w1].
  apply (entry_madd nh (ni + 1)); [exact Hg1 | eapply fwd_g1_shape; eauto | exact Hr | exact Hc].
Qed.
End StepW1.

(** ** From one iteration to [nnObjFunction] *)

Section Finalize.
Local Open Scope R_scope.

Local Ltac flen := rewrite ?length_app, ?length_map, ?length_zipWith, ?length_map, ?length_app; lia.

Lemma entry_zeros nr ncol r c : entry (zeros nr ncol) r c = 0.
Proof.
  unfold entry, zeros; cbn [mdata]. destruct (Nat.lt_ge_cases r nr) as [Hr|Hr].
  - rewrite nth_repeat_lt by exact Hr. destruct (Nat.lt_ge_cases c ncol) as [Hc|Hc].
    + apply nth_repeat_lt, Hc.
    + apply nth_overflow. rewrite repeat_length. exact Hc.
  - rewrite (nth_overflow _ []) by (rewrite repeat_length; exact Hr). destruct c; reflexivity.
Qed.

(** With [lambdaval = 0], entry [i] of the gradient of lines 181-189 is
    entry [i] of the accumulated gradients over [N]. *)
Lemma finalize0_grad_nth ni nh nc (w1 w2 : mat R) (st : acc R) N i :
  has_shape nh (ni + 1) w1 -> has_shape nc (nh + 1) w2 -> acc_shape ni nh nc st ->
  (i < length (flatten w1 ++ flatten w2))%nat ->
  nth i (flatten (mdiv (madd (grad_w1 st) (mscale 0 w1)) (INR N)) ++
         flatten (mdiv (madd (grad_w2 st) (mscale 0 w2)) (INR N))) 0 =
  nth i (flatten (grad_w1 st) ++ flatten (grad_w2 st)) 0 / INR N.
Proof.
  intros Hw1 Hw2 [Hg1 Hg2] Hi.
  rewrite !flatten_mdiv, (flatten_madd nh (ni + 1)), (flatten_madd nc (nh + 1)), !flatten_mscale
    by eauto with nn.
  assert (L1 : length (flatten (grad_w1 st)) = (nh * (ni + 1))%nat) by (eapply length_flatten_shape; eauto).
  assert (L2 : length (flatten (grad_w2 st)) = (nc * (nh + 1))%nat) by (eapply length_flatten_shape; eauto).
  pose proof (length_flatten_shape _ _ _ Hw1) as L3. pose proof (length_flatten_shape _ _ _ Hw2) as L4.
  rewrite length_app, L3, L4 in Hi.
  rewrite <- map_app, <- zipWith_app by flen.
  rewrite <- map_app, (nth_map_lt _ _ 0 0) by flen.
  rewrite (nth_zipWith _ _ _ _ 0 0 0) by flen.
  rewrite (nth_map_lt _ _ 0 0) by flen.
  sc_R. unfold Rdiv. ring.
Qed.
End Finalize.

(** The derivative of the loss at [lambdaval = 0] in parameter [i], given
    the matrices [W1 t], [W2 t] the reshape gives when parameter [i] is
    [t], and an iteration whose derivative is twice the term it adds to
    the gradient entry [proj] that parameter [i] becomes. *)
Section DataDeriv.
Local Open Scope R_scope.
Variables (ni nh nc : nat) (data : list (list R)) (labels : list Z) (params : list R) (i : nat) (x : R).
Variables (W1 W2 : R -> mat R) (proj : acc R -> R).

Hypothesis HW : forall t,
  reshape (slice 0 (nh * (ni + 1)) (update_at i t params)) nh (ni + 1) = Ok (W1 t) /\
  reshape (skipn (nh * (ni + 1)) (update_at i t params)) nc (nh + 1) = Ok (W2 t).
Hypothesis Hx : nth i params 0 = x.
Hypothesis Hi : (i < length params)%nat.
Hypothesis Hne : data <> [].
Hypothesis Hnh : nh <> 0%nat.
Hypothesis Hrows : Forall (fun r => length r = ni) data.
Hypothesis Hlab : labels_ok nc labels 0 (length data).
Hypothesis Hstep : forall j row, length row = ni -> (exists l, nth_error labels j = Some l /\ label_ok nc l) ->
  exists E T : R -> R, derivable_pt_lim E x (2 * T x) /\
    forall t st, acc_shape ni nh nc st ->
      exists st', example_step nc labels (W1 t) (W2 t) (drop_last_col (W2 t)) j row st = Ok st' /\
        obj_val st' = obj_val st + E t /\ proj st' = proj st + T t.
Hypothesis Hproj0 : proj (Acc 0 (zeros nh (ni + 1)) (zeros nc (nh + 1))) = 0.
Hypothesis Hprojg : forall st, acc_shape ni nh nc st ->
  nth i (flatten (grad_w1 st) ++ flatten (grad_w2 st)) 0 = proj st.

Lemma data_deriv :
  derivable_pt_lim (coord_loss (NnArgs ni nh nc data labels 0) params i) x
    (nth i (gradient (NnArgs ni nh nc data labels 0) params) 0).
Proof.
  set (St := fun _ : R => Acc 0 (zeros nh (ni + 1)) (zeros nc (nh + 1))).
  assert (HW1 : forall t, has_shape nh (ni + 1) (W1 t)) by (intros t; apply (reshape_shape _ _ _ _ (proj1 (HW t)))).
  assert (HW2 : forall t, has_shape nc (nh + 1) (W2 t)) by (intros t; apply (reshape_shape _ _ _ _ (proj2 (HW t)))).
  destruct (loop_deriv ni nh nc labels W1 W2 proj x HW1 HW2 Hstep data 0 St 0 Hrows Hlab
              (fun _ => acc_shape_init _ _ _) (derivable_pt_lim_const 0 x)) as (F & HF & HdF).
  assert (HN : length data <> 0%nat) by (destruct data; [congruence | discriminate]).
  assert (Hnc : nc <> 0%nat).
  { destruct data as [|row rows]; [congruence|].
    destruct (Hlab 0%nat ltac:(simpl; lia)) as (l & _ & Hok). unfold label_ok in Hok. lia. }
  assert (HFs : forall t, acc_shape ni nh nc (F t))
    by (intros t; exact (train_loop_shape ni nh nc labels (W1 t) (W2 t) data 0 (St t) _
                           (HW1 t) (HW2 t) (acc_shape_init _ _ _) (HF t))).
  assert (Hobj : forall t, nnObjFunction (update_at i t params) (NnArgs ni nh nc data labels 0) =
                           finalize 0 (W1 t) (W2 t) (length data) (F t)).
  { intros t. unfold nnObjFunction; cbn [n_input n_hidden n_class training_data training_label lambdaval].
    rewrite (proj1 (HW t)), (proj2 (HW t)); cbn [bind]. unfold St in HF. cbv zeta. sc_R. rewrite (HF t). reflexivity. }
  assert (Hupd : update_at i x params = params) by (rewrite <- Hx; apply update_at_nth_same).
  assert (Hgrad : nth i (gradient (NnArgs ni nh nc data labels 0) params) 0 = proj (F x) / INR (length data)).
  { pose proof (Hobj x) as Hx'. rewrite Hupd in Hx'. unfold gradient. rewrite Hx'.
    rewrite (finalize_eq ni nh nc) by auto. cbn [snd].
    pose proof (HW x) as [H1 H2]. rewrite Hupd in H1, H2.
    rewrite (finalize0_grad_nth ni nh nc), Hprojg by
      (auto; rewrite (flatten_reshape _ _ _ _ H1), (flatten_reshape _ _ _ _ H2), slice_0_skipn; exact Hi).
    reflexivity. }
  rewrite Hgrad.
  apply derivable_pt_lim_ext with (f := mult_real_fct (/ INR (2 * length data)) (fun t => obj_val (F t))).
  { intros t. unfold coord_loss, loss, mult_real_fct. rewrite Hobj, (finalize_eq ni nh nc) by auto.
    cbn [fst]. sc_R. unfold Rdiv. ring. }
  replace (proj (F x) / INR (length data)) with (/ INR (2 * length data) * (0 + 2 * (proj (F x) - proj (St x)))).
  - apply derivable_pt_lim_scal, HdF.
  - unfold St. rewrite Hproj0, mult_INR. pose proof (not_0_INR _ HN). simpl INR. field. exact H.
Qed.
End DataDeriv.

Section ParamSplit.
Local Open Scope R_scope.

(** Parameter [i] is the entry [(i / (C), i mod C)] of a matrix with [C]
    columns. *)
Lemma index_split C i : (0 < C)%nat -> i = (i / C * C + i mod C)%nat /\ (i mod C < C)%nat.
Proof. intros HC. split; [rewrite Nat.mul_comm; apply Nat.div_mod; lia | apply Nat.mod_upper_bound; lia]. Qed.

(** At [lambdaval = 0] the gradient entry of every parameter is the
    derivative of the loss in that parameter. *)
Lemma loss0_deriv ni nh nc data labels (params : list R) i :
  obj_preconditions params (NnArgs ni nh nc data labels 0) -> (i < length params)%nat ->
  derivable_pt_lim (coord_loss (NnArgs ni nh nc data labels 0) params i) (nth i params 0)
    (nth i (gradient (NnArgs ni nh nc data labels 0) params) 0).
Proof.
  intros (Hl & Hnh & Hne & Hrows & Hlab) Hi; cbn [n_input n_hidden n_class training_data training_label] in *.
  destruct (reshape_params ni nh nc params Hl) as (w1 & w2 & Hw1 & Hw2 & Hp).
  pose proof (reshape_shape _ _ _ _ Hw1) as Sw1. pose proof (reshape_shape _ _ _ _ Hw2) as Sw2.
  pose proof (length_flatten_shape _ _ _ Sw1) as L1. pose proof (length_flatten_shape _ _ _ Sw2) as L2.
  unfold n_params in Hl. unfold slice in *; cbn [skipn] in *; rewrite Nat.sub_0_r in *.
  destruct (Nat.lt_ge_cases i (nh * (ni + 1))) as [Hlt|Hge].
  - destruct (index_split (ni + 1) i ltac:(lia)) as [Hic Hc].
    set (r := (i / (ni + 1))%nat) in *. set (c := (i mod (ni + 1))%nat) in *.
    assert (Hr : (r < nh)%nat) by nia.
    assert (Hx : nth i params 0 = entry w1 r c)
      by (rewrite <- Hp, app_nth1 by lia; rewrite Hic; exact (nth_flatten nh (ni + 1) w1 r c Sw1 Hr Hc)).
    rewrite Hx. apply (data_deriv ni nh nc data labels params i (entry w1 r c) (fun t => mset w1 r c t) (fun _ => w2)
             (fun st => entry (grad_w1 st) r c)); auto.
    + intros t. split; [|rewrite skipn_update_at_lt by lia; exact Hw2].
      unfold slice; cbn [skipn]; rewrite Nat.sub_0_r, firstn_update_at_lt by lia.
      rewrite Hic. apply reshape_update; auto.
    + exact (step_w1 ni nh nc labels w1 w2 r c Sw1 Sw2 Hr Hc).
    + apply entry_zeros.
    + intros st [Hg1 Hg2]. rewrite app_nth1 by (rewrite (length_flatten_shape _ _ _ Hg1); lia).
      rewrite Hic. exact (nth_flatten nh (ni + 1) _ r c Hg1 Hr Hc).
  - destruct (index_split (nh + 1) (i - nh * (ni + 1)) ltac:(lia)) as [Hkc Hc].
    set (k := ((i - nh * (ni + 1)) / (nh + 1))%nat) in *. set (c := ((i - nh * (ni + 1)) mod (nh + 1))%nat) in *.
    assert (Hk : (k < nc)%nat) by nia.
    assert (Hx : nth i params 0 = entry w2 k c)
      by (rewrite <- Hp, app_nth2 by lia; rewrite L1, Hkc; exact (nth_flatten nc (nh + 1) w2 k c Sw2 Hk Hc)).
    rewrite Hx. apply (data_deriv ni nh nc data labels params i (entry w2 k c) (fun _ => w1) (fun t => mset w2 k c t)
             (fun st => entry (grad_w2 st) k c)); auto.
    + intros t. split.
      * unfold slice; cbn [skipn]; rewrite Nat.sub_0_r, firstn_update_at_ge by lia. exact Hw1.
      * rewrite skipn_update_at_ge by lia. rewrite Hkc. apply reshape_update; auto.
    + exact (step_w2 ni nh nc labels w1 w2 k c Sw1 Sw2 Hnh Hk Hc).
    + apply entry_zeros.
    + intros st [Hg1 Hg2]. rewrite app_nth2 by (rewrite (length_flatten_shape _ _ _ Hg1); lia).
      rewrite (length_flatten_shape _ _ _ Hg1), Hkc. exact (nth_flatten nc (nh + 1) _ k c Hg2 Hk Hc).
Qed.
End ParamSplit.

(** ** The returned gradient against the derivative of the returned loss *)

Section LossGradient.
Local Open Scope R_scope.

(** C2: whenever [nnObjFunction] returns, the loss it returns, as a
    function of any one parameter [p_i] with the others fixed, is
    differentiable at [p_i], and its derivative is entry [i] of the
    returned gradient plus [lambdaval * p_i / N]: backpropagation (lines
    151-179) computes the exact derivative of the data term, and the
    gradient misses half of the derivative of the regularisation term
    (lines 181-185). *)
Theorem loss_derivative (params : list R) args r i :
  nnObjFunction params args = Ok r -> (i < length params)%nat ->
  derivable_pt_lim (coord_loss args params i) (nth i params 0)
    (nth i (gradient args params) 0 + lambdaval args * nth i params 0 / INR (length (training_data args))).
Proof.
  intros Hobj Hi. destruct r as [v g].
  destruct (nnObjFunction_lambda _ _ _ _ Hobj) as (v0 & g0 & H0 & _).
  pose proof (nnObjFunction_Ok_inv _ _ _ _ H0) as Hpre.
  pose proof (gradient_lambda_nth params args _ i Hobj) as Hg.
  apply derivable_pt_lim_ext with
    (f := ((fun t => loss (with_lambda args 0) (update_at i t params)) +
           (fun t => (loss args (update_at i t params) - loss (with_lambda args 0) (update_at i t params))%R))%F).
  { intros t. unfold coord_loss, plus_fct. ring. }
  replace (nth i (gradient args params) 0 + lambdaval args * nth i params 0 / INR (length (training_data args)))
    with (nth i (gradient (with_lambda args 0) params) 0 +
          2 * (lambdaval args * nth i params 0 / INR (length (training_data args)))) by lra.
  apply derivable_pt_lim_plus; [|exact (reg_part_deriv _ _ _ _ Hobj Hi)].
  destruct args as [ni nh nc data labels lam]. exact (loss0_deriv ni nh nc data labels params i Hpre Hi).
Qed.

Lemma loss_derivative_witness :
  exists r, nnObjFunction exR_params exR_args = Ok r /\
  derivable_pt_lim (coord_loss exR_args exR_params 5) (nth 5 exR_params 0)
    (nth 5 (gradient exR_args exR_params) 0 +
     lambdaval exR_args * nth 5 exR_params 0 / INR (length (training_data exR_args))).
Proof.
  destruct (exR_runs (lambdaval exR_args)) as (v & g & Hr). rewrite with_lambda_self in Hr.
  exists (v, g). split; [exact Hr|].
  apply (loss_derivative exR_params exR_args (v, g) 5 Hr). simpl. lia.
Defined.
End LossGradient.
