(* ===== verification/Shuffle.v ===== *)
(** * The order of the training examples (nnScript.py:150-179)

    The loop of [nnObjFunction] visits the examples in the order of
    [training_data], reading the label of row [i] at [training_label[i]].
    Each iteration adds its error to [obj_val] and its two gradient terms
    to [grad_w1] and [grad_w2]; nothing else carries over from one
    iteration to the next.  Over exact reals the result therefore does not
    depend on the order of the examples: any reordering of the
    (row, label) pairs gives the same loss and the same gradient.  (In
    floating point the sums are rounded in a different order; the scalar
    class is exact, see [Scalar].)

    [fold_res] is the loop over (row, label) pairs in the error monad, and
    [fold_res_perm] the generic fact: a fold whose steps preserve an
    invariant and commute on valid elements is invariant under
    [Permutation].  [train_loop_pairs] rewrites the code's loop as such a
    fold; [step_pair_comm] is the commutation of two iterations, read off
    the closed form [example_step_form] of [Backprop]. *)

From Stdlib Require Import List Arith Lia ZArith Reals Lra Permutation.
From S2P Require Import Prelude Scalar Matrix Sigmoid Objective Regularization Backprop.
Import ListNotations.

(** ** Folds in the error monad under reordering *)

Section FoldRes.
Context {A S : Type} (f : A -> S -> res S) (Q : A -> Prop) (P : S -> Prop).
Local Open Scope nn_scope.

Fixpoint fold_res (l : list A) (s : S) : res S :=
  match l with
  | [] => Ok s
  | a :: l => s' <- f a s ;; fold_res l s'
  end.

Hypothesis f_inv : forall a s s', Q a -> P s -> f a s = Ok s' -> P s'.
Hypothesis f_comm : forall a b s, Q a -> Q b -> P s ->
  (s1 <- f a s ;; f b s1) = (s1 <- f b s ;; f a s1).

Lemma fold_res_perm l l' : Permutation l l' -> forall s, Forall Q l -> P s -> fold_res l s = fold_res l' s.
Proof.
  induction 1 as [|a l l' _ IH|a b l|l l' l'' H1 IH1 _ IH2]; intros s HQ Hs; [reflexivity| | |].
  - apply Forall_cons_iff in HQ as [Ha HQ]. simpl.
    destruct (f a s) as [s'|e] eqn:E; [|reflexivity]. exact (IH s' HQ (f_inv _ _ _ Ha Hs E)).
  - apply Forall_cons_iff in HQ as [Hb [Ha _]%Forall_cons_iff]. cbn [fold_res].
    transitivity (bind (bind (f b s) (f a)) (fold_res l)); [destruct (f b s); reflexivity|].
    transitivity (bind (bind (f a s) (f b)) (fold_res l)); [|destruct (f a s); reflexivity].
    f_equal. exact (f_comm b a s Hb Ha Hs).
  - rewrite (IH1 s HQ Hs). exact (IH2 s (Permutation_Forall H1 HQ) Hs).
Qed.
End FoldRes.

(** ** The loop over (row, label) pairs *)

Section Pairs.
Context {K : Type} `{Scalar K}.

(** One iteration on the pair [(row, label)]. *)
Definition step_pair (nc : nat) (w1 w2 : mat K) (p : list K * Z) (st : acc K) : res (acc K) :=
  example_step nc [snd p] w1 w2 (drop_last_col w2) 0 (fst p) st.

(** The pairs the loop accepts. *)
Definition example_ok (ni nc : nat) (p : list K * Z) : Prop := length (fst p) = ni /\ label_ok nc (snd p).

Lemma skipn_nth_error {B} (l : list B) i x : nth_error l i = Some x -> skipn i l = x :: skipn (S i) l.
Proof. revert i; induction l as [|y l IH]; intros [|i] Hi; simpl in *; try discriminate; [congruence | auto]. Qed.

(** The iteration reads the label of row [i] and nothing else of [training_label]. *)
Lemma example_step_label nc labels (w1 w2 w2t : mat K) i row st l :
  nth_error labels i = Some l ->
  example_step nc labels w1 w2 w2t i row st = example_step nc [l] w1 w2 w2t 0 row st.
Proof. intros Hl. unfold example_step, target, label_at. rewrite Hl. reflexivity. Qed.

Lemma train_loop_pairs nc labels (w1 w2 : mat K) rows : forall i st,
  i + length rows <= length labels ->
  train_loop nc labels w1 w2 (drop_last_col w2) i rows st =
  fold_res (step_pair nc w1 w2) (combine rows (skipn i labels)) st.
Proof.
  induction rows as [|row rows IH]; intros i st Hl; [reflexivity|]. cbn [length] in Hl.
  destruct (nth_error labels i) as [l|] eqn:Hli; [|apply nth_error_None in Hli; lia].
  rewrite (skipn_nth_error _ _ _ Hli). cbn [train_loop combine fold_res].
  unfold step_pair at 1; cbn [fst snd]. rewrite (example_step_label _ _ _ _ _ _ _ _ _ Hli).
  destruct (example_step nc [l] w1 w2 (drop_last_col w2) 0 row st); [apply IH; lia | reflexivity].
Qed.

Lemma labels_ok_length nc labels n : labels_ok nc labels 0 n -> n <= length labels.
Proof.
  destruct n as [|n]; [lia|]. intros Hlab. destruct (Hlab n ltac:(lia)) as (l & Hl & _). simpl in Hl.
  assert (Hs : nth_error labels n <> None) by congruence. apply nth_error_Some in Hs. lia.
Qed.

Lemma pairs_ok ni nc labels rows : forall i,
  Forall (fun r => length r = ni) rows -> labels_ok nc labels i (length rows) ->
  Forall (example_ok ni nc) (combine rows (skipn i labels)).
Proof.
  induction rows as [|row rows IH]; intros i Hrows Hlab; [constructor|].
  apply Forall_cons_iff in Hrows as [Hr Hrows]. apply labels_ok_cons in Hlab as [(l & Hl & Hok) Hlab].
  rewrite (skipn_nth_error _ _ _ Hl). constructor; [split; assumption | exact (IH _ Hrows Hlab)].
Qed.
End Pairs.

(** ** Two iterations commute *)

Lemma zipWith_right_comm {A} (f : A -> A -> A) :
  (forall x y z, f (f x y) z = f (f x z) y) ->
  forall l1 l2 l3, zipWith f (zipWith f l1 l2) l3 = zipWith f (zipWith f l1 l3) l2.
Proof.
  intros Hf l1; induction l1 as [|x l1 IH]; intros [|y l2] [|z l3]; simpl; try reflexivity.
  rewrite Hf, IH. reflexivity.
Qed.

(** Adding two terms into an accumulator in either order. *)
Lemma madd_right_comm (a b c : mat R) : madd (madd a b) c = madd (madd a c) b.
Proof.
  unfold madd; cbn [mrows mcols mdata]. f_equal.
  apply zipWith_right_comm. intros; apply zipWith_right_comm. intros; sc_R; ring.
Qed.

Section ShuffleR.
Local Open Scope R_scope.
Variables (ni nh nc : nat) (w1 w2 : mat R).
Hypothesis Hw1 : has_shape nh (ni + 1) w1.
Hypothesis Hw2 : has_shape nc (nh + 1) w2.
Hypothesis Hnh : nh <> 0%nat.

Lemma step_pair_form p st y :
  length (fst p) = ni -> target nc [snd p] 0 = Ok y -> acc_shape ni nh nc st ->
  step_pair nc w1 w2 p st =
  Ok (Acc (s_add (obj_val st) (fwd_err w1 w2 (fst p) y))
          (madd (grad_w1 st) (fwd_g1 w1 w2 (fst p) y)) (madd (grad_w2 st) (fwd_g2 w1 w2 (fst p) y))).
Proof. intros Hr Hy Hs. exact (example_step_form ni nh nc [snd p] w1 w2 0 (fst p) st y Hw1 Hw2 Hs Hnh Hr Hy). Qed.

Lemma step_pair_shape p st st' :
  example_ok ni nc p -> acc_shape ni nh nc st -> step_pair nc w1 w2 p st = Ok st' -> acc_shape ni nh nc st'.
Proof. intros _ Hs E. exact (example_step_shape _ _ _ _ _ _ _ _ _ _ Hw1 Hw2 Hs E). Qed.

Lemma step_pair_comm a b st :
  example_ok ni nc a -> example_ok ni nc b -> acc_shape ni nh nc st ->
  bind (step_pair nc w1 w2 a st) (step_pair nc w1 w2 b) = bind (step_pair nc w1 w2 b st) (step_pair nc w1 w2 a).
Proof.
  intros [Hra Hoka] [Hrb Hokb] Hs.
  destruct (target_of_label (K := R) nc [snd a] 0 (snd a) eq_refl Hoka) as [ya Hya].
  destruct (target_of_label (K := R) nc [snd b] 0 (snd b) eq_refl Hokb) as [yb Hyb].
  pose proof (step_pair_form a st ya Hra Hya Hs) as Ea. pose proof (step_pair_form b st yb Hrb Hyb Hs) as Eb.
  rewrite Ea, Eb. cbn [bind].
  rewrite (step_pair_form b _ yb Hrb Hyb (step_pair_shape a st _ (conj Hra Hoka) Hs Ea)),
    (step_pair_form a _ ya Hra Hya (step_pair_shape b st _ (conj Hrb Hokb) Hs Eb)).
  cbn [obj_val grad_w1 grad_w2]. rewrite (madd_right_comm (grad_w1 st)), (madd_right_comm (grad_w2 st)).
  do 2 f_equal. sc_R. ring.
Qed.
End ShuffleR.

(** ** The engine does not depend on the order of the examples *)

(** The arguments of the engine with another training set. *)
Definition with_examples {K} (args : nn_args K) (data : list (list K)) (labels : list Z) : nn_args K :=
  NnArgs (n_input args) (n_hidden args) (n_class args) data labels (lambdaval args).

Section ShuffleProperty.
Local Open Scope R_scope.

(** C9: on data the engine accepts, reordering the training examples
    (moving each row together with its label) changes neither the loss
    nor the gradient: every iteration of lines 151-179 only adds its own
    terms to [obj_val], [grad_w1] and [grad_w2]. *)
Theorem nnObjFunction_shuffle (params : list R) args data' labels' :
  obj_preconditions params args ->
  Permutation (combine (training_data args) (training_label args)) (combine data' labels') ->
  (length data' <= length labels')%nat ->
  nnObjFunction params (with_examples args data' labels') = nnObjFunction params args.
Proof.
  destruct args as [ni nh nc data labels lam]; unfold with_examples.
  intros (Hl & Hnh & _ & Hrows & Hlab) Hp Hl'.
  cbn [n_input n_hidden n_class training_data training_label lambdaval] in *.
  pose proof (labels_ok_length _ _ _ Hlab) as Hll.
  assert (HN : length data' = length data)
    by (pose proof (Permutation_length Hp) as E; rewrite !length_combine in E; lia).
  destruct (reshape_params ni nh nc params Hl) as (w1 & w2 & Hw1 & Hw2 & _).
  unfold nnObjFunction; cbn [n_input n_hidden n_class training_data training_label lambdaval].
  rewrite Hw1, Hw2. cbn [bind]. apply reshape_shape in Hw1, Hw2.
  rewrite !(train_loop_pairs _ _ w1 w2 _ 0) by lia. rewrite HN, !skipn_O.
  rewrite (fold_res_perm _ _ _ (step_pair_shape ni nh nc w1 w2 Hw1 Hw2) (step_pair_comm ni nh nc w1 w2 Hw1 Hw2 Hnh)
             _ _ (Permutation_sym Hp) _); [reflexivity | | apply acc_shape_init].
  exact (Permutation_Forall Hp (pairs_ok ni nc labels data 0 Hrows Hlab)).
Qed.

Lemma nnObjFunction_shuffle_witness :
  nnObjFunction exR_params (with_examples exR_args [[0; 1/4]; [1/2; 1]] [0%Z; 1%Z]) = nnObjFunction exR_params exR_args.
Proof.
  apply (nnObjFunction_shuffle exR_params exR_args).
  - apply obj_preconditionsb_spec. vm_compute. reflexivity.
  - unfold exR_args; cbn [combine training_data training_label]. apply perm_swap.
  - simpl; lia.
Defined.
End ShuffleProperty.
