(* ===== verification/Accuracy.v ===== *)
(** * The accuracy of the script (nnScript.py:283, 287, 291)

    [100*np.mean((predicted_label == train_label).astype(float))].  The
    comparison of two 1-D arrays follows numpy's broadcasting: equal lengths
    compare elementwise, an array of length 1 is compared with every element
    of the other, any other pair of lengths raises [ValueError] (numpy 1.25
    and later; older numpy returned the scalar [False]).  [np.mean] of an
    empty array is NaN, modelled as [None].  Predicted labels are the class
    indices [nnPredict] returns; true labels are integers. *)

From Stdlib Require Import List Arith Lia ZArith Reals Lra.
From S2P Require Import Prelude Scalar Matrix.
Import ListNotations.

Section Accuracy.
Context {K : Type} `{Scalar K}.
Local Open Scope nn_scope.

(** [predicted_label == label] on 1-D arrays. *)
Definition np_eq (pred : list nat) (truth : list Z) : res (list bool) :=
  if Nat.eqb (length pred) (length truth)
  then Ok (zipWith (fun p t => Z.eqb (Z.of_nat p) t) pred truth)
  else match pred, truth with
       | [p], _ => Ok (map (fun t => Z.eqb (Z.of_nat p) t) truth)
       | _, [t] => Ok (map (fun p => Z.eqb (Z.of_nat p) t) pred)
       | _, _ => Err ValueError
       end.

(** [.astype(float)]. *)
Definition astype_float (l : list bool) : list K := map (fun b : bool => if b then s_one else s_zero) l.

(** [np.mean]; [None] is NaN. *)
Definition np_mean (l : list K) : option K :=
  match l with
  | [] => None
  | _ => Some (vsum l / s_of_nat (length l))%sc
  end.

(** The accuracy expression of lines 283, 287 and 291. *)
Definition accuracy (pred : list nat) (truth : list Z) : res (option K) :=
  e <- np_eq pred truth ;;
  Ok (option_map (fun m => (s_of_nat 100 * m)%sc) (np_mean (astype_float e))).
End Accuracy.

Section AccuracyReal.
Local Open Scope R_scope.

Fixpoint count_true (l : list bool) : nat :=
  match l with
  | [] => 0
  | b :: t => (if b then 1 else 0) + count_true t
  end.

Lemma count_true_le l : (count_true l <= length l)%nat.
Proof. induction l as [|[|] l IH]; simpl; lia. Qed.

Lemma vsum_astype_float l : vsum (astype_float l : list R) = INR (count_true l).
Proof.
  unfold vsum, astype_float. sc_R.
  assert (Hacc : forall (m : list R) a, fold_left Rplus m a = a + fold_left Rplus m 0).
  { induction m as [|x m IH]; intros a; simpl; [ring|]. rewrite IH, (IH (0 + x)). ring. }
  induction l as [|b l IH]; simpl; [reflexivity|].
  rewrite Hacc, IH, plus_INR. destruct b; simpl; ring.
Qed.

Lemma np_mean_astype (e : list bool) :
  e <> [] -> np_mean (astype_float e : list R) = Some (INR (count_true e) / INR (length e)).
Proof.
  intros Hne. rewrite <- vsum_astype_float. destruct e as [|b e]; [congruence|].
  change (@np_mean R _ (astype_float (b :: e)))
    with (Some (@s_div R _ (vsum (astype_float (b :: e)))
                 (@s_of_nat R _ (length (@astype_float R _ (b :: e)))))).
  unfold astype_float at 2. rewrite length_map. reflexivity.
Qed.

(** The percentage of a comparison result: [100 * count / length]. *)
Lemma accuracy_value (pred : list nat) truth e :
  np_eq pred truth = Ok e -> e <> [] ->
  accuracy pred truth = Ok (Some (INR 100 * (INR (count_true e) / INR (length e)))).
Proof.
  intros He Hne. unfold accuracy. rewrite He. cbn [bind].
  rewrite np_mean_astype by exact Hne. reflexivity.
Qed.

Lemma np_eq_same_length pred truth :
  length pred = length truth ->
  np_eq pred truth = Ok (zipWith (fun p t => Z.eqb (Z.of_nat p) t) pred truth).
Proof. intros Hl. unfold np_eq. rewrite Hl, Nat.eqb_refl. reflexivity. Qed.

Lemma INR_100 : INR 100 = 100.
Proof. rewrite INR_IZR_INZ. reflexivity. Qed.

(** C18: comparing a prediction with itself gives 100 percent. *)
Theorem accuracy_identical (pred : list nat) :
  pred <> [] -> accuracy pred (map Z.of_nat pred) = Ok (Some 100).
Proof.
  intros Hne. set (e := zipWith (fun p t => Z.eqb (Z.of_nat p) t) pred (map Z.of_nat pred)).
  assert (He : np_eq pred (map Z.of_nat pred) = Ok e) by (apply np_eq_same_length; rewrite length_map; reflexivity).
  assert (Hc : count_true e = length e).
  { unfold e. clear. induction pred as [|p pred IH]; simpl; [reflexivity|].
    rewrite Z.eqb_refl, IH. reflexivity. }
  assert (Hl : length e <> 0%nat).
  { unfold e. rewrite length_zipWith, length_map, Nat.min_id. destruct pred; simpl; congruence. }
  rewrite (accuracy_value _ _ e He) by (destruct e; simpl in *; congruence).
  rewrite Hc, INR_100. do 2 f_equal. field. apply not_0_INR, Hl.
Qed.

(** C19: a prediction that matches no true label gives 0 percent. *)
Theorem accuracy_no_match (pred : list nat) truth :
  pred <> [] -> Forall2 (fun p t => Z.of_nat p <> t) pred truth ->
  accuracy pred truth = Ok (Some 0).
Proof.
  intros Hne Hall. pose proof (Forall2_length Hall) as Hl.
  set (e := zipWith (fun p t => Z.eqb (Z.of_nat p) t) pred truth).
  assert (Hc : count_true e = 0%nat).
  { unfold e. clear -Hall. induction Hall as [|p t pred truth Hpt _ IH]; simpl; [reflexivity|].
    rewrite (proj2 (Z.eqb_neq _ _) Hpt). exact IH. }
  rewrite (accuracy_value _ _ e (np_eq_same_length _ _ Hl)).
  - rewrite Hc. simpl. do 2 f_equal. unfold Rdiv. ring.
  - unfold e. destruct pred, truth; simpl in *; congruence.
Qed.

Lemma percent_bounds c n : (c <= n)%nat -> (0 < n)%nat -> 0 <= INR 100 * (INR c / INR n) <= 100.
Proof.
  intros Hle Hpos. apply le_INR in Hle. apply lt_0_INR in Hpos. pose proof (pos_INR c).
  assert (Hinv : 0 < / INR n) by (apply Rinv_0_lt_compat; lra).
  assert (Hq : INR c * / INR n <= INR n * / INR n) by (apply Rmult_le_compat_r; lra).
  rewrite Rinv_r in Hq by lra. rewrite INR_100. unfold Rdiv. nra.
Qed.

(** A numeric accuracy is the percentage of [True] in a non-empty comparison. *)
Lemma accuracy_Some_inv (pred : list nat) truth a :
  accuracy pred truth = Ok (Some a) ->
  exists e, np_eq pred truth = Ok e /\ e <> [] /\ a = INR 100 * (INR (count_true e) / INR (length e)).
Proof.
  unfold accuracy. intros Hacc. inv_bind. exists a0. split; [exact Ha|].
  destruct a0 as [|b e]; [discriminate|]. split; [discriminate|].
  rewrite np_mean_astype in Hacc by discriminate. cbn [option_map] in Hacc. injection Hacc as <-.
  reflexivity.
Qed.

(** A comparison that is not empty has as many entries as the longer array. *)
Lemma np_eq_length (pred : list nat) truth e :
  np_eq pred truth = Ok e -> e <> [] -> length e = Nat.max (length pred) (length truth).
Proof.
  unfold np_eq. intros He Hne. destruct (Nat.eqb (length pred) (length truth)) eqn:Hl.
  - apply Nat.eqb_eq in Hl. injection He as <-.
    rewrite length_zipWith, Hl, Nat.min_id, Nat.max_id. reflexivity.
  - apply Nat.eqb_neq in Hl.
    destruct pred as [|p [|p' pred]]; destruct truth as [|t [|t' truth]]; try discriminate;
      injection He as <-; simpl in *; rewrite ?length_map; congruence || lia.
Qed.

(** The element of a 1-D array that position [i] of a broadcast
    comparison reads: an array of length 1 is read at 0 everywhere. *)
Definition at_bcast {A} (l : list A) (d : A) (i : nat) : A :=
  nth (if Nat.eqb (length l) 1 then 0 else i) l d.

Lemma count_true_nth l : count_true l = length (filter (fun i => nth i l false) (seq 0 (length l))).
Proof.
  induction l as [|b l IH]; [reflexivity|]. cbn [count_true length seq].
  rewrite <- seq_shift. cbn [filter nth]. rewrite filter_map_swap.
  destruct b; cbn [length]; rewrite length_map, IH; reflexivity.
Qed.

(** Position [i] of [predicted_label == label] is [True] exactly when the
    two broadcast elements are equal. *)
Lemma np_eq_nth (pred : list nat) truth e i :
  np_eq pred truth = Ok e -> (i < length e)%nat ->
  nth i e false = Z.eqb (Z.of_nat (at_bcast pred 0%nat i)) (at_bcast truth 0%Z i).
Proof.
  unfold np_eq, at_bcast. intros He Hi. destruct (Nat.eqb_spec (length pred) (length truth)) as [Hl|Hl].
  - injection He as <-. rewrite length_zipWith in Hi.
    rewrite (nth_zipWith _ _ _ _ 0%nat 0%Z) by lia.
    destruct (Nat.eqb_spec (length pred) 1), (Nat.eqb_spec (length truth) 1);
      try (replace i with 0%nat by lia); reflexivity || lia.
  - assert (Hm : forall A (f : A -> bool) l d, (i < length (map f l))%nat -> nth i (map f l) false = f (nth i l d))
      by (intros A f l d Hil; rewrite length_map in Hil; apply nth_map_lt, Hil).
    destruct pred as [|p [|p' pred']].
    + destruct truth as [|t [|t' truth']]; try discriminate.
      injection He as <-. cbn in Hi. lia.
    + assert (E : e = map (fun t => Z.eqb (Z.of_nat p) t) truth)
        by (injection He as He; rewrite <- He; reflexivity).
      subst e. rewrite (Hm _ _ _ 0%Z Hi). cbn [length Nat.eqb nth].
      destruct (Nat.eqb_spec (length truth) 1); [cbn [length] in Hl; congruence | reflexivity].
    + destruct truth as [|t [|t' truth']]; try discriminate.
      assert (E : e = map (fun q => Z.eqb (Z.of_nat q) t) (p :: p' :: pred'))
        by (injection He as He; rewrite <- He; reflexivity).
      subst e. rewrite (Hm _ _ _ 0%nat Hi). reflexivity.
Qed.

(** C20: an accuracy that is a number lies between 0 and 100 and is
    [100 * k / n]: [n] positions are compared (the length of the longer
    array) and [k] is the number of them at which the predicted label and
    the true label, read with numpy's broadcasting, are equal. *)
Theorem accuracy_counts_matches (pred : list nat) truth a :
  accuracy pred truth = Ok (Some a) ->
  0 <= a <= 100 /\
  a = 100 * (INR (length (filter (fun i => Z.eqb (Z.of_nat (at_bcast pred 0%nat i)) (at_bcast truth 0%Z i))
                           (seq 0 (Nat.max (length pred) (length truth)))))
             / INR (Nat.max (length pred) (length truth))).
Proof.
  intros Hacc. destruct (accuracy_Some_inv _ _ _ Hacc) as (e & He & Hne & ->).
  assert (Hpos : (0 < length e)%nat) by (destruct e; [congruence | simpl; lia]).
  split; [exact (percent_bounds _ _ (count_true_le e) Hpos)|].
  rewrite <- (np_eq_length _ _ _ He Hne), INR_100, count_true_nth. do 4 f_equal.
  apply filter_ext_in. intros i Hi. apply in_seq in Hi. apply (np_eq_nth _ _ _ _ He). lia.
Qed.

(** C21: the comparison follows numpy broadcasting, not the spec's
    length check: arrays of different lengths fail only when neither has
    length 1; a single predicted label is compared with every true label;
    and an empty comparison gives NaN, not a number. *)
Theorem accuracy_shapes (pred : list nat) truth :
  (length pred <> length truth -> length pred <> 1%nat -> length truth <> 1%nat ->
   accuracy pred truth = Err ValueError :> res (option R)) /\
  (forall p, length truth <> 1%nat -> truth <> [] ->
   accuracy [p] truth =
   Ok (Some (INR 100 * (INR (count_true (map (fun t => Z.eqb (Z.of_nat p) t) truth)) / INR (length truth))))) /\
  (accuracy [] [] = Ok None :> res (option R)).
Proof.
  split; [|split].
  - intros Hl H1 H2. unfold accuracy, np_eq. rewrite (proj2 (Nat.eqb_neq _ _) Hl).
    destruct pred as [|p [|p' pred]]; [|simpl in H1; lia|];
      (destruct truth as [|t [|t' truth]]; [reflexivity | simpl in H2; lia | reflexivity]).
  - intros p Hl Hne. rewrite (accuracy_value _ _ (map (fun t => Z.eqb (Z.of_nat p) t) truth)).
    + rewrite length_map. reflexivity.
    + unfold np_eq. simpl. destruct truth as [|t [|t' truth]]; simpl in *; congruence.
    + destruct truth; simpl; congruence.
  - reflexivity.
Qed.

(** ** Instances of the theorems *)

Lemma accuracy_identical_witness : accuracy [1%nat; 0%nat; 7%nat] (map Z.of_nat [1%nat; 0%nat; 7%nat]) = Ok (Some 100).
Proof. apply accuracy_identical. discriminate. Defined.

Lemma accuracy_no_match_witness : accuracy [1%nat; 0%nat] [0%Z; 3%Z] = Ok (Some 0).
Proof. apply accuracy_no_match; [discriminate | repeat constructor; simpl; lia]. Defined.

Lemma accuracy_counts_matches_witness :
  exists a, accuracy [1%nat; 0%nat; 2%nat] [1%Z; 1%Z; 2%Z] = Ok (Some a) /\
  (0 <= a <= 100 /\
   a = 100 * (INR (length (filter (fun i => Z.eqb (Z.of_nat (at_bcast [1%nat; 0%nat; 2%nat] 0%nat i))
                                                 (at_bcast [1%Z; 1%Z; 2%Z] 0%Z i))
                            (seq 0 (Nat.max (length [1%nat; 0%nat; 2%nat]) (length [1%Z; 1%Z; 2%Z])))))
              / INR (Nat.max (length [1%nat; 0%nat; 2%nat]) (length [1%Z; 1%Z; 2%Z])))).
Proof.
  eexists. split; [reflexivity|].
  apply (accuracy_counts_matches [1%nat; 0%nat; 2%nat] [1%Z; 1%Z; 2%Z]). reflexivity.
Defined.

Lemma accuracy_shapes_witness : accuracy [1%nat; 2%nat; 3%nat] [1%Z; 2%Z] = Err ValueError :> res (option R).
Proof. apply (proj1 (accuracy_shapes [1%nat; 2%nat; 3%nat] [1%Z; 2%Z])); simpl; lia. Defined.
End AccuracyReal.
