(* ===== verification/Init.v ===== *)
(** * Weight initialisation (nnScript.py:9-23, 252-257)

    numpy's global random generator is an explicit state [rng]: a stream of
    draws in [0, 1) and the position of the next one.  [rand] is
    [np.random.rand(r, c)], which takes [r*c] draws in row-major order and
    advances the position; [initializeWeights] scales them to
    [[-epsilon, epsilon)] with [epsilon = sqrt(6)/sqrt(n_in + n_out + 1)];
    [initial_params] is the script's two calls, threaded through the
    generator in order, and the concatenation of the flattened matrices
    (257).  Theorems: shapes, the [epsilon] bound, the draws the two calls
    consume, and that [nnObjFunction]'s reshape gives back the two
    matrices. *)

From Stdlib Require Import List Arith Lia ZArith Reals Lra.
From S2P Require Import Prelude Scalar Matrix Objective.
Import ListNotations.

Record rng (K : Type) : Type := Rng {
  draw : nat -> K;
  pos : nat
}.
Arguments Rng {K}.
Arguments draw {K} _ _.
Arguments pos {K} _.

Section Init.
Context {K : Type} `{Scalar K}.
Local Open Scope sc_scope.

(** [np.random.rand(r, c)]. *)
Definition rand (g : rng K) (r c : nat) : mat K * rng K :=
  (Mat r c (map (fun i => map (fun j => draw g (pos g + i * c + j)%nat) (seq 0 c)) (seq 0 r)),
   Rng (draw g) (pos g + r * c)%nat).

(** [sqrt(6) / sqrt(n_in + n_out + 1)] (line 21). *)
Definition init_epsilon (n_in n_out : nat) : K :=
  s_sqrt (s_of_nat 6) / s_sqrt (s_of_nat (n_in + n_out + 1)%nat).

(** Lines 9-23. *)
Definition initializeWeights (g : rng K) (n_in n_out : nat) : mat K * rng K :=
  let epsilon := init_epsilon n_in n_out in
  let (W, g') := rand g n_out (n_in + 1)%nat in
  (Mat (mrows W) (mcols W) (map (map (fun x => x * s_of_nat 2 * epsilon - epsilon)) (mdata W)), g').

(** Lines 253-257. *)
Definition initial_params (g : rng K) (n_input n_hidden n_class : nat) : list K * rng K :=
  let (initial_w1, g1) := initializeWeights g n_input n_hidden in
  let (initial_w2, g2) := initializeWeights g1 n_hidden n_class in
  (flatten initial_w1 ++ flatten initial_w2, g2).

Lemma rand_shape g r c : has_shape r c (fst (rand g r c)).
Proof.
  split; [split|]; simpl; autorewrite with nn_len; auto.
  apply Forall_forall. intros x [i [<- _]]%in_map_iff. autorewrite with nn_len. reflexivity.
Qed.

Lemma initializeWeights_shape g n_in n_out :
  has_shape n_out (n_in + 1) (fst (initializeWeights g n_in n_out)).
Proof.
  unfold initializeWeights. destruct (rand g n_out (n_in + 1)) as [W g'] eqn:E.
  pose proof (rand_shape g n_out (n_in + 1)) as Hs. rewrite E in Hs. simpl.
  simpl in Hs. destruct Hs as (Hw & Hr & Hc). split; [apply (map_map_wf _ W Hw) | simpl; auto].
Qed.

Lemma initializeWeights_pos g n_in n_out :
  pos (snd (initializeWeights g n_in n_out)) = (pos g + n_out * (n_in + 1))%nat.
Proof. reflexivity. Qed.

(** The entries of [initializeWeights] are the scaled draws, in order. *)
Lemma initializeWeights_entry g n_in n_out i j :
  (i < n_out)%nat -> (j < n_in + 1)%nat ->
  nth j (nth i (mdata (fst (initializeWeights g n_in n_out))) []) 0 =
  draw g (pos g + i * (n_in + 1) + j)%nat * s_of_nat 2 * init_epsilon n_in n_out
  - init_epsilon n_in n_out.
Proof.
  intros Hi Hj. simpl.
  rewrite (nth_map_lt _ _ [] []) by (rewrite length_map, length_seq; exact Hi).
  rewrite (nth_map_lt _ _ 0%nat []) by (rewrite length_seq; exact Hi).
  rewrite (nth_map_lt _ _ 0 0) by (rewrite length_map, length_seq; exact Hj).
  rewrite (nth_map_lt _ _ 0%nat 0) by (rewrite length_seq; exact Hj).
  rewrite !seq_nth by assumption. reflexivity.
Qed.
End Init.

Section InitProperties.

Lemma initial_params_length {K} `{Scalar K} (g : rng K) ni nh nc :
  length (fst (initial_params g ni nh nc)) = n_params ni nh nc.
Proof.
  unfold initial_params, n_params.
  pose proof (initializeWeights_shape g ni nh) as Hw1. destruct (initializeWeights g ni nh) as [w1 g1].
  pose proof (initializeWeights_shape g1 nh nc) as Hw2. destruct (initializeWeights g1 nh nc) as [w2 g2].
  simpl in *. rewrite length_app, (length_flatten_shape _ _ _ Hw1), (length_flatten_shape _ _ _ Hw2).
  reflexivity.
Qed.

(** C22: the script's initial parameter vector has [n_params] entries,
    [nnObjFunction]'s reshape (lines 139-140) gives back exactly the two
    matrices [initializeWeights] built, and the generator has advanced by
    one draw per parameter. *)
Theorem initial_params_roundtrip {K} `{Scalar K} (g : rng K) ni nh nc :
  let (params, g') := initial_params g ni nh nc in
  length params = n_params ni nh nc /\
  reshape (slice 0 (nh * (ni + 1)) params) nh (ni + 1) = Ok (fst (initializeWeights g ni nh)) /\
  reshape (skipn (nh * (ni + 1)) params) nc (nh + 1) =
    Ok (fst (initializeWeights (snd (initializeWeights g ni nh)) nh nc)) /\
  pos g' = (pos g + n_params ni nh nc)%nat.
Proof.
  unfold initial_params.
  pose proof (initializeWeights_shape g ni nh) as Hw1.
  destruct (initializeWeights g ni nh) as [w1 g1] eqn:E1. cbn [fst snd] in Hw1 |- *.
  pose proof (initializeWeights_shape g1 nh nc) as Hw2.
  pose proof (initializeWeights_pos g ni nh) as Hp1. rewrite E1 in Hp1. simpl in Hp1.
  pose proof (initializeWeights_pos g1 nh nc) as Hp2.
  destruct (initializeWeights g1 nh nc) as [w2 g2] eqn:E2. simpl in *.
  pose proof (length_flatten_shape _ _ _ Hw1) as L1. pose proof (length_flatten_shape _ _ _ Hw2) as L2.
  unfold n_params. split; [rewrite length_app; lia|]. split; [|split; [|lia]].
  - unfold slice. rewrite Nat.sub_0_r, skipn_O, <- L1, firstn_app, firstn_all, Nat.sub_diag, firstn_O,
      app_nil_r. apply reshape_flatten_shape, Hw1.
  - rewrite <- L1, skipn_app, skipn_all, Nat.sub_diag, skipn_O. apply reshape_flatten_shape, Hw2.
Qed.

Local Open Scope R_scope.

Lemma init_epsilon_pos n_in n_out : 0 < init_epsilon (K := R) n_in n_out.
Proof.
  unfold init_epsilon. sc_R. unfold Rdiv.
  apply Rmult_lt_0_compat; [apply sqrt_lt_R0 | apply Rinv_0_lt_compat, sqrt_lt_R0];
    [rewrite INR_IZR_INZ; simpl; lra | apply lt_0_INR; lia].
Qed.

Lemma scale_bounds (x e : R) : 0 < e -> 0 <= x < 1 -> - e <= x * INR 2 * e - e < e.
Proof. intros He Hx. replace (INR 2) with 2 by (simpl; ring). nra. Qed.

(** C23: with draws in [0, 1), every initial weight lies in
    [[-epsilon, epsilon)], [epsilon = sqrt 6 / sqrt (n_in + n_out + 1) > 0]. *)
Theorem initializeWeights_bounds (g : rng R) n_in n_out :
  (forall k, 0 <= draw g k < 1) ->
  0 < init_epsilon n_in n_out /\
  forall row x, In row (mdata (fst (initializeWeights g n_in n_out))) -> In x row ->
    - init_epsilon n_in n_out <= x < init_epsilon n_in n_out.
Proof.
  intros Hdraw. pose proof (init_epsilon_pos n_in n_out) as He. split; [exact He|].
  intros row x Hrow Hx. simpl in Hrow.
  apply in_map_iff in Hrow as [r [<- Hr]]. apply in_map_iff in Hx as [d [<- Hd]].
  apply in_map_iff in Hr as [i [<- _]]. apply in_map_iff in Hd as [j [<- _]].
  exact (scale_bounds _ _ He (Hdraw _)).
Qed.

Lemma initializeWeights_bounds_witness :
  0 < init_epsilon 2 3 /\
  forall row x, In row (mdata (fst (initializeWeights (Rng (fun _ => / 2) 0) 2 3))) -> In x row ->
    - init_epsilon 2 3 <= x < init_epsilon 2 3.
Proof. apply initializeWeights_bounds. intros k. simpl. lra. Defined.
End InitProperties.
