(* ===== verification/Optimizer.v ===== *)
(** * The optimizer driver (nnScript.py:263-264)

    The script calls [scipy.optimize.minimize(nnObjFunction, initialWeights,
    jac=True, args=args, method='CG', options={'maxiter': 50})] and keeps
    the field [x] of its result.  scipy is a library the program only
    calls, so the driver is an interface: the class [Minimizer] is the call
    (an objective returning a loss and its gradient, a start vector, the
    iteration budget), and the class [MinimizerSpec] is the contract of
    section 4.4 of the specification: the result has the length of the
    start vector, the objective was evaluated without error at the start
    and at the result and the loss did not increase, and an engine error
    at the start vector, or a gradient of the wrong length there, makes the
    driver fail.  The script ([Script]) is proved against this interface.

    [gradient_descent] is an instance, written from the specification's
    "plain gradient descent" alternative (section 9): steepest descent with
    a backtracking line search that halves the step at most [ls_max] times
    and stops when no step decreases the loss; [maxiter] is its fuel, one
    accepted step per iteration.  Theorems: it meets the contract when the
    comparison is a strict order (at the reals), its losses strictly
    decrease along the accepted steps, and it always returns when the
    objective returns a gradient of the right length on every vector of
    that length.

    [conjugate_gradient] is a second instance, the nonlinear
    conjugate-gradient method the script's [method='CG'] names, written
    from the specification's description (section 4.4): Polak-Ribiere+
    directions [d' = -g' + max(0, g'.(g'-g)/g.g) d] searched by the same
    backtracking line search, with a restart along the gradient when a
    direction gives no lower loss; [maxiter] bounds the iterations,
    restarts included.  It meets the same contract and always returns
    under the same condition; scipy's own line search (Wolfe conditions)
    and its stopping tests on the gradient norm are not modelled.

    [descent_path] describes a run as a relation, a sequence of accepted
    steps each of which lowers the loss; both loops refine it, with
    [maxiter] bounding the number of steps, and its invariant (the loss at
    the end of a non-empty run is strictly below the loss at its start) is
    proved by rule induction.  [MinimizerTotal] is the interface property
    "always returns" that both drivers have and the whole-program theorems
    of [Script] use. *)

From Stdlib Require Import List Arith Lia Reals Lra QArith.
From S2P Require Import Prelude Scalar Matrix.
Import ListNotations.

(** The callback [minimize] receives with [jac=True]. *)
Definition objective (K : Type) : Type := list K -> res (K * list K).

(** [minimize(fun, x0, ..., options={'maxiter': n}).x]. *)
Class Minimizer (K : Type) : Type :=
  minimize : objective K -> list K -> nat -> res (list K).

(** The contract of the driver. *)
Class MinimizerSpec (K : Type) `{Scalar K} (M : Minimizer K) : Prop := {
  minimize_length : forall f x0 n x, minimize f x0 n = Ok x -> length x = length x0;
  minimize_descent : forall f x0 n x, minimize f x0 n = Ok x ->
    exists v0 g0 v g, f x0 = Ok (v0, g0) /\ f x = Ok (v, g) /\ s_ltb v0 v = false;
  minimize_fail_fast : forall f x0 n e, f x0 = Err e -> minimize f x0 n = Err e;
  minimize_bad_gradient : forall f x0 n v g,
    f x0 = Ok (v, g) -> length g <> length x0 -> exists e, minimize f x0 n = Err e
}.

(** A driver that always returns when the objective returns, on every
    vector of the start vector's length, a loss and a gradient of that
    length. *)
Class MinimizerTotal (K : Type) (M : Minimizer K) : Prop :=
  minimize_total : forall f x0 n,
    (forall y, length y = length x0 -> exists v g, f y = Ok (v, g) /\ length g = length y) ->
    exists x, minimize f x0 n = Ok x.

(** The runs of a descent method as a relation: [descent_path f k x z]
    says that [z] is reached from [x] by [k] accepted steps, each from a
    vector where the objective returns to a vector of the same length
    where it returns a strictly lower loss. *)
Inductive descent_path {K : Type} `{Scalar K} (f : objective K) : nat -> list K -> list K -> Prop :=
| dp_refl x : descent_path f 0 x x
| dp_step n x y z v g w h :
    f x = Ok (v, g) -> f y = Ok (w, h) -> length y = length x -> s_ltb w v = true ->
    descent_path f n y z -> descent_path f (S n) x z.

Section GradientDescent.
Context {K : Type} `{Scalar K}.
Local Open Scope nn_scope.
Local Open Scope sc_scope.

(** The first step length and the number of halvings of the line search. *)
Variable alpha0 : K.
Variable ls_max : nat.

(** One evaluation of the objective; a gradient of the wrong length is the
    [ValueError] numpy raises on [x - alpha * g]. *)
Definition eval (f : objective K) (x : list K) : res (K * list K) :=
  r <- f x ;;
  let '(v, g) := r in
  raise_unless (Nat.eqb (length g) (length x)) ValueError ;;;
  Ok (v, g).

(** [x - a * g]. *)
Definition axpy (a : K) (g x : list K) : list K := zipWith (fun xi gi => xi - a * gi) x g.

(** Backtracking: the first of [x - a g], [x - a/2 g], ... whose loss is
    below [v], or [None] after [k] tries. *)
Fixpoint line_search (f : objective K) (k : nat) (a : K) (x g : list K) (v : K)
    : res (option (list K * K * list K)) :=
  match k with
  | O => Ok None
  | S k' =>
      let x' := axpy a g x in
      r <- eval f x' ;;
      let '(v', g') := r in
      if s_ltb v' v then Ok (Some (x', v', g')) else line_search f k' (a / s_of_nat 2) x g v
  end.

(** At most [n] accepted steps from [x], whose loss and gradient are [v], [g]. *)
Fixpoint descend (f : objective K) (n : nat) (x : list K) (v : K) (g : list K) : res (list K) :=
  match n with
  | O => Ok x
  | S n' =>
      o <- line_search f ls_max alpha0 x g v ;;
      match o with
      | None => Ok x
      | Some (x', v', g') => descend f n' x' v' g'
      end
  end.

Definition gradient_descent : Minimizer K := fun f x0 maxiter =>
  r <- eval f x0 ;;
  let '(v, g) := r in
  descend f maxiter x0 v g.
End GradientDescent.

Section ConjugateGradient.
Context {K : Type} `{Scalar K}.
Local Open Scope nn_scope.
Local Open Scope sc_scope.

Variable alpha0 : K.
Variable ls_max : nat.

(** The Polak-Ribiere coefficient [g'.(g' - g) / g.g], clipped at 0; 0
    when the old gradient is 0. *)
Definition pr_beta (g g' : list K) : K :=
  let gg := dot g g in
  if s_ltb 0 gg then
    let b := dot g' (zipWith s_sub g' g) / gg in
    if s_ltb b 0 then 0 else b
  else 0.

(** The next search vector.  The step is [x - a * s] with [s = -d] for the
    direction [d]; [d' = -g' + beta d] is [s' = g' + beta s]. *)
Definition cg_next (g g' s : list K) : list K :=
  zipWith (fun gi si => gi + pr_beta g g' * si) g' s.

(** At most [n] iterations from [x] with loss [v], gradient [g] and search
    vector [s]; [steep] says that [s] is the gradient.  A direction along
    which the line search finds no lower loss is replaced by the gradient
    (a restart); the loop stops when the gradient itself fails. *)
Fixpoint cg_loop (f : objective K) (n : nat) (x : list K) (v : K) (g s : list K) (steep : bool)
    : res (list K) :=
  match n with
  | O => Ok x
  | S n' =>
      o <- line_search f ls_max alpha0 x s v ;;
      match o with
      | Some (x', v', g') => cg_loop f n' x' v' g' (cg_next g g' s) false
      | None => if steep then Ok x else cg_loop f n' x v g g true
      end
  end.

Definition conjugate_gradient : Minimizer K := fun f x0 maxiter =>
  r <- eval f x0 ;;
  let '(v, g) := r in
  cg_loop f maxiter x0 v g g true.
End ConjugateGradient.

(** ** The line search and the descent loop *)

Section GDLemmas.
Context {K : Type} `{Scalar K}.
Variable alpha0 : K.
Variable ls_max : nat.

Lemma eval_Ok (f : objective K) (x : list K) v g :
  eval f x = Ok (v, g) <-> f x = Ok (v, g) /\ length g = length x.
Proof.
  unfold eval. destruct (f x) as [[v' g']|e]; cbn [bind].
  - unfold raise_unless. destruct (Nat.eqb_spec (length g') (length x)) as [E|E]; cbn [bind].
    + split; [intros [= <- <-]; auto | intros [[= <- <-] _]; reflexivity].
    + split; [discriminate | intros [[= <- <-] Hl]; contradiction].
  - split; [discriminate | intros [? _]; discriminate].
Qed.

Lemma length_axpy (a : K) (g x : list K) : length g = length x -> length (axpy a g x) = length x.
Proof. intros Hl. unfold axpy. rewrite length_zipWith, Hl. apply Nat.min_id. Qed.

(** An accepted step was evaluated, keeps the length and lowers the loss. *)
Lemma line_search_Some (f : objective K) k (a : K) (x g : list K) v x' v' g' :
  length g = length x -> line_search f k a x g v = Ok (Some (x', v', g')) ->
  f x' = Ok (v', g') /\ length g' = length x' /\ length x' = length x /\ s_ltb v' v = true.
Proof.
  intros Hg. revert a. induction k as [|k IH]; intros a Hls; simpl in Hls; [discriminate|].
  destruct (eval f (axpy a g x)) as [[w h]|e] eqn:He; cbn [bind] in Hls; [|discriminate].
  apply eval_Ok in He as [Hf Hh]. destruct (s_ltb w v) eqn:Hlt; [|exact (IH _ Hls)].
  injection Hls as <- <- <-. rewrite length_axpy in * by exact Hg. auto.
Qed.

(** The line search returns when the objective returns a gradient of the
    right length on every vector of that length. *)
Lemma line_search_total (f : objective K) k (a : K) (x g : list K) v :
  (forall y, length y = length x -> exists w h, f y = Ok (w, h) /\ length h = length y) ->
  length g = length x -> exists o, line_search f k a x g v = Ok o.
Proof.
  intros Hf Hg. revert a. induction k as [|k IH]; intros a; simpl; [eauto|].
  destruct (Hf (axpy a g x) (length_axpy a g x Hg)) as (w & h & Hy & Hh).
  rewrite (proj2 (eval_Ok f _ w h) (conj Hy Hh)); cbn [bind].
  destruct (s_ltb w v); eauto.
Qed.

Lemma descend_length (f : objective K) n : forall (x : list K) v g x',
  length g = length x -> descend alpha0 ls_max f n x v g = Ok x' -> length x' = length x.
Proof.
  induction n as [|n IH]; intros x v g x' Hg Hd; simpl in Hd; [injection Hd as <-; reflexivity|].
  inv_bind. destruct a as [[[y w] h]|]; [|injection Hd as <-; reflexivity].
  destruct (line_search_Some _ _ _ _ _ _ _ _ _ Hg Ha) as (_ & Hh & Hy & _).
  rewrite (IH _ _ _ _ (eq_trans Hh eq_refl) Hd). exact Hy.
Qed.

Lemma descend_total (f : objective K) n :
  forall (x : list K) v g, (forall y, length y = length x -> exists w h, f y = Ok (w, h) /\ length h = length y) ->
  length g = length x -> exists x', descend alpha0 ls_max f n x v g = Ok x'.
Proof.
  induction n as [|n IH]; intros x v g Hf Hg; simpl; [eauto|].
  destruct (line_search_total f ls_max alpha0 x g v Hf Hg) as [o Ho]. rewrite Ho; cbn [bind].
  destruct o as [[[y w] h]|]; [|eauto].
  destruct (line_search_Some _ _ _ _ _ _ _ _ _ Hg Ho) as (_ & Hh & Hy & _).
  apply IH; [rewrite Hy; exact Hf | exact Hh].
Qed.

Lemma length_cg_next (g g' s : list K) : length g' = length s -> length (cg_next g g' s) = length g'.
Proof. intros Hl. unfold cg_next. rewrite length_zipWith, Hl. apply Nat.min_id. Qed.

(** Every iterate of the conjugate-gradient loop keeps the length. *)
Lemma cg_loop_length (f : objective K) n : forall (x : list K) v g s steep x',
  length g = length x -> length s = length x -> cg_loop alpha0 ls_max f n x v g s steep = Ok x' ->
  length x' = length x.
Proof.
  induction n as [|n IH]; intros x v g s steep x' Hg Hs Hd; simpl in Hd; [injection Hd as <-; reflexivity|].
  inv_bind. destruct a as [[[y w] h]|].
  - destruct (line_search_Some _ _ _ _ _ _ _ _ _ Hs Ha) as (_ & Hh & Hy & _).
    rewrite <- Hy. refine (IH _ _ _ _ _ _ Hh _ Hd). rewrite length_cg_next; congruence.
  - destruct steep; [injection Hd as <-; reflexivity | exact (IH _ _ _ _ _ _ Hg Hg Hd)].
Qed.

Lemma cg_loop_total (f : objective K) n : forall (x : list K) v g s steep,
  (forall y, length y = length x -> exists w h, f y = Ok (w, h) /\ length h = length y) ->
  length g = length x -> length s = length x -> exists x', cg_loop alpha0 ls_max f n x v g s steep = Ok x'.
Proof.
  induction n as [|n IH]; intros x v g s steep Hf Hg Hs; simpl; [eauto|].
  destruct (line_search_total f ls_max alpha0 x s v Hf Hs) as [o Ho]. rewrite Ho; cbn [bind].
  destruct o as [[[y w] h]|].
  - destruct (line_search_Some _ _ _ _ _ _ _ _ _ Hs Ho) as (_ & Hh & Hy & _).
    apply IH; [rewrite Hy; exact Hf | exact Hh | rewrite length_cg_next; congruence].
  - destruct steep; [eauto | exact (IH _ _ _ _ _ Hf Hg Hg)].
Qed.

(** Both loops follow the relation: every accepted step is a step of
    [descent_path], and [n] bounds their number. *)
Lemma descend_path (f : objective K) n : forall (x : list K) v g x',
  f x = Ok (v, g) -> length g = length x -> descend alpha0 ls_max f n x v g = Ok x' ->
  exists k, (k <= n)%nat /\ descent_path f k x x'.
Proof.
  induction n as [|n IH]; intros x v g x' Hf Hg Hd; simpl in Hd;
    [injection Hd as <-; exists 0%nat; split; [lia | constructor]|].
  inv_bind. destruct a as [[[y w] h]|]; [|injection Hd as <-; exists 0%nat; split; [lia | constructor]].
  destruct (line_search_Some _ _ _ _ _ _ _ _ _ Hg Ha) as (Hy & Hh & Hyx & Hlt).
  destruct (IH _ _ _ _ Hy Hh Hd) as (k & Hk & Hp).
  exists (S k). split; [lia | exact (dp_step f k x y x' v g w h Hf Hy Hyx Hlt Hp)].
Qed.

Lemma cg_loop_path (f : objective K) n : forall (x : list K) v g s steep x',
  f x = Ok (v, g) -> length g = length x -> length s = length x ->
  cg_loop alpha0 ls_max f n x v g s steep = Ok x' ->
  exists k, (k <= n)%nat /\ descent_path f k x x'.
Proof.
  induction n as [|n IH]; intros x v g s steep x' Hf Hg Hs Hd; simpl in Hd;
    [injection Hd as <-; exists 0%nat; split; [lia | constructor]|].
  inv_bind. destruct a as [[[y w] h]|].
  - destruct (line_search_Some _ _ _ _ _ _ _ _ _ Hs Ha) as (Hy & Hh & Hyx & Hlt).
    assert (Hs' : length (cg_next g h s) = length y) by (rewrite length_cg_next; congruence).
    destruct (IH _ _ _ _ _ _ Hy Hh Hs' Hd) as (k & Hk & Hp).
    exists (S k). split; [lia | exact (dp_step f k x y x' v g w h Hf Hy Hyx Hlt Hp)].
  - destruct steep; [injection Hd as <-; exists 0%nat; split; [lia | constructor]|].
    destruct (IH _ _ _ _ _ _ Hf Hg Hg Hd) as (k & Hk & Hp). exists k. split; [lia | exact Hp].
Qed.

(** With [s_ltb] a strict order: the loss at the result is not above the
    loss at the start. *)
Section Order.
Hypothesis ltb_irrefl : forall a, s_ltb a a = false.
Hypothesis ltb_le_lt : forall a b c, s_ltb b a = false -> s_ltb b c = true -> s_ltb c a = false.

Lemma descend_descent (f : objective K) n : forall (x : list K) v g x',
  f x = Ok (v, g) -> length g = length x -> descend alpha0 ls_max f n x v g = Ok x' ->
  exists v' g', f x' = Ok (v', g') /\ s_ltb v v' = false.
Proof.
  induction n as [|n IH]; intros x v g x' Hf Hg Hd; simpl in Hd; [injection Hd as <-; eauto|].
  inv_bind. destruct a as [[[y w] h]|]; [|injection Hd as <-; eauto].
  destruct (line_search_Some _ _ _ _ _ _ _ _ _ Hg Ha) as (Hy & Hh & _ & Hlt).
  destruct (IH _ _ _ _ Hy Hh Hd) as (v' & g' & Hf' & Hle).
  exists v', g'. split; [exact Hf'| exact (ltb_le_lt _ _ _ Hle Hlt)].
Qed.

Lemma cg_loop_descent (f : objective K) n : forall (x : list K) v g s steep x',
  f x = Ok (v, g) -> length g = length x -> length s = length x ->
  cg_loop alpha0 ls_max f n x v g s steep = Ok x' ->
  exists v' g', f x' = Ok (v', g') /\ s_ltb v v' = false.
Proof.
  induction n as [|n IH]; intros x v g s steep x' Hf Hg Hs Hd; simpl in Hd;
    [injection Hd as <-; eauto|].
  inv_bind. destruct a as [[[y w] h]|].
  - destruct (line_search_Some _ _ _ _ _ _ _ _ _ Hs Ha) as (Hy & Hh & Hyx & Hlt).
    assert (Hs' : length (cg_next g h s) = length y) by (rewrite length_cg_next; congruence).
    destruct (IH _ _ _ _ _ _ Hy Hh Hs' Hd) as (v' & g' & Hf' & Hle).
    exists v', g'. split; [exact Hf' | exact (ltb_le_lt _ _ _ Hle Hlt)].
  - destruct steep; [injection Hd as <-; eauto | exact (IH _ _ _ _ _ _ Hf Hg Hg Hd)].
Qed.

Lemma gradient_descent_meets_spec : MinimizerSpec K (gradient_descent alpha0 ls_max).
Proof.
  split; unfold minimize, gradient_descent.
  - intros f x0 n x Hm. inv_bind. destruct a as [v g]. apply eval_Ok in Ha as [_ Hg].
    exact (descend_length _ _ _ _ _ _ Hg Hm).
  - intros f x0 n x Hm. inv_bind. destruct a as [v0 g0]. apply eval_Ok in Ha as [Hf Hg].
    destruct (descend_descent _ _ _ _ _ _ Hf Hg Hm) as (v & g & Hfx & Hle). eauto 7.
  - intros f x0 n e He. unfold eval. rewrite He. reflexivity.
  - intros f x0 n v g Hf Hg. unfold eval. rewrite Hf; cbn [bind].
    apply Nat.eqb_neq in Hg. rewrite Hg. eexists; reflexivity.
Qed.

Hypothesis ltb_trans : forall a b c, s_ltb a b = true -> s_ltb b c = true -> s_ltb a c = true.

(** The invariant of a run, by rule induction: the objective returns at its
    end, the length is kept, and the loss is strictly lower unless no step
    was taken. *)
Lemma descent_path_inv (f : objective K) n x z :
  descent_path f n x z -> forall v g, f x = Ok (v, g) ->
  exists v' g', f z = Ok (v', g') /\ length z = length x /\
    ((n = 0%nat /\ z = x) \/ ((0 < n)%nat /\ s_ltb v' v = true)).
Proof.
  induction 1 as [x|n x y z v g w h Hx Hy Hyx Hlt _ IH]; intros v0 g0 Hx0; [exists v0, g0; auto|].
  rewrite Hx in Hx0. injection Hx0 as <- <-.
  destruct (IH w h Hy) as (v' & g' & Hz & Hzy & [[-> ->]|[_ Hlt']]).
  - exists w, h. split; [exact Hy|]. split; [exact Hyx|]. right. split; [lia | exact Hlt].
  - exists v', g'. split; [exact Hz|]. split; [congruence|]. right. split; [lia | exact (ltb_trans _ _ _ Hlt' Hlt)].
Qed.

Lemma conjugate_gradient_meets_spec : MinimizerSpec K (conjugate_gradient alpha0 ls_max).
Proof.
  split; unfold minimize, conjugate_gradient.
  - intros f x0 n x Hm. inv_bind. destruct a as [v g]. apply eval_Ok in Ha as [_ Hg].
    exact (cg_loop_length _ _ _ _ _ _ _ _ Hg Hg Hm).
  - intros f x0 n x Hm. inv_bind. destruct a as [v0 g0]. apply eval_Ok in Ha as [Hf Hg].
    destruct (cg_loop_descent _ _ _ _ _ _ _ _ Hf Hg Hg Hm) as (v & g & Hfx & Hle). eauto 7.
  - intros f x0 n e He. unfold eval. rewrite He. reflexivity.
  - intros f x0 n v g Hf Hg. unfold eval. rewrite Hf; cbn [bind].
    apply Nat.eqb_neq in Hg. rewrite Hg. eexists; reflexivity.
Qed.
End Order.
End GDLemmas.

(** ** Properties of the gradient-descent driver *)

Section GDProperties.

(** C24: at the reals, the backtracking gradient-descent driver meets the
    contract of the optimizer interface, for every first step and every
    number of halvings: the result has the length of the start vector, the
    loss at the result is not above the loss at the start, and an engine
    error or a gradient of the wrong length at the start makes it fail. *)
Theorem gradient_descent_refines (alpha0 : R) (ls_max : nat) :
  MinimizerSpec R (gradient_descent alpha0 ls_max).
Proof. apply gradient_descent_meets_spec; [exact Rltb_irrefl | exact Rltb_le_lt]. Qed.

(** Both drivers always return: [maxiter] bounds the iterations
    (restarts included) and [ls_max] the halvings of each line search. *)
Lemma gradient_descent_is_total {K} `{Scalar K} (alpha0 : K) ls_max :
  MinimizerTotal K (gradient_descent alpha0 ls_max).
Proof.
  intros f x0 maxiter Hf. unfold minimize, gradient_descent.
  destruct (Hf x0 eq_refl) as (v & g & Hx0 & Hg).
  rewrite (proj2 (eval_Ok f x0 v g) (conj Hx0 Hg)); cbn [bind].
  exact (descend_total alpha0 ls_max f maxiter x0 v g Hf Hg).
Qed.

Lemma conjugate_gradient_is_total {K} `{Scalar K} (alpha0 : K) ls_max :
  MinimizerTotal K (conjugate_gradient alpha0 ls_max).
Proof.
  intros f x0 maxiter Hf. unfold minimize, conjugate_gradient.
  destruct (Hf x0 eq_refl) as (v & g & Hx0 & Hg).
  rewrite (proj2 (eval_Ok f x0 v g) (conj Hx0 Hg)); cbn [bind].
  exact (cg_loop_total alpha0 ls_max f maxiter x0 v g g true Hf Hg Hg).
Qed.

(** C34: at the reals, the nonlinear conjugate-gradient driver (the
    method [minimize(..., method='CG')] names, with Polak-Ribiere+
    directions, the backtracking line search and a restart along the
    gradient when a direction gives no lower loss) meets the contract of
    the optimizer interface, for every first step and number of halvings. *)
Theorem conjugate_gradient_refines (alpha0 : R) (ls_max : nat) :
  MinimizerSpec R (conjugate_gradient alpha0 ls_max).
Proof. apply conjugate_gradient_meets_spec; [exact Rltb_irrefl | exact Rltb_le_lt]. Qed.

(** The squared norm with its gradient, at the rationals. *)
Definition sqnormQ : objective Q := fun y => Ok (dot y y, map (fun a => (2 * a)%Q) y).

(** C35: both drivers refine the relational description of a descent run,
    for any strict order: their result is reached from the start vector by
    at most [maxiter] accepted steps of [descent_path], the objective
    returns at both ends, the length is kept, and the loss at the result is
    strictly below the loss at the start unless no step was accepted and
    the result is the start vector. *)
Theorem drivers_descent_path {K} `{Scalar K}
    (ltb_trans : forall a b c, s_ltb a b = true -> s_ltb b c = true -> s_ltb a c = true)
    (alpha0 : K) ls_max (f : objective K) x0 maxiter x :
  gradient_descent alpha0 ls_max f x0 maxiter = Ok x \/ conjugate_gradient alpha0 ls_max f x0 maxiter = Ok x ->
  exists k v0 g0 v g,
    (k <= maxiter)%nat /\ descent_path f k x0 x /\ f x0 = Ok (v0, g0) /\ f x = Ok (v, g) /\
    length x = length x0 /\ ((k = 0%nat /\ x = x0) \/ ((0 < k)%nat /\ s_ltb v v0 = true)).
Proof.
  intros Hrun.
  assert (Hp : exists v0 g0 k, f x0 = Ok (v0, g0) /\ (k <= maxiter)%nat /\ descent_path f k x0 x).
  { destruct Hrun as [Hm|Hm]; unfold gradient_descent, conjugate_gradient in Hm; inv_bind;
      destruct a as [v0 g0]; apply eval_Ok in Ha as [Hf Hg]; exists v0, g0;
      [destruct (descend_path _ _ _ _ _ _ _ _ Hf Hg Hm) as (k & Hk & Hpath)
      |destruct (cg_loop_path _ _ _ _ _ _ _ _ _ _ Hf Hg Hg Hm) as (k & Hk & Hpath)]; eauto. }
  destruct Hp as (v0 & g0 & k & Hf & Hk & Hpath).
  destruct (descent_path_inv ltb_trans f k x0 x Hpath v0 g0 Hf) as (v & g & Hfx & Hl & Hdec).
  exists k, v0, g0, v, g. auto 7.
Qed.

Lemma drivers_descent_path_witness :
  exists x, gradient_descent (1 # 2) 4%nat sqnormQ [1; -2; 3]%Q 5%nat = Ok x /\
  exists k v0 g0 v g,
    (k <= 5)%nat /\ descent_path sqnormQ k [1; -2; 3]%Q x /\ sqnormQ [1; -2; 3]%Q = Ok (v0, g0) /\
    sqnormQ x = Ok (v, g) /\ length x = length [1; -2; 3]%Q /\
    ((k = 0%nat /\ x = [1; -2; 3]%Q) \/ ((0 < k)%nat /\ s_ltb v v0 = true)).
Proof.
  assert (Hok : is_Ok (gradient_descent (1 # 2) 4%nat sqnormQ [1; -2; 3]%Q 5%nat) = true)
    by (vm_compute; reflexivity).
  destruct (is_Ok_spec _ Hok) as [x Hx]. exists x. split; [exact Hx|].
  exact (drivers_descent_path Q_ltb_trans (1 # 2) 4%nat sqnormQ [1; -2; 3]%Q 5%nat x (or_introl Hx)).
Defined.

End GDProperties.
