(* ===== verification/Preprocess.v ===== *)
(** * Loading and splitting the data set: [preprocess] (nnScript.py:32-96, body 59-96)

    [loadmat('mnist_all.mat')] is I/O: its result, the dictionary of
    variables of the file in the order [for key in mat] visits them, is the
    input [matfile], an association list from keys to the uint8 matrices
    ([mat nat]).  The keys of the file's header ([__header__],
    [__version__], [__globals__]) have no digit and are skipped before their
    value is read, so their value does not matter.

    [load_loop] is the [for] loop of lines 70-84 on the record
    [load_state] of the four arrays it grows: [re.findall(r'\d+', key)]
    is [findall_digits] (ASCII keys), [int(digData[0])] is
    [int_of_digits], [key[:5] == 'train'] compares [substring 0 5 key];
    [np.append(labels, [val]*len(value), axis=1)] on 1-D arrays is
    [np_append_axis1], whose result depends on the numpy release: releases
    before 1.10 concatenated (with a deprecation warning), 1.10 to 1.12
    raised [IndexError] for the axis out of range, and 1.13 and later raise
    [AxisError]; the model's releases are [Numpy_pre_1_10] and
    [Numpy_current], which stands for 1.13 and later; [np.vstack((data, value/255.0))] is [vstack_scaled], a
    [ValueError] when the widths differ.  The two [np.delete(.., 0, axis=0)]
    of lines 87-88 drop the placeholder first row.

    [np.random.permutation(60000)] (91) is a library call; its result is
    the input [indices], and the theorems assume what numpy promises of
    it: a permutation of [0 .. 59999].  [split_data] is lines 92-95: the
    first 50000 indices select the training rows and labels, the others the
    validation rows and labels; [py_take] is the list comprehension
    [[a[i] for i in idx]] with its [IndexError].

    Theorems: the loop's result with the old numpy (the rows of the train
    and test matrices, in order, each with the digit of its key as label),
    its [AxisError] with the current numpy, pixel values in [0, 1], and the
    split as a permutation of the labelled training examples. *)

From Stdlib Require Import String Ascii List Arith Bool Lia ZArith Permutation Reals Lra.
From S2P Require Import Prelude Scalar Matrix.
Import ListNotations.

(** A data matrix with its parallel label vector, as [preprocess] returns them. *)
Record dataset (K : Type) : Type := Dataset {
  ds_data : list (list K);
  ds_label : list Z
}.
Arguments Dataset {K}.
Arguments ds_data {K} _.
Arguments ds_label {K} _.

(** The numpy release the script runs with: before 1.10, or 1.13 and later. *)
Inductive numpy_release : Type :=
| Numpy_pre_1_10
| Numpy_current.

(** The width of an image, [[0]*784] (lines 61, 63, 67). *)
Definition n_pixels : nat := 784.

(** ** [re.findall(r'\d+', key)] and [int(...)] *)

Definition is_digit (c : ascii) : bool :=
  Nat.leb 48 (nat_of_ascii c) && Nat.leb (nat_of_ascii c) 57.

(** The maximal runs of digits of [s]; [cur] is the run being read,
    reversed. *)
Fixpoint digit_runs (cur : list ascii) (s : list ascii) : list (list ascii) :=
  match s with
  | [] => match cur with [] => [] | _ => [rev cur] end
  | c :: t =>
      if is_digit c then digit_runs (c :: cur) t
      else match cur with
           | [] => digit_runs [] t
           | _ => rev cur :: digit_runs [] t
           end
  end.

Definition findall_digits (key : string) : list (list ascii) :=
  digit_runs [] (list_ascii_of_string key).

Definition int_of_digits (d : list ascii) : nat :=
  fold_left (fun n c => n * 10 + (nat_of_ascii c - 48)) d 0.

(** [key[:5] == 'train']. *)
Definition is_train_key (key : string) : bool := String.eqb (substring 0 5 key) "train".

(** ** Python list indexing *)

(** [[l[i] for i in idx]] for non-negative indices. *)
Fixpoint py_take {A : Type} (l : list A) (idx : list nat) : res (list A) :=
  match idx with
  | [] => Ok []
  | i :: idx' =>
      match nth_error l i with
      | Some x => bind (py_take l idx') (fun r => Ok (x :: r))
      | None => Err IndexError
      end
  end.

Section Preprocess.
Context {K : Type} `{Scalar K}.
Local Open Scope nn_scope.

(** The four arrays the loop of lines 70-84 grows. *)
Record load_state : Type := LoadState {
  train_data_temp : list (list K);
  train_label_temp : list Z;
  test_data : list (list K);
  test_label : list Z
}.

(** [np.append(labels, vals, axis=1)] with 1-D [labels] and [vals]. *)
Definition np_append_axis1 (v : numpy_release) (labels vals : list Z) : res (list Z) :=
  match v with
  | Numpy_pre_1_10 => Ok (labels ++ vals)
  | Numpy_current => Err AxisError
  end.

(** [value/255.0]. *)
Definition scale_pixels (value : mat nat) : list (list K) :=
  map (map (fun p => s_div (s_of_nat p) (s_of_nat 255))) (mdata value).

(** [np.vstack((data, value/255.0))]. *)
Definition vstack_scaled (data : list (list K)) (value : mat nat) : res (list (list K)) :=
  if Nat.eqb (mcols value) n_pixels then Ok (data ++ scale_pixels value) else Err ValueError.

(** One iteration of lines 71-84. *)
Definition load_step (v : numpy_release) (st : load_state) (key : string) (value : mat nat)
    : res load_state :=
  match findall_digits key with
  | [] => Ok st
  | d :: _ =>
      let val := Z.of_nat (int_of_digits d) in
      if is_train_key key then
        l <- np_append_axis1 v (train_label_temp st) (repeat val (mrows value)) ;;
        x <- vstack_scaled (train_data_temp st) value ;;
        Ok (LoadState x l (test_data st) (test_label st))
      else
        l <- np_append_axis1 v (test_label st) (repeat val (mrows value)) ;;
        x <- vstack_scaled (test_data st) value ;;
        Ok (LoadState (train_data_temp st) (train_label_temp st) x l)
  end.

(** [for key in mat:] *)
Fixpoint load_loop (v : numpy_release) (matfile : list (string * mat nat)) (st : load_state)
    : res load_state :=
  match matfile with
  | [] => Ok st
  | (key, value) :: rest =>
      st' <- load_step v st key value ;;
      load_loop v rest st'
  end.

(** Lines 61-68: one placeholder row of zeros in each data matrix. *)
Definition load_init : load_state :=
  LoadState [repeat s_zero n_pixels] [] [repeat s_zero n_pixels] [].

(** Lines 70-88: the loop, then [np.delete(.., 0, axis=0)] of the
    placeholder rows. *)
Definition load (v : numpy_release) (matfile : list (string * mat nat)) : res load_state :=
  st <- load_loop v matfile load_init ;;
  Ok (LoadState (tl (train_data_temp st)) (train_label_temp st) (tl (test_data st)) (test_label st)).

(** Lines 92-95, with [n_train = 50000]. *)
Definition split_data (n_train : nat) (indices : list nat) (data : list (list K)) (labels : list Z)
    : res (dataset K * dataset K) :=
  let training_idx := firstn n_train indices in
  let validation_idx := skipn n_train indices in
  train_data <- py_take data training_idx ;;
  train_label <- py_take labels training_idx ;;
  validation_data <- py_take data validation_idx ;;
  validation_label <- py_take labels validation_idx ;;
  Ok (Dataset train_data train_label, Dataset validation_data validation_label).

(** Lines 59-96: the training, validation and test sets. *)
Definition preprocess (v : numpy_release) (matfile : list (string * mat nat)) (indices : list nat)
    : res (dataset K * dataset K * dataset K) :=
  st <- load v matfile ;;
  sets <- split_data 50000 indices (train_data_temp st) (train_label_temp st) ;;
  let '(train, validation) := sets in
  Ok (train, validation, Dataset (test_data st) (test_label st)).
End Preprocess.

(** ** What the loop collects *)

Section Collected.
Context {K : Type} `{Scalar K}.
Local Open Scope nn_scope.

(** The rows and the labels key [key] adds to the training arrays
    ([train = true]) or to the test arrays. *)
Definition key_rows (train : bool) (key : string) (value : mat nat) : list (list K) :=
  match findall_digits key with
  | [] => []
  | _ :: _ => if Bool.eqb (is_train_key key) train then scale_pixels value else []
  end.

Definition key_labels (train : bool) (key : string) (value : mat nat) : list Z :=
  match findall_digits key with
  | [] => []
  | d :: _ => if Bool.eqb (is_train_key key) train then repeat (Z.of_nat (int_of_digits d)) (mrows value) else []
  end.

Definition rows_of (train : bool) (matfile : list (string * mat nat)) : list (list K) :=
  flat_map (fun kv => key_rows train (fst kv) (snd kv)) matfile.

Definition labels_of (train : bool) (matfile : list (string * mat nat)) : list Z :=
  flat_map (fun kv => key_labels train (fst kv) (snd kv)) matfile.

(** Every matrix whose key has a digit is 784 pixels wide. *)
Definition widths_okb (matfile : list (string * mat nat)) : bool :=
  forallb (fun kv => match findall_digits (fst kv) with
                     | [] => true
                     | _ :: _ => Nat.eqb (mcols (snd kv)) n_pixels
                     end) matfile.

Lemma load_loop_pre_1_10 matfile : forall st,
  load_loop Numpy_pre_1_10 matfile st =
  if widths_okb matfile
  then Ok (LoadState (train_data_temp st ++ rows_of true matfile) (train_label_temp st ++ labels_of true matfile)
                     (test_data st ++ rows_of false matfile) (test_label st ++ labels_of false matfile))
  else Err ValueError.
Proof.
  induction matfile as [|[key value] rest IH]; intros [d1 l1 d2 l2]; simpl.
  - rewrite !app_nil_r. reflexivity.
  - unfold load_step, key_rows, key_labels, widths_okb in *; simpl.
    destruct (findall_digits key) as [|dg ds]; simpl; [apply IH|].
    unfold vstack_scaled. destruct (Nat.eqb (mcols value) n_pixels); simpl;
      [|destruct (is_train_key key); reflexivity].
    destruct (is_train_key key); simpl; rewrite IH; simpl; rewrite ?app_nil_r, ?app_assoc; reflexivity.
Qed.

(** The labelled examples of a key: each row of its matrix with the
    number in the key. *)
Definition key_examples (train : bool) (key : string) (value : mat nat) : list (list K * Z) :=
  match findall_digits key with
  | [] => []
  | d :: _ => if Bool.eqb (is_train_key key) train
              then map (fun r => (r, Z.of_nat (int_of_digits d))) (scale_pixels value)
              else []
  end.

Definition examples_of (train : bool) (matfile : list (string * mat nat)) : list (list K * Z) :=
  flat_map (fun kv => key_examples train (fst kv) (snd kv)) matfile.

Lemma combine_repeat {A B} (l : list A) (b : B) : combine l (repeat b (length l)) = map (fun a => (a, b)) l.
Proof. induction l as [|a l IH]; simpl; f_equal; auto. Qed.

Lemma combine_app {A B} (l1 l2 : list A) (m1 m2 : list B) :
  length l1 = length m1 -> combine (l1 ++ l2) (m1 ++ m2) = combine l1 m1 ++ combine l2 m2.
Proof.
  revert m1; induction l1 as [|a l1 IH]; intros [|b m1] Hl; simpl in *; try lia; auto.
  f_equal. apply IH. lia.
Qed.

Lemma key_rows_labels train key (value : mat nat) :
  (findall_digits key <> [] -> mrows value = length (mdata value)) ->
  length (key_rows train key value) = length (key_labels train key value) /\
  combine (key_rows train key value) (key_labels train key value) = key_examples train key value.
Proof.
  intros Hv. unfold key_rows, key_labels, key_examples.
  destruct (findall_digits key) as [|d ds]; [split; reflexivity|].
  specialize (Hv ltac:(discriminate)).
  destruct (Bool.eqb (is_train_key key) train); [|split; reflexivity].
  assert (Hlen : length (scale_pixels (K := K) value) = mrows value)
    by (unfold scale_pixels; rewrite length_map; symmetry; exact Hv).
  rewrite repeat_length, Hlen. split; [reflexivity|]. rewrite <- Hlen. apply combine_repeat.
Qed.

(** With every matrix as many rows long as its shape says, the rows and
    the labels the loop collects are parallel, and pair every row with the
    number of its key. *)
Lemma rows_labels_of train matfile :
  Forall (fun kv => findall_digits (fst kv) <> [] -> mrows (snd kv) = length (mdata (snd kv))) matfile ->
  length (rows_of train matfile) = length (labels_of train matfile) /\
  combine (rows_of train matfile) (labels_of train matfile) = examples_of train matfile.
Proof.
  induction 1 as [|[key value] rest Hv _ [IHl IHc]]; [split; reflexivity|].
  destruct (key_rows_labels train key value Hv) as [Hl Hc].
  change (rows_of train ((key, value) :: rest)) with (key_rows train key value ++ rows_of train rest).
  change (labels_of train ((key, value) :: rest)) with (key_labels train key value ++ labels_of train rest).
  change (examples_of train ((key, value) :: rest)) with (key_examples train key value ++ examples_of train rest).
  rewrite !length_app, combine_app, Hl, IHl, Hc, IHc by exact Hl. split; reflexivity.
Qed.
End Collected.

Section LoadLemmas.
Context {K : Type} `{Scalar K}.
Local Open Scope nn_scope.

(** What a successful load returns with the old numpy. *)
Lemma load_pre_1_10_Ok matfile (st : load_state (K := K)) :
  load Numpy_pre_1_10 matfile = Ok st ->
  st = LoadState (rows_of true matfile) (labels_of true matfile) (rows_of false matfile) (labels_of false matfile).
Proof.
  unfold load. rewrite load_loop_pre_1_10. destruct (widths_okb matfile); [|discriminate].
  intros [= <-]. reflexivity.
Qed.

(** With the current numpy the first key with a digit raises. *)
Lemma load_loop_current matfile : forall (st : load_state (K := K)),
  (exists key value, In (key, value) matfile /\ findall_digits key <> []) ->
  load_loop Numpy_current matfile st = Err AxisError.
Proof.
  induction matfile as [|[key value] rest IH]; intros st (k & v & Hin & Hd); [destruct Hin|].
  simpl. unfold load_step. destruct (findall_digits key) as [|d ds] eqn:Hk.
  - apply IH. destruct Hin as [[= -> ->]|Hin]; [congruence | eauto].
  - destruct (is_train_key key); reflexivity.
Qed.
End LoadLemmas.

(** ** Properties of the loading loop *)

Section LoadProperties.
Context {K : Type} `{Scalar K}.

(** C28: with a numpy older than 1.10, the loop and the two deletes
    return the rows of the keys with a digit, scaled by [1/255] and in the
    order of the file, the training rows from the keys starting with
    [train] and the test rows from the others, each key's rows labelled
    [mrows] times with the number in the key; a matrix of a width other
    than 784 is the [ValueError] of [np.vstack]. *)
Theorem load_pre_1_10 (matfile : list (string * mat nat)) :
  load Numpy_pre_1_10 matfile =
  if widths_okb matfile
  then Ok (LoadState (K := K) (rows_of true matfile) (labels_of true matfile)
                     (rows_of false matfile) (labels_of false matfile))
  else Err ValueError.
Proof. unfold load. rewrite load_loop_pre_1_10. destruct (widths_okb matfile); reflexivity. Qed.

(** C29: the labels stay with their rows: when every matrix of a key with
    a digit is as long as its shape says, the training (test) rows and
    labels [load] returns are parallel arrays that pair each row of a
    training (test) key's matrix with the number in that key. *)
Theorem load_examples (matfile : list (string * mat nat)) (st : load_state (K := K)) :
  Forall (fun kv => findall_digits (fst kv) <> [] -> mrows (snd kv) = length (mdata (snd kv))) matfile ->
  load Numpy_pre_1_10 matfile = Ok st ->
  length (train_data_temp st) = length (train_label_temp st) /\
  combine (train_data_temp st) (train_label_temp st) = examples_of true matfile /\
  length (test_data st) = length (test_label st) /\
  combine (test_data st) (test_label st) = examples_of false matfile.
Proof.
  intros Hwf Hst. rewrite (load_pre_1_10_Ok _ _ Hst). cbn [train_data_temp train_label_temp test_data test_label].
  destruct (rows_labels_of true matfile Hwf), (rows_labels_of false matfile Hwf). auto.
Qed.

(** With numpy 1.13 or later the first key with a digit reaches
    [np.append(.., axis=1)] on 1-D arrays, which raises [AxisError]. *)
Lemma load_current_AxisError (matfile : list (string * mat nat)) :
  (exists key value, In (key, value) matfile /\ findall_digits key <> []) ->
  load (K := K) Numpy_current matfile = Err AxisError.
Proof. intros Hk. unfold load. rewrite (load_loop_current matfile load_init Hk). reflexivity. Qed.
End LoadProperties.

Section PixelsReal.
Local Open Scope R_scope.

Lemma scale_pixel_bounds (p : nat) : (p <= 255)%nat -> 0 <= INR p / INR 255 <= 1.
Proof.
  intros Hp. apply le_INR in Hp. pose proof (pos_INR p).
  assert (H255 : INR 255 = 255) by (rewrite INR_IZR_INZ; reflexivity). rewrite H255 in *.
  split; unfold Rdiv; [apply Rmult_le_pos; [lra | left; apply Rinv_0_lt_compat; lra]|].
  apply (Rmult_le_reg_r 255); [lra|]. rewrite Rmult_assoc, Rinv_l by lra. lra.
Qed.

Lemma rows_of_bounds train (matfile : list (string * mat nat)) :
  (forall kv, In kv matfile -> Forall (Forall (fun p => p <= 255)%nat) (mdata (snd kv))) ->
  Forall (Forall (fun x => 0 <= x <= 1)) (rows_of (K := R) train matfile).
Proof.
  intros Hpix. apply Forall_forall. intros row Hrow.
  apply in_flat_map in Hrow as ([key value] & Hin & Hrow). unfold key_rows in Hrow. cbn [fst snd] in Hrow.
  destruct (findall_digits key); cbv iota in Hrow; [destruct Hrow|].
  destruct (Bool.eqb (is_train_key key) train); cbv iota in Hrow; [|destruct Hrow].
  unfold scale_pixels in Hrow. apply in_map_iff in Hrow as (r & <- & Hr). specialize (Hpix _ Hin). cbn [snd] in Hpix.
  rewrite Forall_forall in Hpix. specialize (Hpix r Hr). rewrite Forall_forall in Hpix.
  apply Forall_forall. intros x (p & <- & Hp)%in_map_iff. exact (scale_pixel_bounds p (Hpix p Hp)).
Qed.

(** C30: the pixel values [load] returns are normalised: a file of uint8
    pixels (at most 255) gives training and test entries [value/255.0] in
    [[0, 1]]. *)
Theorem load_pixels_unit (matfile : list (string * mat nat)) (st : load_state (K := R)) :
  (forall kv, In kv matfile -> Forall (Forall (fun p => p <= 255)%nat) (mdata (snd kv))) ->
  load Numpy_pre_1_10 matfile = Ok st ->
  Forall (Forall (fun x => 0 <= x <= 1)) (train_data_temp st) /\
  Forall (Forall (fun x => 0 <= x <= 1)) (test_data st).
Proof.
  intros Hpix Hst. rewrite (load_pre_1_10_Ok _ _ Hst).
  split; apply rows_of_bounds, Hpix.
Qed.

(** A file of a header, one training image and two test images. *)
Definition ex_mat : list (string * mat nat) :=
  [("__header__"%string, Mat 0 0 []);
   ("train7"%string, Mat 1 784 [repeat 3%nat 784]);
   ("test4"%string, Mat 2 784 [repeat 0%nat 784; repeat 255%nat 784])].

Lemma load_pixels_unit_witness :
  exists st, load Numpy_pre_1_10 ex_mat = Ok st /\
  Forall (Forall (fun x => 0 <= x <= 1)) (train_data_temp st) /\
  Forall (Forall (fun x => 0 <= x <= 1)) (test_data st).
Proof.
  assert (Hok : is_Ok (load (K := R) Numpy_pre_1_10 ex_mat) = true) by reflexivity.
  destruct (is_Ok_spec _ Hok) as [st Hst]. exists st. split; [exact Hst|].
  apply (load_pixels_unit ex_mat st); [|exact Hst].
  intros kv Hin. unfold ex_mat in Hin.
  destruct Hin as [<-|[<-|[<-|[]]]]; cbn [mdata snd];
    repeat (apply Forall_cons; [apply Forall_forall; intros p Hp%repeat_spec; lia|]); constructor.
Defined.
End PixelsReal.

(** ** The split of lines 91-95 *)

Section Split.
Context {A B : Type}.

Lemma py_take_Ok (l : list A) idx d :
  Forall (fun i => i < length l) idx -> py_take l idx = Ok (map (fun i => nth i l d) idx).
Proof.
  induction 1 as [|i idx Hi _ IH]; simpl; [reflexivity|].
  rewrite (nth_error_nth' l d Hi), IH. reflexivity.
Qed.

Lemma py_take_Err (l : list A) idx :
  Exists (fun i => length l <= i) idx -> py_take l idx = Err IndexError.
Proof.
  induction 1 as [i idx Hi|i idx _ IH]; simpl.
  - rewrite (proj2 (nth_error_None l i) Hi). reflexivity.
  - destruct (nth_error l i); [rewrite IH|]; reflexivity.
Qed.

Lemma py_take_err (l : list A) idx e : py_take l idx = Err e -> e = IndexError.
Proof.
  induction idx as [|i idx IH]; simpl; [discriminate|].
  destruct (nth_error l i); [|congruence].
  destruct (py_take l idx) as [r|e']; simpl; [discriminate|]. intros [= <-]. apply IH. reflexivity.
Qed.

Lemma combine_map_same (f : nat -> A) (g : nat -> B) idx :
  combine (map f idx) (map g idx) = map (fun i => (f i, g i)) idx.
Proof. induction idx; simpl; f_equal; auto. Qed.

Lemma map_nth_seq_firstn (l : list A) d : forall n,
  n <= length l -> map (fun i => nth i l d) (seq 0 n) = firstn n l.
Proof.
  induction l as [|x l IH]; intros [|n] Hn; simpl in *; try lia; try reflexivity.
  f_equal. rewrite <- seq_shift, map_map. apply IH. lia.
Qed.

Lemma Forall_map_nth (P : A -> Prop) (l : list A) d idx :
  Forall P l -> Forall (fun i => i < length l) idx -> Forall P (map (fun i => nth i l d) idx).
Proof.
  intros Hl Hidx. rewrite Forall_forall in *. intros x (i & <- & Hi)%in_map_iff.
  apply Hl, nth_In, Hidx, Hi.
Qed.

Lemma Forall_firstn_skipn (P : nat -> Prop) k idx :
  Forall P idx -> Forall P (firstn k idx) /\ Forall P (skipn k idx).
Proof. intros HP. rewrite <- (firstn_skipn k idx) in HP. apply Forall_app in HP. exact HP. Qed.
End Split.

Section SplitProperties.
Context {K : Type} `{Scalar K}.

(** With every index below the number of rows and a label per row, the
    split is the rows and labels at the first [k] indices and at the
    others. *)
Lemma split_data_Ok k (indices : list nat) (data : list (list K)) (labels : list Z) :
  Forall (fun i => i < length data) indices -> length labels = length data ->
  split_data k indices data labels =
  Ok (Dataset (map (fun i => nth i data []) (firstn k indices)) (map (fun i => nth i labels 0%Z) (firstn k indices)),
      Dataset (map (fun i => nth i data []) (skipn k indices)) (map (fun i => nth i labels 0%Z) (skipn k indices))).
Proof.
  intros Hall Hl. destruct (Forall_firstn_skipn _ k _ Hall) as [H1 H2].
  unfold split_data. rewrite !(py_take_Ok data _ []) by assumption.
  rewrite !(py_take_Ok labels _ 0%Z) by (rewrite Hl; assumption). reflexivity.
Qed.

Lemma permutation_indices_bound n (indices : list nat) m :
  Permutation indices (seq 0 n) -> n <= m -> Forall (fun i => i < m) indices.
Proof.
  intros Hp Hn. apply Forall_forall. intros i Hi. apply (Permutation_in _ Hp), in_seq in Hi. lia.
Qed.

(** C31: when the indices are a permutation of [0 .. n-1] (what
    [np.random.permutation(n)] returns) and the training arrays have at
    least [n] parallel rows and labels, the split returns a training set of
    the first [k] indices and a validation set of the other [n - k], and
    together they hold every one of the first [n] labelled examples
    exactly once, each row with its own label.  With the script's
    [n = 60000], rows after the 60000th are dropped. *)
Theorem split_permutation (n k : nat) (indices : list nat) (data : list (list K)) (labels : list Z) :
  Permutation indices (seq 0 n) -> k <= n -> n <= length data -> length labels = length data ->
  exists tr va, split_data k indices data labels = Ok (tr, va) /\
    length (ds_data tr) = k /\ length (ds_label tr) = k /\
    length (ds_data va) = n - k /\ length (ds_label va) = n - k /\
    Permutation (combine (ds_data tr) (ds_label tr) ++ combine (ds_data va) (ds_label va))
                (firstn n (combine data labels)).
Proof.
  intros Hp Hk Hn Hl.
  assert (Hlen : length indices = n) by (rewrite (Permutation_length Hp), length_seq; reflexivity).
  rewrite (split_data_Ok k indices data labels (permutation_indices_bound _ _ _ Hp Hn) Hl).
  eexists _, _. split; [reflexivity|]. cbn [ds_data ds_label].
  rewrite !length_map, length_firstn, length_skipn, Hlen, Nat.min_l by exact Hk.
  repeat split; [].
  rewrite !combine_map_same, <- map_app, firstn_skipn.
  rewrite <- (map_nth_seq_firstn (combine data labels) ([], 0%Z)) by (rewrite length_combine; lia).
  rewrite (map_ext_in _ (fun i => (nth i data [], nth i labels 0%Z)) (seq 0 n)).
  - apply Permutation_map, Hp.
  - intros i _. apply combine_nth. symmetry. exact Hl.
Qed.

(** C32: with fewer than [n] training rows the split raises [IndexError]
    (the MNIST file must hold at least 60000 training images). *)
Theorem split_IndexError (n k : nat) (indices : list nat) (data : list (list K)) (labels : list Z) :
  Permutation indices (seq 0 n) -> length data < n ->
  split_data k indices data labels = Err IndexError.
Proof.
  intros Hp Hn.
  assert (Hin : In (length data) indices) by (apply (Permutation_in _ (Permutation_sym Hp)), in_seq; lia).
  rewrite <- (firstn_skipn k indices) in Hin. apply in_app_or in Hin. unfold split_data.
  destruct Hin as [Hin|Hin].
  - rewrite (py_take_Err data (firstn k indices)) by (apply Exists_exists; eauto). reflexivity.
  - destruct (py_take data (firstn k indices)) as [a|e] eqn:E1; cbn [bind];
      [|rewrite (py_take_err _ _ _ E1); reflexivity].
    destruct (py_take labels (firstn k indices)) as [b|e] eqn:E2; cbn [bind];
      [|rewrite (py_take_err _ _ _ E2); reflexivity].
    rewrite (py_take_Err data (skipn k indices)) by (apply Exists_exists; eauto). reflexivity.
Qed.
End SplitProperties.

(** ** What [preprocess] hands to the script *)

Section Handoff.
Context {K : Type} `{Scalar K}.
Local Open Scope nn_scope.

(** The file's matrices whose key has a digit are well formed and 784
    pixels wide. *)
Definition file_ok (matfile : list (string * mat nat)) : Prop :=
  forall key value, In (key, value) matfile -> findall_digits key <> [] ->
    wf_mat value /\ mcols value = n_pixels.

Lemma file_ok_widths matfile : file_ok matfile -> widths_okb matfile = true.
Proof.
  intros Hok. apply forallb_forall. intros [key value] Hin. cbn [fst snd].
  destruct (findall_digits key) eqn:Hd; [reflexivity|].
  apply Nat.eqb_eq, (Hok key value Hin). congruence.
Qed.

Lemma file_ok_rows matfile :
  file_ok matfile ->
  Forall (fun kv => findall_digits (fst kv) <> [] -> mrows (snd kv) = length (mdata (snd kv))) matfile.
Proof.
  intros Hok. apply Forall_forall. intros [key value] Hin Hd. symmetry. apply (Hok key value Hin Hd).
Qed.

Lemma rows_of_width train matfile :
  file_ok matfile -> Forall (fun r => length r = n_pixels) (rows_of (K := K) train matfile).
Proof.
  intros Hok. apply Forall_forall. intros row Hrow.
  apply in_flat_map in Hrow as ([key value] & Hin & Hrow). unfold key_rows in Hrow. cbn [fst snd] in Hrow.
  destruct (findall_digits key) eqn:Hd; cbv iota in Hrow; [destruct Hrow|].
  destruct (Hok key value Hin ltac:(congruence)) as [[_ Hw] Hc].
  destruct (Bool.eqb (is_train_key key) train); cbv iota in Hrow; [|destruct Hrow].
  unfold scale_pixels in Hrow. apply in_map_iff in Hrow as (r & <- & Hr).
  rewrite length_map, <- Hc. rewrite Forall_forall in Hw. apply Hw, Hr.
Qed.

(** The training labels are the numbers of the training keys. *)
Lemma labels_of_bound matfile (nc : nat) :
  (forall key value d ds, In (key, value) matfile -> findall_digits key = d :: ds ->
     is_train_key key = true -> int_of_digits d < nc) ->
  Forall (fun l => (0 <= l < Z.of_nat nc)%Z) (labels_of true matfile).
Proof.
  intros Hnum. apply Forall_forall. intros l Hl.
  apply in_flat_map in Hl as ([key value] & Hin & Hl). unfold key_labels in Hl. cbn [fst snd] in Hl.
  destruct (findall_digits key) as [|d ds] eqn:Hd; cbv iota in Hl; [destruct Hl|].
  destruct (is_train_key key) eqn:Ht; cbn in Hl; [|destruct Hl].
  apply repeat_spec in Hl. subst l. specialize (Hnum key value d ds Hin Hd Ht). lia.
Qed.

(** With the old numpy, a well-formed file and a permutation of
    [0 .. 59999] over at least 60000 training rows, [preprocess] returns
    the rows and labels at the first 50000 indices, at the others, and the
    test rows and labels. *)
Lemma preprocess_pre_1_10_Ok matfile (indices : list nat) :
  file_ok matfile -> Permutation indices (seq 0 60000) -> 60000 <= length (rows_of (K := K) true matfile) ->
  preprocess Numpy_pre_1_10 matfile indices =
  Ok (Dataset (map (fun i => nth i (rows_of true matfile) []) (firstn 50000 indices))
              (map (fun i => nth i (labels_of true matfile) 0%Z) (firstn 50000 indices)),
      Dataset (map (fun i => nth i (rows_of true matfile) []) (skipn 50000 indices))
              (map (fun i => nth i (labels_of true matfile) 0%Z) (skipn 50000 indices)),
      Dataset (rows_of (K := K) false matfile) (labels_of false matfile)).
Proof.
  intros Hok Hp Hn. unfold preprocess, load. rewrite load_loop_pre_1_10, (file_ok_widths _ Hok).
  destruct (rows_labels_of (K := K) true matfile (file_ok_rows _ Hok)) as [Hl _].
  cbn [bind train_data_temp train_label_temp test_data test_label load_init app tl].
  rewrite split_data_Ok by (exact (permutation_indices_bound _ _ _ Hp Hn) || symmetry; exact Hl).
  reflexivity.
Qed.
End Handoff.

(** ** Runs at the rationals *)

From Stdlib Require Import QArith.

Lemma load_examples_witness :
  exists st, load Numpy_pre_1_10 ex_mat = Ok st /\
  length (train_data_temp st) = length (train_label_temp st) /\
  combine (train_data_temp st) (train_label_temp st) = examples_of (K := Q) true ex_mat /\
  length (test_data st) = length (test_label st) /\
  combine (test_data st) (test_label st) = examples_of false ex_mat.
Proof.
  assert (Hok : is_Ok (load (K := Q) Numpy_pre_1_10 ex_mat) = true) by (vm_compute; reflexivity).
  destruct (is_Ok_spec _ Hok) as [st Hst]. exists st. split; [exact Hst|].
  apply (load_examples ex_mat st); [repeat constructor; intros _; reflexivity | exact Hst].
Defined.

Definition ex_rows : list (list Q) := [[1#2; 0]; [0; 1]; [1; 1#4]].

Lemma split_permutation_witness :
  exists tr va, split_data 2 [2%nat; 0%nat; 1%nat] ex_rows [7%Z; 2%Z; 7%Z] = Ok (tr, va) /\
    length (ds_data tr) = 2%nat /\ length (ds_label tr) = 2%nat /\
    length (ds_data va) = (3 - 2)%nat /\ length (ds_label va) = (3 - 2)%nat /\
    Permutation (combine (ds_data tr) (ds_label tr) ++ combine (ds_data va) (ds_label va))
                (firstn 3 (combine ex_rows [7%Z; 2%Z; 7%Z])).
Proof.
  apply split_permutation; [|lia | simpl; lia | reflexivity].
  simpl. eapply perm_trans; [apply perm_swap|]. apply perm_skip, perm_swap.
Defined.

Lemma split_IndexError_witness :
  split_data 2 [2%nat; 0%nat; 1%nat] (firstn 2 ex_rows) [7%Z; 2%Z] = Err IndexError.
Proof.
  apply (split_IndexError 3); [|simpl; lia].
  simpl. eapply perm_trans; [apply perm_swap|]. apply perm_skip, perm_swap.
Defined.
