(* ===== verification/Script.v ===== *)
(** * The training script (nnScript.py:235-291) as an orchestration function

    The module-level code of the script, from the data sets [preprocess]
    returned to the three accuracy reports, as one function [run] of the
    configuration (n_hidden, lambdaval, n_class, maxiter), the random
    generator and the three data sets, in the order the script runs it:
    [n_input] from the shape of the training data (241), the two initial
    weight matrices and their concatenation (253-257), the call to the
    optimizer through the [Minimizer] interface (259-264), the reshape of
    its result (271-272), and [nnPredict] with the accuracy on the training,
    validation and test sets (275-291).  The printed strings are I/O; the
    model returns the three accuracies ([None] for NaN) and the weights.
    [script_config] is the script's configuration: 88 hidden units,
    lambdaval 0.4, 10 classes, [maxiter] 50.

    Theorems, proved against the optimizer's contract [MinimizerSpec]:
    when the data are well formed the script returns exactly when the
    optimizer does; and with any driver that meets the contract and
    always returns ([MinimizerTotal]; both drivers of [Optimizer] do), in
    particular the gradient-descent driver at the reals, the whole program
    returns on a well-formed file, with accuracies in [0, 100]. *)

From Stdlib Require Import String List Arith Bool Lia ZArith Permutation Reals Lra.
From S2P Require Import Prelude Scalar Matrix Objective Predict Accuracy Init Optimizer Preprocess.
Import ListNotations.

(** The values of lines 244-250 and 263. *)
Record config (K : Type) : Type := Config {
  cfg_hidden : nat;
  cfg_lambda : K;
  cfg_class : nat;
  cfg_maxiter : nat
}.
Arguments Config {K}.
Arguments cfg_hidden {K} _.
Arguments cfg_lambda {K} _.
Arguments cfg_class {K} _.
Arguments cfg_maxiter {K} _.

(** The trained weights (271-272) and the three reported accuracies. *)
Record report (K : Type) : Type := Report {
  rep_w1 : mat K;
  rep_w2 : mat K;
  rep_train : option K;
  rep_valid : option K;
  rep_test : option K
}.
Arguments Report {K}.
Arguments rep_w1 {K} _.
Arguments rep_w2 {K} _.
Arguments rep_train {K} _.
Arguments rep_valid {K} _.
Arguments rep_test {K} _.

Section Script.
Context {K : Type} `{Scalar K}.
Local Open Scope nn_scope.

(** Lines 244-250 and 263. *)
Definition script_config : config K :=
  Config 88 (s_div (s_of_nat 4) (s_of_nat 10)) 10 50.

(** [np.shape(train_data)[1]] (241): the [IndexError] of the 1-D empty
    array [preprocess] builds from an empty index list. *)
Definition n_input_of (data : list (list K)) : res nat :=
  match data with
  | [] => Err IndexError
  | r :: _ => Ok (length r)
  end.

(** The [args] tuple of line 259. *)
Definition script_args (cfg : config K) (n_input : nat) (train : dataset K) : nn_args K :=
  NnArgs n_input (cfg_hidden cfg) (cfg_class cfg) (ds_data train) (ds_label train) (cfg_lambda cfg).

(** [nnPredict] on a data set and its accuracy (275-291). *)
Definition evaluate (w1 w2 : mat K) (d : dataset K) : res (option K) :=
  predicted_label <- nnPredict w1 w2 (ds_data d) ;;
  accuracy predicted_label (ds_label d).

(** Lines 241-291. *)
Definition run `{Minimizer K} (cfg : config K) (g : rng K) (train valid test : dataset K)
    : res (report K * rng K) :=
  n_input <- n_input_of (ds_data train) ;;
  let n_hidden := cfg_hidden cfg in
  let n_class := cfg_class cfg in
  let '(initialWeights, g') := initial_params g n_input n_hidden n_class in
  let args := script_args cfg n_input train in
  x <- minimize (fun p => nnObjFunction p args) initialWeights (cfg_maxiter cfg) ;;
  w1 <- reshape (slice 0 (n_hidden * (n_input + 1)) x) n_hidden (n_input + 1) ;;
  w2 <- reshape (skipn (n_hidden * (n_input + 1)) x) n_class (n_hidden + 1) ;;
  a_train <- evaluate w1 w2 train ;;
  a_valid <- evaluate w1 w2 valid ;;
  a_test <- evaluate w1 w2 test ;;
  Ok (Report w1 w2 a_train a_valid a_test, g').

(** Lines 235-291: [preprocess()], then the script; [indices] is the
    permutation [np.random.permutation(60000)] draws, [g] the generator
    after it. *)
Definition main `{Minimizer K} (v : numpy_release) (cfg : config K) (matfile : list (string * mat nat))
    (indices : list nat) (g : rng K) : res (report K * rng K) :=
  sets <- preprocess v matfile indices ;;
  let '(train, valid, test) := sets in
  run cfg g train valid test.
End Script.

(** ** The script succeeds when the data are well formed *)

Section ScriptLemmas.
Context {K : Type} `{Scalar K}.
Local Open Scope nn_scope.

(** What the data sets and the configuration must satisfy: a non-empty
    training set, every row of the three sets of width [ni], training
    labels in [-n_class .. n_class-1], at least one class and one hidden
    unit, and a label per row. *)
Definition script_pre (cfg : config K) (train valid test : dataset K) (ni : nat) : Prop :=
  ds_data train <> [] /\
  Forall (fun r => length r = ni) (ds_data train) /\
  Forall (fun r => length r = ni) (ds_data valid) /\
  Forall (fun r => length r = ni) (ds_data test) /\
  labels_ok (cfg_class cfg) (ds_label train) 0 (length (ds_data train)) /\
  cfg_class cfg <> 0 /\
  cfg_hidden cfg <> 0 /\
  length (ds_label train) = length (ds_data train) /\
  length (ds_label valid) = length (ds_data valid) /\
  length (ds_label test) = length (ds_data test).

Definition rows_widthb (ni : nat) (data : list (list K)) : bool :=
  forallb (fun r => Nat.eqb (length r) ni) data.

Definition script_preb (cfg : config K) (train valid test : dataset K) (ni : nat) : bool :=
  negb (Nat.eqb (length (ds_data train)) 0) &&
  rows_widthb ni (ds_data train) && rows_widthb ni (ds_data valid) && rows_widthb ni (ds_data test) &&
  labels_okb (cfg_class cfg) (ds_label train) 0 (length (ds_data train)) &&
  negb (Nat.eqb (cfg_class cfg) 0) &&
  negb (Nat.eqb (cfg_hidden cfg) 0) &&
  Nat.eqb (length (ds_label train)) (length (ds_data train)) &&
  Nat.eqb (length (ds_label valid)) (length (ds_data valid)) &&
  Nat.eqb (length (ds_label test)) (length (ds_data test)).

Lemma rows_widthb_spec ni data : rows_widthb ni data = true -> Forall (fun r => length r = ni) data.
Proof. unfold rows_widthb. rewrite forallb_forall, Forall_forall. intros Hr r Hin. apply Nat.eqb_eq, Hr, Hin. Qed.

Lemma script_preb_spec cfg train valid test ni :
  script_preb cfg train valid test ni = true -> script_pre cfg train valid test ni.
Proof.
  unfold script_preb, script_pre. rewrite !andb_true_iff, !negb_true_iff, !Nat.eqb_eq, !Nat.eqb_neq.
  intros [[[[[[[[[Hn Htr] Hva] Hte] Hlab] Hnc] Hnh] Ltr] Lva] Lte].
  repeat split; try (apply rows_widthb_spec; assumption); try (apply labels_okb_spec; assumption);
    try assumption.
  intros He. rewrite He in Hn. apply Hn. reflexivity.
Qed.

Lemma n_input_of_Ok (data : list (list K)) ni :
  data <> [] -> Forall (fun r => length r = ni) data -> n_input_of data = Ok ni.
Proof. destruct data as [|r rs]; [congruence|]. intros _ Hrows. inversion Hrows; subst. reflexivity. Qed.

(** With weights of the right shapes the evaluation of a well-formed
    data set returns the percentage of the comparison [e], which has a
    position per row. *)
Lemma evaluate_Ok ni nh nc (w1 w2 : mat K) (d : dataset K) :
  has_shape nh (ni + 1) w1 -> has_shape nc (nh + 1) w2 -> nc <> 0 ->
  Forall (fun r => length r = ni) (ds_data d) -> length (ds_label d) = length (ds_data d) ->
  exists e, length e = length (ds_data d) /\
    evaluate w1 w2 d = Ok (option_map (fun m => s_mul (s_of_nat 100) m) (np_mean (astype_float e))).
Proof.
  intros Hw1 Hw2 Hnc Hrows Hl.
  destruct (proj2 (predict_loop_Ok_iff ni nh nc w1 w2 (ds_data d) [] Hw1 Hw2 Hnc) Hrows) as [pred Hp].
  destruct (predict_loop_app _ _ _ _ _ Hp) as (new & -> & Hn). simpl in Hp.
  exists (zipWith (fun p t => Z.eqb (Z.of_nat p) t) new (ds_label d)).
  rewrite length_zipWith, Hn, Hl, Nat.min_id. split; [reflexivity|].
  unfold evaluate, nnPredict. rewrite Hp; cbn [bind]. unfold accuracy.
  rewrite np_eq_same_length by congruence. reflexivity.
Qed.

(** The optimizer's result, of the length of the initial vector, reshapes
    into the two weight matrices. *)
Lemma reshape_result ni nh nc (x : list K) (g : rng K) :
  length x = length (fst (initial_params g ni nh nc)) ->
  exists w1 w2,
    reshape (slice 0 (nh * (ni + 1)) x) nh (ni + 1) = Ok w1 /\
    reshape (skipn (nh * (ni + 1)) x) nc (nh + 1) = Ok w2 /\
    has_shape nh (ni + 1) w1 /\ has_shape nc (nh + 1) w2 /\ flatten w1 ++ flatten w2 = x.
Proof.
  rewrite initial_params_length. intros Hl.
  destruct (reshape_params ni nh nc x Hl) as (w1 & w2 & H1 & H2 & Hx).
  exists w1, w2. repeat split; try assumption; eapply reshape_shape; eassumption.
Qed.

(** [run] unfolded to the optimizer call, once the training set is known
    to have rows of width [ni]. *)
Lemma run_unfold `{Minimizer K} cfg (g : rng K) train valid test ni :
  n_input_of (ds_data train) = Ok ni ->
  run cfg g train valid test =
  (x <- minimize (fun p => nnObjFunction p (script_args cfg ni train))
          (fst (initial_params g ni (cfg_hidden cfg) (cfg_class cfg))) (cfg_maxiter cfg) ;;
   w1 <- reshape (slice 0 (cfg_hidden cfg * (ni + 1)) x) (cfg_hidden cfg) (ni + 1) ;;
   w2 <- reshape (skipn (cfg_hidden cfg * (ni + 1)) x) (cfg_class cfg) (cfg_hidden cfg + 1) ;;
   a_train <- evaluate w1 w2 train ;;
   a_valid <- evaluate w1 w2 valid ;;
   a_test <- evaluate w1 w2 test ;;
   Ok (Report w1 w2 a_train a_valid a_test, snd (initial_params g ni (cfg_hidden cfg) (cfg_class cfg)))).
Proof.
  intros Hni. unfold run. rewrite Hni; cbn [bind].
  destruct (initial_params g ni (cfg_hidden cfg) (cfg_class cfg)). reflexivity.
Qed.

(** Once the optimizer has returned a vector of the initial vector's
    length, the rest of the script returns. *)
Lemma run_Ok_of_minimize `{Minimizer K} cfg (g : rng K) train valid test ni x :
  script_pre cfg train valid test ni ->
  minimize (fun p => nnObjFunction p (script_args cfg ni train))
    (fst (initial_params g ni (cfg_hidden cfg) (cfg_class cfg))) (cfg_maxiter cfg) = Ok x ->
  length x = length (fst (initial_params g ni (cfg_hidden cfg) (cfg_class cfg))) ->
  exists w1 w2 a1 a2 a3,
    run cfg g train valid test =
      Ok (Report w1 w2 a1 a2 a3, snd (initial_params g ni (cfg_hidden cfg) (cfg_class cfg))) /\
    has_shape (cfg_hidden cfg) (ni + 1) w1 /\ has_shape (cfg_class cfg) (cfg_hidden cfg + 1) w2 /\
    evaluate w1 w2 train = Ok a1 /\ evaluate w1 w2 valid = Ok a2 /\ evaluate w1 w2 test = Ok a3.
Proof.
  intros (Hne & Htr & Hva & Hte & _ & Hnc & _ & Ltr & Lva & Lte) Hx Hl.
  rewrite (run_unfold _ _ _ _ _ ni (n_input_of_Ok _ _ Hne Htr)), Hx; cbn [bind].
  destruct (reshape_result _ _ _ _ _ Hl) as (w1 & w2 & H1 & H2 & Hs1 & Hs2 & _).
  rewrite H1, H2; cbn [bind].
  destruct (evaluate_Ok _ _ _ w1 w2 train Hs1 Hs2 Hnc Htr Ltr) as (e1 & _ & E1).
  destruct (evaluate_Ok _ _ _ w1 w2 valid Hs1 Hs2 Hnc Hva Lva) as (e2 & _ & E2).
  destruct (evaluate_Ok _ _ _ w1 w2 test Hs1 Hs2 Hnc Hte Lte) as (e3 & _ & E3).
  rewrite E1, E2, E3; cbn [bind]. eexists _, _, _, _, _. eauto 7.
Qed.

(** On well-formed data the engine returns, on every vector of the
    initial vector's length, a loss and a gradient of that length. *)
Lemma script_objective_total cfg (g : rng K) train valid test ni :
  script_pre cfg train valid test ni ->
  forall y, length y = length (fst (initial_params g ni (cfg_hidden cfg) (cfg_class cfg))) ->
  exists v gr, nnObjFunction y (script_args cfg ni train) = Ok (v, gr) /\ length gr = length y.
Proof.
  intros (Hne & Htr & _ & _ & Hlab & _ & Hnh & _) y Hy. rewrite initial_params_length in Hy.
  destruct (nnObjFunction_Ok_intro y (script_args cfg ni train)) as (v & gr & Hobj);
    [repeat split; assumption|].
  exists v, gr. split; [exact Hobj | exact (nnObjFunction_Ok_length _ _ _ _ Hobj)].
Qed.

Lemma labels_ok_of_Forall nc (labels : list Z) n :
  Forall (fun l => (0 <= l < Z.of_nat nc)%Z) labels -> n <= length labels -> labels_ok nc labels 0 n.
Proof.
  intros Hall Hn k Hk. simpl.
  destruct (nth_error labels k) as [l|] eqn:Hl; [|apply nth_error_None in Hl; lia].
  exists l. split; [reflexivity|]. rewrite Forall_forall in Hall.
  pose proof (Hall l (nth_error_In _ _ Hl)). unfold label_ok. lia.
Qed.

(** The numbers of the training keys are class indices. *)
Definition train_keys_below (matfile : list (string * mat nat)) (nc : nat) : Prop :=
  forall key value d ds, In (key, value) matfile -> findall_digits key = d :: ds ->
    is_train_key key = true -> int_of_digits d < nc.

(** With the old numpy, the data sets [preprocess] returns from a
    well-formed file meet what the script needs. *)
Lemma preprocess_script_pre cfg matfile (indices : list nat) :
  file_ok matfile -> train_keys_below matfile (cfg_class cfg) -> cfg_class cfg <> 0 -> cfg_hidden cfg <> 0 ->
  Permutation indices (seq 0 60000) -> 60000 <= length (rows_of (K := K) true matfile) ->
  exists train valid test, preprocess Numpy_pre_1_10 matfile indices = Ok (train, valid, test) /\
    script_pre cfg train valid test n_pixels /\
    ds_data valid <> [] /\ ds_data test = rows_of false matfile.
Proof.
  intros Hok Hkeys Hnc Hnh Hp Hn. rewrite (preprocess_pre_1_10_Ok _ _ Hok Hp Hn).
  do 3 eexists. split; [reflexivity|]. cbn [ds_data].
  split; [|split; [|reflexivity]].
  2:{ intros E. apply (f_equal (@length _)) in E.
      rewrite length_map, length_skipn, (Permutation_length Hp), length_seq in E. vm_compute in E. discriminate. }
  destruct (rows_labels_of (K := K) true matfile (file_ok_rows _ Hok)) as [Hl _].
  destruct (rows_labels_of (K := K) false matfile (file_ok_rows _ Hok)) as [Hlt _].
  pose proof (permutation_indices_bound _ _ _ Hp Hn) as Hb.
  pose proof (permutation_indices_bound _ _ _ Hp (eq_ind _ (fun m => 60000 <= m) Hn _ Hl)) as Hbl.
  destruct (Forall_firstn_skipn _ 50000 _ Hb) as [Hb1 Hb2].
  destruct (Forall_firstn_skipn _ 50000 _ Hbl) as [Hbl1 Hbl2].
  pose proof (rows_of_width (K := K) true _ Hok) as Hw.
  unfold script_pre; cbn [ds_data ds_label]. rewrite !length_map.
  repeat split; try reflexivity; try exact Hnc; try exact Hnh; try exact (eq_sym Hlt);
    try (apply Forall_map_nth; assumption); try (apply rows_of_width, Hok).
  - destruct indices as [|i idx]; [apply Permutation_length in Hp; discriminate|]. discriminate.
  - rewrite length_firstn. apply labels_ok_of_Forall; [|rewrite length_map, length_firstn; lia].
    apply Forall_map_nth; [apply labels_of_bound, Hkeys | exact Hbl1].
Qed.
End ScriptLemmas.

(** ** Properties of the script *)

Section ScriptProperties.
Context {K : Type} `{Scalar K}.
Local Open Scope nn_scope.

(** C25: on well-formed data the script returns exactly when the
    optimizer returns: the reshape of its result (271-272), the three
    predictions and the three accuracies cannot fail, for any optimizer
    that meets the contract. *)
Theorem run_Ok_iff `{M : Minimizer K} cfg (g : rng K) train valid test ni :
  MinimizerSpec K M -> script_pre cfg train valid test ni ->
  (exists r, run cfg g train valid test = Ok r) <->
  (exists x, minimize (fun p => nnObjFunction p (script_args cfg ni train))
               (fst (initial_params g ni (cfg_hidden cfg) (cfg_class cfg))) (cfg_maxiter cfg) = Ok x).
Proof.
  intros HM Hpre. pose proof Hpre as (Hne & Htr & _).
  split.
  - intros [r Hr]. rewrite (run_unfold _ _ _ _ _ ni (n_input_of_Ok _ _ Hne Htr)) in Hr.
    destruct (minimize _ _ _) as [x|e]; [eauto | discriminate].
  - intros [x Hx]. destruct (run_Ok_of_minimize cfg g train valid test ni x Hpre Hx
      (minimize_length _ _ _ _ Hx)) as (w1 & w2 & a1 & a2 & a3 & Hrun & _). eauto.
Qed.

End ScriptProperties.

(** ** The script with the gradient-descent driver, at the reals *)

Section ScriptReal.
Local Open Scope R_scope.

Lemma evaluate_bounds_R ni nh nc (w1 w2 : mat R) (d : dataset R) a :
  has_shape nh (ni + 1) w1 -> has_shape nc (nh + 1) w2 -> nc <> 0%nat ->
  Forall (fun r => length r = ni) (ds_data d) -> length (ds_label d) = length (ds_data d) ->
  ds_data d <> [] -> evaluate w1 w2 d = Ok a -> exists x, a = Some x /\ 0 <= x <= 100.
Proof.
  intros Hw1 Hw2 Hnc Hrows Hl Hne Ha.
  destruct (evaluate_Ok ni nh nc w1 w2 d Hw1 Hw2 Hnc Hrows Hl) as (e & He & Hev).
  assert (Hpos : (0 < length e)%nat) by (rewrite He; destruct (ds_data d); [congruence | simpl; lia]).
  rewrite np_mean_astype in Hev by (destruct e; [simpl in Hpos; lia | discriminate]).
  rewrite Ha in Hev. injection Hev as ->.
  eexists. split; [reflexivity|]. exact (percent_bounds _ _ (count_true_le e) Hpos).
Qed.

(** With a driver that meets the contract and always returns, the script
    returns on well-formed data, with accuracies between 0 and 100. *)
Lemma run_total `{M : Minimizer R} cfg (g : rng R) train valid test ni :
  MinimizerSpec R M -> MinimizerTotal R M -> script_pre cfg train valid test ni ->
  exists rep g',
    run cfg g train valid test = Ok (rep, g') /\
    (exists a, rep_train rep = Some a /\ 0 <= a <= 100) /\
    (ds_data valid <> [] -> exists a, rep_valid rep = Some a /\ 0 <= a <= 100) /\
    (ds_data test <> [] -> exists a, rep_test rep = Some a /\ 0 <= a <= 100).
Proof.
  intros HM HT Hpre.
  destruct (minimize_total _ _ (cfg_maxiter cfg) (script_objective_total cfg g train valid test ni Hpre))
    as [x Hx].
  destruct (run_Ok_of_minimize cfg g train valid test ni x Hpre Hx (minimize_length _ _ _ _ Hx))
    as (w1 & w2 & a1 & a2 & a3 & Hrun & Hs1 & Hs2 & E1 & E2 & E3).
  pose proof Hpre as (Hne & Htr & Hva & Hte & _ & Hnc & _ & Ltr & Lva & Lte).
  do 2 eexists. split; [exact Hrun|]. cbn [rep_train rep_valid rep_test].
  split; [|split; intros Hd].
  - exact (evaluate_bounds_R _ _ _ _ _ train _ Hs1 Hs2 Hnc Htr Ltr Hne E1).
  - exact (evaluate_bounds_R _ _ _ _ _ valid _ Hs1 Hs2 Hnc Hva Lva Hd E2).
  - exact (evaluate_bounds_R _ _ _ _ _ test _ Hs1 Hs2 Hnc Hte Lte Hd E3).
Qed.

(** The whole program with such a driver and a numpy older than 1.10. *)
Lemma main_total `{M : Minimizer R} cfg matfile (indices : list nat) (g : rng R) :
  MinimizerSpec R M -> MinimizerTotal R M ->
  file_ok matfile -> train_keys_below matfile (cfg_class cfg) -> cfg_class cfg <> 0%nat ->
  cfg_hidden cfg <> 0%nat -> Permutation indices (seq 0 60000) -> (60000 <= length (rows_of (K := R) true matfile))%nat ->
  exists rep g',
    main Numpy_pre_1_10 cfg matfile indices g = Ok (rep, g') /\
    (exists a, rep_train rep = Some a /\ 0 <= a <= 100) /\
    (exists a, rep_valid rep = Some a /\ 0 <= a <= 100) /\
    (rows_of (K := R) false matfile <> [] -> exists a, rep_test rep = Some a /\ 0 <= a <= 100).
Proof.
  intros HM HT Hok Hkeys Hnc Hnh Hp Hn.
  destruct (preprocess_script_pre cfg matfile indices Hok Hkeys Hnc Hnh Hp Hn)
    as (tr & va & te & Hpp & Hs & Hva & Hte).
  destruct (run_total cfg g _ _ _ _ HM HT Hs) as (rep & g' & Hrun & H1 & H2 & H3).
  exists rep, g'. unfold main. rewrite Hpp. cbn [bind]. split; [exact Hrun|].
  split; [exact H1|]. split; [exact (H2 Hva)|]. rewrite <- Hte. exact H3.
Qed.
End ScriptReal.

(** ** The whole program *)

Section MainProperties.
Local Open Scope R_scope.

(** C26: the whole program with a numpy older than 1.10 and the
    gradient-descent driver: for a configuration with a class and a
    hidden unit, on a well-formed file (every matrix with a digit in its
    key well formed and 784 pixels wide, training keys numbered below
    [n_class], at least 60000 training images) and for
    every permutation [np.random.permutation(60000)] may draw, it returns,
    and the training and validation accuracies, and the test accuracy of
    a file with test images, are numbers between 0 and 100. *)
Theorem main_gradient_descent (alpha0 : R) ls_max cfg matfile (indices : list nat) (g : rng R) :
  file_ok matfile -> train_keys_below matfile (cfg_class cfg) -> cfg_class cfg <> 0%nat ->
  cfg_hidden cfg <> 0%nat -> Permutation indices (seq 0 60000) -> (60000 <= length (rows_of (K := R) true matfile))%nat ->
  exists rep g',
    @main R _ (gradient_descent alpha0 ls_max) Numpy_pre_1_10 cfg matfile indices g = Ok (rep, g') /\
    (exists a, rep_train rep = Some a /\ 0 <= a <= 100) /\
    (exists a, rep_valid rep = Some a /\ 0 <= a <= 100) /\
    (rows_of (K := R) false matfile <> [] -> exists a, rep_test rep = Some a /\ 0 <= a <= 100).
Proof.
  apply main_total; [|apply gradient_descent_is_total].
  apply gradient_descent_meets_spec; [exact Rltb_irrefl | exact Rltb_le_lt].
Qed.

(** C27: with numpy 1.13 or later the program cannot run: the first key
    of the file with a digit reaches [np.append(.., axis=1)] on 1-D arrays
    (line 80 or 83), which raises [AxisError], whatever the optimizer. *)
Theorem main_current_AxisError `{M : Minimizer R} cfg matfile (indices : list nat) (g : rng R) :
  (exists key value, In (key, value) matfile /\ findall_digits key <> []) ->
  main Numpy_current cfg matfile indices g = Err AxisError.
Proof. intros Hk. unfold main, preprocess. rewrite (load_current_AxisError (K := R) _ Hk). reflexivity. Qed.

(** A file of 60000 blank training images of the digit 3 and one test
    image. *)
Definition exR_mat : list (string * mat nat) :=
  [("train3"%string, Mat 60000 784 (repeat (repeat 0%nat 784) 60000));
   ("test3"%string, Mat 1 784 (repeat (repeat 0%nat 784) 1))].

Lemma blank_mat_wf r c : wf_mat (Mat r c (repeat (repeat 0%nat c) r)).
Proof.
  split; cbn [mdata mrows mcols]; [apply repeat_length|].
  apply Forall_forall. intros x Hx%repeat_spec. subst x. apply repeat_length.
Qed.

Lemma exR_mat_ok : file_ok exR_mat.
Proof.
  intros key value Hin _. unfold exR_mat in Hin.
  destruct Hin as [Hin|[Hin|[]]]; apply pair_equal_spec in Hin as [<- <-];
    (split; [apply (blank_mat_wf _ 784) | reflexivity]).
Qed.

Lemma exR_mat_rows : rows_of (K := R) true exR_mat = scale_pixels (Mat 60000 784 (repeat (repeat 0%nat 784) 60000)).
Proof.
  unfold rows_of, exR_mat. cbn [flat_map fst snd]. unfold key_rows.
  change (findall_digits "train3") with [[Ascii.ascii_of_nat 51]].
  change (findall_digits "test3") with [[Ascii.ascii_of_nat 51]].
  change (is_train_key "train3") with true. change (is_train_key "test3") with false.
  cbn [Bool.eqb]. rewrite !app_nil_r. reflexivity.
Qed.

(** What [main_gradient_descent] asks of the example file. *)
Lemma exR_mat_pre :
  train_keys_below exR_mat (cfg_class (script_config (K := R))) /\
  (60000 <= length (rows_of (K := R) true exR_mat))%nat.
Proof.
  split.
  - intros key value d ds Hin Hd Ht. unfold exR_mat in Hin.
    destruct Hin as [Hin|[Hin|[]]]; apply pair_equal_spec in Hin as [<- _];
      vm_compute in Hd, Ht; [|discriminate].
    injection Hd as <- _. vm_compute. lia.
  - rewrite exR_mat_rows. unfold scale_pixels. cbn [mdata]. rewrite length_map, repeat_length. apply le_n.
Qed.

Lemma main_gradient_descent_witness :
  exists rep g',
    @main R _ (gradient_descent (1 / 2) 4) Numpy_pre_1_10 script_config exR_mat (seq 0 60000)
      (Rng (fun _ => / 2) 0) = Ok (rep, g') /\
    (exists a, rep_train rep = Some a /\ 0 <= a <= 100) /\
    (exists a, rep_valid rep = Some a /\ 0 <= a <= 100) /\
    (rows_of (K := R) false exR_mat <> [] -> exists a, rep_test rep = Some a /\ 0 <= a <= 100).
Proof.
  apply (main_gradient_descent (1 / 2) 4 script_config exR_mat (seq 0 60000) (Rng (fun _ => / 2) 0)).
  - exact exR_mat_ok.
  - exact (proj1 exR_mat_pre).
  - discriminate.
  - discriminate.
  - apply Permutation_refl.
  - exact (proj2 exR_mat_pre).
Defined.
End MainProperties.

(** At the rationals the script runs by evaluation. *)

From Stdlib Require Import QArith.

Definition exQ_cfg : config Q := Config 1 0 2 2.
Definition exQ_train : dataset Q :=
  Dataset [[1#2; 1]; [0; 1#4]; [1; 0]; [1#4; 1#4]] [1%Z; 0%Z; 1%Z; 0%Z].
Definition exQ_g : rng Q := Rng (fun k => Z.of_nat (k mod 7) # 7) 0.
Definition gdQ : Minimizer Q := gradient_descent (1#2) 2.

Lemma gdQ_spec : MinimizerSpec Q gdQ.
Proof. apply gradient_descent_meets_spec; [exact Q_ltb_irrefl | exact Q_ltb_le_lt]. Qed.

Lemma run_Ok_iff_witness : exists r, @run Q _ gdQ exQ_cfg exQ_g exQ_train exQ_train exQ_train = Ok r.
Proof.
  apply (proj2 (run_Ok_iff exQ_cfg exQ_g exQ_train exQ_train exQ_train 2%nat gdQ_spec
    (script_preb_spec exQ_cfg exQ_train exQ_train exQ_train 2%nat eq_refl))).
  apply is_Ok_spec. vm_compute. reflexivity.
Defined.

Lemma main_current_AxisError_witness :
  @main R _ (gradient_descent (1 / 2)%R 4) Numpy_current script_config exR_mat (seq 0 60000)
    (Rng (fun _ => / 2)%R 0) = Err AxisError.
Proof.
  apply main_current_AxisError. exists "train3"%string, (Mat 60000 784 (repeat (repeat 0%nat 784) 60000)).
  split; [left; reflexivity | vm_compute; discriminate].
Defined.
