(* ===== verification/Persist.v ===== *)
(** * Persisting the trained parameters (nnScript.py:294)

    The last line of the script, [pickle.dump([n_hidden,w1,w2,lambdaval],
    open('params.pickle','wb'))], writes the list of the hidden-layer size,
    the two trained weight matrices and the regularisation parameter.  The
    byte format of pickle is a library's; what the program decides is the
    object it dumps and the file it writes.  [pyobj] is that object (an
    int, a float, a numpy array, a list), the file system is an
    association list from names to the objects stored there, and
    [write_file] is [open(name, 'wb')] (create or truncate) followed by the
    dump.  [script] is the whole program: [main] (lines 235-291), then line
    294 when it returns; an exception before line 294 leaves the files as
    they were.

    [unpickle_params] is the reader the specification names ("an opaque
    serializable tuple/struct for later reloading"): it takes the four
    fields back.  Theorems: the file the script writes reloads to the
    weights the script reports, which are the optimizer's result reshaped
    as [nnObjFunction] reshapes it and reproduce the three reported
    accuracies. *)

From Stdlib Require Import String List Arith Bool Lia ZArith Permutation Reals Lra.
From S2P Require Import Prelude Scalar Matrix Objective Predict Accuracy Init Optimizer Preprocess Script.
Import ListNotations.

(** The Python values [pickle.dump] receives on line 294. *)
Inductive pyobj (K : Type) : Type :=
| PyInt (n : nat)
| PyFloat (x : K)
| PyArray (m : mat K)
| PyList (l : list (pyobj K)).
Arguments PyInt {K}.
Arguments PyFloat {K}.
Arguments PyArray {K}.
Arguments PyList {K}.

(** The files of the working directory and what is stored in them. *)
Definition files (K : Type) : Type := list (string * pyobj K).

Section Persist.
Context {K : Type} `{Scalar K}.

(** [[n_hidden, w1, w2, lambdaval]]. *)
Definition pickle_params (n_hidden : nat) (w1 w2 : mat K) (lambdaval : K) : pyobj K :=
  PyList [PyInt n_hidden; PyArray w1; PyArray w2; PyFloat lambdaval].

(** [pickle.dump(o, open(name, 'wb'))]: the file is created, or truncated
    and rewritten. *)
Definition write_file (name : string) (o : pyobj K) (fs : files K) : files K :=
  (name, o) :: filter (fun p => negb (String.eqb (fst p) name)) fs.

Definition read_file (name : string) (fs : files K) : option (pyobj K) :=
  option_map snd (find (fun p => String.eqb (fst p) name) fs).

(** Reloading the four fields. *)
Definition unpickle_params (o : pyobj K) : option (nat * mat K * mat K * K) :=
  match o with
  | PyList [PyInt n; PyArray w1; PyArray w2; PyFloat l] => Some (n, w1, w2, l)
  | _ => None
  end.

(** Lines 235-294. *)
Definition script `{Minimizer K} (v : numpy_release) (cfg : config K) (matfile : list (string * mat nat))
    (indices : list nat) (g : rng K) (fs : files K) : res (report K * rng K) * files K :=
  match main v cfg matfile indices g with
  | Ok (rep, g') =>
      (Ok (rep, g'),
       write_file "params.pickle" (pickle_params (cfg_hidden cfg) (rep_w1 rep) (rep_w2 rep) (cfg_lambda cfg)) fs)
  | Err e => (Err e, fs)
  end.
End Persist.

(** ** The file system *)

Section Files.
Context {K : Type} `{Scalar K}.

Lemma read_write_same name (o : pyobj K) fs : read_file name (write_file name o fs) = Some o.
Proof. unfold read_file, write_file. cbn [find fst]. rewrite String.eqb_refl. reflexivity. Qed.

End Files.

(** ** What the script computed before it saved *)

Section RunInv.
Context {K : Type} `{Scalar K}.

(** A returned report holds the optimizer's result reshaped into [w1] and
    [w2], and the accuracies of those weights on the three sets. *)
Lemma run_Ok_inv `{Minimizer K} cfg (g : rng K) train valid test rep g' :
  run cfg g train valid test = Ok (rep, g') ->
  exists ni x,
    n_input_of (ds_data train) = Ok ni /\
    minimize (fun p => nnObjFunction p (script_args cfg ni train))
      (fst (initial_params g ni (cfg_hidden cfg) (cfg_class cfg))) (cfg_maxiter cfg) = Ok x /\
    flatten (rep_w1 rep) ++ flatten (rep_w2 rep) = x /\
    has_shape (cfg_hidden cfg) (ni + 1) (rep_w1 rep) /\
    has_shape (cfg_class cfg) (cfg_hidden cfg + 1) (rep_w2 rep) /\
    evaluate (rep_w1 rep) (rep_w2 rep) train = Ok (rep_train rep) /\
    evaluate (rep_w1 rep) (rep_w2 rep) valid = Ok (rep_valid rep) /\
    evaluate (rep_w1 rep) (rep_w2 rep) test = Ok (rep_test rep).
Proof.
  intros Hrun. destruct (n_input_of (ds_data train)) as [ni|e] eqn:Hni;
    [|unfold run in Hrun; rewrite Hni in Hrun; discriminate].
  rewrite (run_unfold _ _ _ _ _ ni Hni) in Hrun. inv_bind. cbn [rep_w1 rep_w2 rep_train rep_valid rep_test].
  exists ni, a. repeat split; auto; try (eapply reshape_shape; eassumption).
  rewrite (flatten_reshape _ _ _ _ Ha0), (flatten_reshape _ _ _ _ Ha1). apply slice_0_skipn.
Qed.
End RunInv.

(** ** Properties of the saved parameters *)

Section PersistProperties.
Context {K : Type} `{Scalar K}.

(** C33: when the program returns, [params.pickle] holds a list that
    reloads to the configured [n_hidden] and [lambdaval] and to weights
    [w1], [w2] of the shapes [(n_hidden, n_input+1)] and
    [(n_class, n_hidden+1)] whose concatenation is the vector the optimizer
    returned, and with which [nnPredict] reproduces the three reported
    accuracies on the sets [preprocess] produced. *)
Theorem script_persists `{M : Minimizer K} v cfg matfile indices (g : rng K) fs rep g' fs' :
  script v cfg matfile indices g fs = (Ok (rep, g'), fs') ->
  exists o w1 w2 train valid test ni x,
    read_file "params.pickle" fs' = Some o /\
    unpickle_params o = Some (cfg_hidden cfg, w1, w2, cfg_lambda cfg) /\
    preprocess v matfile indices = Ok (train, valid, test) /\
    n_input_of (ds_data train) = Ok ni /\
    minimize (fun p => nnObjFunction p (script_args cfg ni train))
      (fst (initial_params g ni (cfg_hidden cfg) (cfg_class cfg))) (cfg_maxiter cfg) = Ok x /\
    flatten w1 ++ flatten w2 = x /\
    has_shape (cfg_hidden cfg) (ni + 1) w1 /\ has_shape (cfg_class cfg) (cfg_hidden cfg + 1) w2 /\
    evaluate w1 w2 train = Ok (rep_train rep) /\ evaluate w1 w2 valid = Ok (rep_valid rep) /\
    evaluate w1 w2 test = Ok (rep_test rep).
Proof.
  unfold script. destruct (main v cfg matfile indices g) as [[rep0 g0]|e] eqn:Hm; [|discriminate].
  intros [= <- <- <-]. unfold main in Hm. inv_bind. destruct a as [[train valid] test].
  destruct (run_Ok_inv _ _ _ _ _ _ _ Hm) as (ni & x & Hni & Hx & Hfl & Hs1 & Hs2 & E1 & E2 & E3).
  exists (pickle_params (cfg_hidden cfg) (rep_w1 rep0) (rep_w2 rep0) (cfg_lambda cfg)),
    (rep_w1 rep0), (rep_w2 rep0), train, valid, test, ni, x.
  rewrite read_write_same.
  repeat (split; [first [reflexivity | assumption]|]). assumption.
Qed.

End PersistProperties.

Section PersistWitness.
Local Open Scope R_scope.

Lemma script_persists_witness :
  exists rep g' fs',
    @script R _ (gradient_descent (1 / 2) 4) Numpy_pre_1_10 script_config exR_mat (seq 0 60000)
      (Rng (fun _ => / 2) 0) [] = (Ok (rep, g'), fs') /\
  exists o w1 w2 train valid test ni x,
    read_file "params.pickle" fs' = Some o /\
    unpickle_params o = Some (cfg_hidden script_config, w1, w2, cfg_lambda script_config) /\
    preprocess Numpy_pre_1_10 exR_mat (seq 0 60000) = Ok (train, valid, test) /\
    n_input_of (ds_data train) = Ok ni /\
    @minimize R (gradient_descent (1 / 2) 4) (fun p => nnObjFunction p (script_args script_config ni train))
      (fst (initial_params (Rng (fun _ => / 2) 0) ni (cfg_hidden script_config) (cfg_class script_config)))
      (cfg_maxiter script_config) = Ok x /\
    flatten w1 ++ flatten w2 = x /\
    has_shape (cfg_hidden script_config) (ni + 1) w1 /\
    has_shape (cfg_class script_config) (cfg_hidden script_config + 1) w2 /\
    evaluate w1 w2 train = Ok (rep_train rep) /\ evaluate w1 w2 valid = Ok (rep_valid rep) /\
    evaluate w1 w2 test = Ok (rep_test rep).
Proof.
  assert (HM : MinimizerSpec R (gradient_descent (1 / 2) 4))
    by (apply gradient_descent_meets_spec; [exact Rltb_irrefl | exact Rltb_le_lt]).
  destruct (main_total script_config exR_mat (seq 0 60000) (Rng (fun _ => / 2) 0) HM
              (gradient_descent_is_total _ _) exR_mat_ok (proj1 exR_mat_pre) ltac:(discriminate) ltac:(discriminate)
              (Permutation_refl _) (proj2 exR_mat_pre)) as (rep & g' & Hm & _).
  eexists rep, g', _. split; [unfold script; rewrite Hm; reflexivity|].
  apply (script_persists Numpy_pre_1_10 script_config exR_mat (seq 0 60000) (Rng (fun _ => / 2) 0) [] rep g').
  unfold script. rewrite Hm. reflexivity.
Defined.
End PersistWitness.
